(** * pdf_extractor: page pipeline, progress scanner and combiner

    A shallow embedding of [src/pdf_extractor.py] and the properties of
    its output store.

    Conventions of the model.
    - Python [int] is [Z]; Python [str] is [string].  File names and file
      contents are sequences of ASCII characters: non-ASCII digits and
      white space and UTF-8 decoding errors are outside the model.
    - A file holds the characters that were written to it: text-mode
      writing is verbatim, as where [os.linesep] is a line feed.  Reading
      in text mode returns a carriage return, with or without a line feed
      after it, as one line feed ([universal_newlines]).
    - The output directory [<name>_processed/] is a [store]: its two
      sub-directories (absent, or a finite map from entry name to
      content) and the optional [combined_output.txt].  Writing into an
      absent directory raises; other I/O errors are outside the model.
    - PyMuPDF and Tesseract are an [engines] record of deterministic
      oracles; every call made to them is appended to a call log.
      Closing the document in the [finally] block and silencing stderr
      around the OCR call change neither the store nor the result and
      are left out.
    - Worker threads write disjoint paths, so a run of the pool is the
      sequence of its tasks taken in completion order, an arbitrary
      permutation of the submitted pages.
    - What a function prints is kept only where a claim speaks of it, as
      a report value; elapsed time is not modelled. *)

From Stdlib Require Import ZArith Ascii String List Permutation Sorted Lia.
From stdpp Require Import base tactics option list numbers strings pretty gmap fin_maps.

Local Open Scope string_scope.
Local Open Scope list_scope.
Local Open Scope Z_scope.

(** ** Python strings *)

Module PyStr.

(** [needle in hay]. *)
Fixpoint contains (needle hay : string) : bool :=
  String.prefix needle hay ||
  match hay with
  | EmptyString => false
  | String _ rest => contains needle rest
  end.

(** [s.startswith(p)]. *)
Definition startswith (p s : string) : bool := String.prefix p s.

Definition LF : ascii := ascii_of_nat 10.
Definition CR : ascii := ascii_of_nat 13.

(** Newline translation of a file opened with [open(path, 'r')]: each
    carriage return is read as a line feed, and a line feed directly
    after a carriage return is dropped.  [after_cr] records whether the
    previous character was a carriage return. *)
Fixpoint translate_newlines (after_cr : bool) (s : string) : string :=
  match s with
  | EmptyString => EmptyString
  | String c r =>
      if Ascii.eqb c CR then String LF (translate_newlines true r)
      else if Ascii.eqb c LF && after_cr then translate_newlines false r
      else String c (translate_newlines false r)
  end.

(** [f.read()] on a text file holding the characters [s]. *)
Definition universal_newlines (s : string) : string := translate_newlines false s.

(** The first [n] characters of a text. *)
Definition read_prefix (n : nat) (s : string) : string := String.substring 0 n s.

(** [c.isdigit()] for an ASCII character. *)
Definition is_digit (c : ascii) : bool :=
  let n := nat_of_ascii c in (48 <=? n)%nat && (n <=? 57)%nat.

Definition digit_val (c : ascii) : N := N.of_nat (nat_of_ascii c - 48).

Fixpoint all_digits (s : string) : bool :=
  match s with
  | EmptyString => true
  | String c r => is_digit c && all_digits r
  end.

(** [s.isdigit()]: non-empty and every character a digit. *)
Definition isdigit (s : string) : bool :=
  match s with
  | EmptyString => false
  | _ => all_digits s
  end.

(** [c.isspace()] for an ASCII character: TAB..CR, FS..US and space. *)
Definition is_space (c : ascii) : bool :=
  let n := nat_of_ascii c in
  ((9 <=? n)%nat && (n <=? 13)%nat) || ((28 <=? n)%nat && (n <=? 32)%nat).

Fixpoint lstrip (s : string) : string :=
  match s with
  | String c r => if is_space c then lstrip r else s
  | EmptyString => EmptyString
  end.

(** [s.strip()]. *)
Definition strip (s : string) : string :=
  String.rev (lstrip (String.rev (lstrip s))).

(** [c.lower()] for an ASCII character. *)
Definition lower_char (c : ascii) : ascii :=
  let n := nat_of_ascii c in
  if (65 <=? n)%nat && (n <=? 90)%nat then ascii_of_nat (n + 32) else c.

Fixpoint lower (s : string) : string :=
  match s with
  | EmptyString => EmptyString
  | String c r => String (lower_char c) (lower r)
  end.

(** The digits of a decimal literal, read left to right.  Python accepts
    single underscores between digits; [after_digit] records whether the
    previous character was a digit. *)
Fixpoint digits_acc (acc : N) (after_digit : bool) (s : string) : option N :=
  match s with
  | EmptyString => if after_digit then Some acc else None
  | String c r =>
      if is_digit c then digits_acc (10 * acc + digit_val c)%N true r
      else if Ascii.eqb c "_" && after_digit then digits_acc acc false r
      else None
  end.

(** White space as [int()] skips it at both ends of an ASCII string:
    TAB..CR and space, not FS..US. *)
Definition is_c_space (c : ascii) : bool :=
  let n := nat_of_ascii c in
  ((9 <=? n)%nat && (n <=? 13)%nat) || (n =? 32)%nat.

Fixpoint int_lstrip (s : string) : string :=
  match s with
  | String c r => if is_c_space c then int_lstrip r else s
  | EmptyString => EmptyString
  end.

Definition int_strip (s : string) : string :=
  String.rev (int_lstrip (String.rev (int_lstrip s))).

(** [int(s)] in base 10; [None] is [ValueError]. *)
Definition int (s : string) : option Z :=
  match int_strip s with
  | String c r =>
      if Ascii.eqb c "-" then (λ n, - Z.of_N n) <$> digits_acc 0 false r
      else if Ascii.eqb c "+" then Z.of_N <$> digits_acc 0 false r
      else Z.of_N <$> digits_acc 0 false (String c r)
  | EmptyString => None
  end.

(** [str(n)] and [f"{n}"] for an integer. *)
Definition str_int (n : Z) : string := pretty n.

(** [s.zfill]-style padding of a digit string on the left. *)
Definition zero_pad (width : nat) (s : string) : string :=
  Nat.iter (width - String.length s) (String "0") s.

(** [f"{n:04d}"]: at least four characters, the sign first. *)
Definition fmt04d (n : Z) : string :=
  if n <? 0 then String "-" (zero_pad 3 (pretty (Z.to_N (- n))))
  else zero_pad 4 (pretty (Z.to_N n)).

(** [s.split(sep)] for a one-character separator. *)
Fixpoint split_on (sep : ascii) (s : string) : list string :=
  match s with
  | EmptyString => [EmptyString]
  | String c r =>
      if Ascii.eqb c sep then EmptyString :: split_on sep r
      else match split_on sep r with
           | h :: t => String c h :: t
           | [] => [String c EmptyString]
           end
  end.

End PyStr.

(** ** pathlib names *)

Module PyPath.

(** [name.rfind(".")]. *)
Fixpoint rfind_dot (s : string) : option nat :=
  match s with
  | EmptyString => None
  | String c r =>
      match rfind_dot r with
      | Some i => Some (S i)
      | None => if Ascii.eqb c "." then Some 0%nat else None
      end
  end.

(** Position at which [PurePath] splits a name into stem and suffix:
    the last dot, unless it is the first or the last character. *)
Definition split_point (name : string) : option nat :=
  match rfind_dot name with
  | Some i =>
      if (0 <? i)%nat && (i <? String.length name - 1)%nat then Some i else None
  | None => None
  end.

(** [path.suffix]. *)
Definition suffix (name : string) : string :=
  match split_point name with
  | Some i => String.substring i (String.length name - i) name
  | None => EmptyString
  end.

(** [path.stem]. *)
Definition stem (name : string) : string :=
  match split_point name with
  | Some i => String.substring 0 i name
  | None => name
  end.

End PyPath.

(** ** The output store and the external engines *)

(** A directory: entry name to content. *)
Abbreviation dir := (gmap string string).

(** What lies under [<output_dir>/<safe_name>_processed/].  A
    sub-directory that does not exist is [None]. *)
Record store := Store {
  png_images : option dir;
  text_files : option dir;
  combined_output : option string;
}.

(** A raised exception: [type(e).__name__] and [str(e)]. *)
Record exn := Exn { exn_kind : string; exn_detail : string }.

(** Calls into PyMuPDF and Tesseract, in the order they are made. *)
Inductive call :=
| FitzOpen (pdf_path : string)
| LoadPage (page_num : Z)
| GetPixmap (page_num : Z)
| PixSave (name : string)
| ImageToString (name : string).

(** How [pytesseract.get_tesseract_version()] ends: it returns a
    version, raises [TesseractNotFoundError], or raises something else
    (a [CalledProcessError] of the executable, [SystemExit] for a version
    it cannot read). *)
Inductive tesseract_check :=
| TesseractVersion
| TesseractNotFound
| TesseractRaises (e : exn).

(** The engines as oracles.  [fitz_open] gives the page count of the
    document; the rendering matrix is determined by [dpi]. *)
Record engines := Engines {
  fitz_open : string → exn + Z;
  load_page : string → Z → option exn;
  get_pixmap : string → Z → Z → exn + string;
  pix_save_error : string → exn;
  image_to_string : string → string → exn + string;
  get_tesseract_version : tesseract_check;
}.

(** The Tesseract check of [process_pdf] passes. *)
Definition tesseract_found (E : engines) : bool :=
  match get_tesseract_version E with
  | TesseractVersion => true
  | _ => false
  end.

Definition file_exists (d : option dir) (name : string) : bool :=
  match d with
  | Some m => bool_decide (is_Some (m !! name))
  | None => false
  end.

Definition read_file (d : option dir) (name : string) : option string :=
  d ≫= λ m, m !! name.

(** [path.mkdir(parents=True, exist_ok=True)]. *)
Definition mkdir (d : option dir) : option dir :=
  match d with
  | Some m => Some m
  | None => Some ∅
  end.

(** [open(path, 'w')] in a directory that does not exist. *)
Definition file_not_found (path : string) : exn :=
  Exn "FileNotFoundError" ("[Errno 2] No such file or directory: '" +:+ path +:+ "'").

(** ** A state and exception monad for the body of a task *)

Definition task (A : Type) : Type := store → store * list call * (exn + A).

Definition ret {A} (a : A) : task A := λ st, (st, [], inr a).

Global Instance task_ret : MRet task := @ret.

Global Instance task_bind : MBind task := λ A B (k : A → task B) (m : task A),
  λ st,
    match m st with
    | (st1, log1, inl e) => (st1, log1, inl e)
    | (st1, log1, inr a) =>
        match k a st1 with
        | (st2, log2, r) => (st2, log1 ++ log2, r)
        end
    end.

(** An engine call: log it, then return or raise as the oracle says. *)
Definition engine {A} (c : call) (r : exn + A) : task A :=
  λ st, (st, [c], r).

Definition of_option_exn (o : option exn) : exn + unit :=
  match o with
  | Some e => inl e
  | None => inr tt
  end.

(** [pix.save(str(png_filepath))]. *)
Definition pix_save (E : engines) (name img : string) : task unit :=
  λ st,
    match png_images st with
    | Some m =>
        (Store (Some (<[name := img]> m)) (text_files st) (combined_output st),
         [PixSave name], inr tt)
    | None => (st, [PixSave name], inl (pix_save_error E name))
    end.

(** [with open(txt_filepath, 'w') as f: f.write(content)]. *)
Definition write_text (name content : string) : task unit :=
  λ st,
    match text_files st with
    | Some m =>
        (Store (png_images st) (Some (<[name := content]> m)) (combined_output st),
         [], inr tt)
    | None => (st, [], inl (file_not_found ("text_files/" +:+ name)))
    end.

(** ** Page Task Executor *)

Definition SENTINEL : string := "OCR FAILED FOR THIS PAGE: ".

Definition png_name (page_index : Z) : string := PyStr.fmt04d page_index +:+ ".png".
Definition txt_name (page_index : Z) : string := PyStr.fmt04d page_index +:+ ".txt".

(** What a task hands back: the returned tuple, or an exception that
    escaped the function. *)
Inductive outcome :=
| Returned (success : bool) (page_index : Z) (error_msg : option string)
| Raised (e : exn).

(** The [try] block of [process_page_task]. *)
Definition render_and_ocr (E : engines) (pdf_path : string) (page_num : Z)
    (dpi : Z) (languages : string) : task unit :=
  let page_index := page_num + 1 in
  engine (FitzOpen pdf_path) (fitz_open E pdf_path);;
  engine (LoadPage page_num) (of_option_exn (load_page E pdf_path page_num));;
  pix ← engine (GetPixmap page_num) (get_pixmap E pdf_path page_num dpi);
  pix_save E (png_name page_index) pix;;
  text ← engine (ImageToString (png_name page_index)) (image_to_string E pix languages);
  write_text (txt_name page_index) (PyStr.strip text).

Definition error_message (e : exn) : string :=
  "OCR failed: " +:+ exn_kind e +:+ ": " +:+ exn_detail e.

Definition process_page_task (E : engines) (pdf_path : string) (page_num : Z)
    (dpi : Z) (languages : string) (st : store) : store * list call * outcome :=
  let page_index := page_num + 1 in
  if file_exists (png_images st) (png_name page_index)
     && file_exists (text_files st) (txt_name page_index)
  then (st, [], Returned true page_index None)
  else
    match render_and_ocr E pdf_path page_num dpi languages st with
    | (st1, log, inr _) => (st1, log, Returned true page_index None)
    | (st1, log, inl e) =>
        let error_msg := error_message e in
        match write_text (txt_name page_index) (SENTINEL +:+ error_msg) st1 with
        | (st2, _, inr _) => (st2, log, Returned false page_index (Some error_msg))
        | (st2, _, inl e') => (st2, log, Raised e')
        end
    end.

(** ** Progress Scanner *)

(** [max(xs)] of a non-empty collection. *)
Definition py_max (xs : list Z) : option Z :=
  match xs with
  | [] => None
  | x :: r => Some (foldl Z.max x r)
  end.

(** The body of the loop over [png_dir.iterdir()]: the page number an
    entry contributes to [processed_pages], if any.  After [isdigit] the
    conversion [int(page_num_str)] cannot fail (lemma [int_isdigit]). *)
Definition scan_entry (txt : dir) (name : string) : option Z :=
  if String.eqb (PyPath.suffix name) ".png" && PyStr.isdigit (PyPath.stem name) then
    let page_num_str := PyPath.stem name in
    if bool_decide (is_Some (txt !! (page_num_str +:+ ".txt")))
    then PyStr.int page_num_str
    else None
  else None.

Definition processed_pages (png txt : dir) : gset Z :=
  list_to_set (omap (scan_entry txt) (elements (dom png))).

Definition get_last_processed_page (st : store) : Z :=
  match png_images st, text_files st with
  | Some png, Some txt =>
      let pages := processed_pages png txt in
      if decide (pages = ∅) then 0
      else default 0 (py_max (elements pages))
  | _, _ => 0
  end.

(** ** Combiner *)

(** [range(lo, hi)]. *)
Definition py_range (lo hi : Z) : list Z := seqZ lo (hi - lo).

Definition NL : string := String (ascii_of_nat 10) EmptyString.

(** The page delimiter written before each merged page. *)
Definition page_header (n : Z) : string :=
  NL +:+ NL +:+ "==================== PAGE " +:+ PyStr.str_int n
     +:+ " ====================" +:+ NL +:+ NL.

(** The test made on [f.read(50)], the first 50 characters of an
    existing text file as read in text mode. *)
Definition passes_marker_check (content : string) : bool :=
  negb (PyStr.contains "OCR FAILED"
          (PyStr.read_prefix 50 (PyStr.universal_newlines content))).

(** The first loop of [combine_text_files]: the names appended to
    [sorted_files], in the order of the range. *)
Fixpoint select_files (txt : option dir) (pages : list Z) : list string :=
  match pages with
  | [] => []
  | page_index :: rest =>
      let filename := txt_name page_index in
      match read_file txt filename with
      | Some content =>
          if passes_marker_check content
          then filename :: select_files txt rest
          else select_files txt rest
      | None => select_files txt rest
      end
  end.

(** The second loop: what has been written to the master file so far, and
    the exception that stopped the loop, if any.  [infile.read()] reads
    in text mode. *)
Fixpoint write_pages (txt : option dir) (files : list string) (written : string)
    : string * option exn :=
  match files with
  | [] => (written, None)
  | filepath :: rest =>
      match PyStr.int (PyPath.stem filepath) with
      | None =>
          (written, Some (Exn "ValueError"
             ("invalid literal for int() with base 10: '" +:+ PyPath.stem filepath +:+ "'")))
      | Some n =>
          let written := written +:+ page_header n in
          match read_file txt filepath with
          | None => (written, Some (file_not_found ("text_files/" +:+ filepath)))
          | Some content =>
              write_pages txt rest (written +:+ PyStr.universal_newlines content)
          end
      end
  end.

(** What [combine_text_files] prints at its end. *)
Inductive combine_report :=
| NothingToCombine
| Merged (count : nat)
| CombineError (e : exn).

Definition combine_text_files (st : store) (start_page end_page : Z)
    : store * combine_report :=
  let sorted_files := select_files (text_files st) (py_range start_page (end_page + 1)) in
  match sorted_files with
  | [] => (st, NothingToCombine)
  | _ =>
      match write_pages (text_files st) sorted_files EmptyString with
      | (written, None) =>
          (Store (png_images st) (text_files st) (Some written),
           Merged (length sorted_files))
      | (written, Some e) =>
          (Store (png_images st) (text_files st) (Some written), CombineError e)
      end
  end.

(** ** Concurrency Coordinator and Result Aggregator *)

Record config := Config {
  pdf_path : string;
  start_page : Z;
  end_page : Z;
  dpi : Z;
  languages : string;
}.

(** The order in which [as_completed] yields the submitted tasks. *)
Record schedule := Schedule {
  completion : list Z → list Z;
  completion_perm : ∀ l, completion l ≡ₚ l;
}.

Record tally := Tally {
  success_count : Z;
  failure_count : Z;
  failure_messages : list string;
}.

(** The body of the loop over [as_completed(futures)]. *)
Definition aggregate (t : tally) (o : outcome) : tally :=
  match o with
  | Returned true _ None =>
      Tally (success_count t + 1) (failure_count t) (failure_messages t)
  | Returned true _ (Some _) => t
  | Returned false page_index error_msg =>
      Tally (success_count t) (failure_count t + 1)
        (failure_messages t ++
           ["Page " +:+ PyStr.fmt04d page_index +:+ ": " +:+ default "None" error_msg])
  | Raised _ =>
      Tally (success_count t) (failure_count t + 1) (failure_messages t)
  end.

(** State of a run of the pool: the store, the engine calls made, the
    outcomes collected so far (in completion order). *)
Record pool := Pool {
  pool_store : store;
  pool_calls : list call;
  pool_outcomes : list outcome;
}.

Definition run_task (E : engines) (cfg : config) (p : pool) (page_num : Z) : pool :=
  match process_page_task E (pdf_path cfg) page_num (dpi cfg) (languages cfg) (pool_store p) with
  | (st, log, o) => Pool st (pool_calls p ++ log) (pool_outcomes p ++ [o])
  end.

Definition run_pool (E : engines) (cfg : config) (order : list Z) (st : store) : pool :=
  foldl (run_task E cfg) (Pool st [] []) order.

(** The result of [process_pdf]: [run_tally] is [None] when the function
    ended at the Tesseract check; [run_combine] is the report of the
    combination step when it ran; [run_raised] is the exception that
    escaped the function, if one did. *)
Record run := Ran {
  run_store : store;
  run_calls : list call;
  run_outcomes : list outcome;
  run_tally : option tally;
  run_combine : option combine_report;
  run_raised : option exn;
}.

(** A run from which [process_pdf] returned. *)
Abbreviation Run st calls outcomes t report := (Ran st calls outcomes t report None).

(** The two [mkdir(parents=True, exist_ok=True)] calls. *)
Definition make_dirs (st : store) : store :=
  Store (mkdir (png_images st)) (mkdir (text_files st)) (combined_output st).

(** The check of the Tesseract setup catches [TesseractNotFoundError]
    only and stands outside the second [try]: any other exception of
    [get_tesseract_version] escapes [process_pdf]. *)
Definition process_pdf (E : engines) (S : schedule) (cfg : config) (st : store) : run :=
  let st0 := make_dirs st in
  match get_tesseract_version E with
  | TesseractNotFound => Run st0 [] [] None None
  | TesseractRaises e => Ran st0 [] [] None None (Some e)
  | TesseractVersion =>
      let pages_to_process_indices := py_range (start_page cfg - 1) (end_page cfg) in
      let p := run_pool E cfg (completion S pages_to_process_indices) st0 in
      let t := foldl aggregate (Tally 0 0 []) (pool_outcomes p) in
      if 0 <? success_count t then
        match combine_text_files (pool_store p) (start_page cfg) (end_page cfg) with
        | (st1, report) => Run st1 (pool_calls p) (pool_outcomes p) (Some t) (Some report)
        end
      else Run (pool_store p) (pool_calls p) (pool_outcomes p) (Some t) None
  end.

(** ** Command line and interactive setup *)

(** The parsed command line.  [output_dir] locates the store and
    [tesseract_path] the OCR executable; what the version check of that
    executable gives is the oracle [get_tesseract_version]. *)
Record arguments := Arguments {
  arg_pdf_path : string;
  arg_output_dir : string;
  arg_dpi : Z;
  arg_lang : string;
  arg_tesseract_path : string;
}.

(** How the menu loop ends: [sys.exit(code)], or [break] with the range
    to process. *)
Inductive menu_result :=
| MenuExit (code : Z)
| MenuRange (start_page end_page : Z).

(** [start_str, end_str = range_input.split('-')] and the two [int]
    conversions; [None] is [ValueError]. *)
Definition parse_range (range_input : string) : option (Z * Z) :=
  match PyStr.split_on "-" range_input with
  | [start_str; end_str] =>
      start_page_input ← PyStr.int start_str;
      end_page_input ← PyStr.int end_str;
      Some (start_page_input, end_page_input)
  | _ => None
  end.

(** The [while True] loop of [setup_and_run] over the lines that
    [input()] returns.  When the lines run out [input()] raises
    [EOFError], which the last handler turns into [sys.exit(1)]. *)
Fixpoint menu (last_page total_pages : Z) (inputs : list string) : menu_result :=
  match inputs with
  | [] => MenuExit 1
  | line :: rest =>
      let mode := PyStr.lower (PyStr.strip line) in
      if String.eqb mode "q" then MenuExit 0
      else if String.eqb mode "r" then
        if 0 <? last_page then
          let start_page := last_page + 1 in
          if total_pages <? start_page then MenuExit 0
          else MenuRange start_page total_pages
        else menu last_page total_pages rest
      else if String.eqb mode "a" then MenuRange 1 total_pages
      else if String.eqb mode "n"
              || (PyStr.contains "-" mode && negb (String.eqb mode "r")) then
        if String.eqb mode "n" then
          match rest with
          | [] => MenuExit 1
          | line2 :: rest2 =>
              match parse_range (PyStr.strip line2) with
              | Some (s, e) =>
                  if (1 <=? s) && (s <=? e) && (e <=? total_pages)
                  then MenuRange s e
                  else menu last_page total_pages rest2
              | None => menu last_page total_pages rest2
              end
          end
        else
          match parse_range mode with
          | Some (s, e) =>
              if (1 <=? s) && (s <=? e) && (e <=? total_pages)
              then MenuRange s e
              else menu last_page total_pages rest
          | None => menu last_page total_pages rest
          end
      else menu last_page total_pages rest
  end.

(** [setup_and_run]: the exit status of the process, and the run of
    [process_pdf] if it was started.  A script that runs to its end exits
    with status 0; an exception that escapes [process_pdf] is caught
    nowhere and ends the process with status 1. *)
Definition setup_and_run (E : engines) (S : schedule) (args : arguments)
    (pdf_exists : bool) (inputs : list string) (st : store) : Z * option run :=
  if negb pdf_exists then (1, None)
  else
    match fitz_open E (arg_pdf_path args) with
    | inl _ => (1, None)
    | inr total_pages =>
        let last_page := get_last_processed_page st in
        match menu last_page total_pages inputs with
        | MenuExit code => (code, None)
        | MenuRange start_page end_page =>
            let r := process_pdf E S
                       (Config (arg_pdf_path args) start_page end_page
                               (arg_dpi args) (arg_lang args)) st in
            (match run_raised r with Some _ => 1 | None => 0 end, Some r)
        end
    end.

(** ** Auxiliary definitions used in the statements and proofs *)

(** Every character of [s] satisfies [p]. *)
Fixpoint sforall (p : ascii → bool) (s : string) : bool :=
  match s with
  | EmptyString => true
  | String c r => p c && sforall p r
  end.


(** The value of a digit string read left to right, starting from [acc]. *)
Fixpoint dec_value (acc : N) (s : string) : N :=
  match s with
  | EmptyString => acc
  | String c r => dec_value (10 * acc + PyStr.digit_val c)%N r
  end.

Definition not_space (c : ascii) : bool := negb (PyStr.is_space c).

Definition not_dot (c : ascii) : bool := negb (Ascii.eqb c ".").

(** The characters [f"{n:04d}"] is made of. *)
Definition sign_or_digit (c : ascii) : bool := PyStr.is_digit c || Ascii.eqb c "-".

(** A page is complete in the executor's addressing when both of its
    artifacts exist: the test of the idempotent skip. *)
Definition page_complete (st : store) (page_index : Z) : bool :=
  file_exists (png_images st) (png_name page_index)
  && file_exists (text_files st) (txt_name page_index).

(** What the oracles decide for a page that is not skipped, when both
    directories exist. *)
Inductive attempt :=
| OpenFailed (e : exn)
| LoadFailed (e : exn)
| PixmapFailed (e : exn)
| OcrFailed (img : string) (e : exn)
| Extracted (img text : string).

Definition attempt_of (E : engines) (pdf : string) (page_num dpi : Z)
    (lang : string) : attempt :=
  match fitz_open E pdf with
  | inl e => OpenFailed e
  | inr _ =>
      match load_page E pdf page_num with
      | Some e => LoadFailed e
      | None =>
          match get_pixmap E pdf page_num dpi with
          | inl e => PixmapFailed e
          | inr img =>
              match image_to_string E img lang with
              | inl e => OcrFailed img e
              | inr text => Extracted img text
              end
          end
      end
  end.

Definition attempt_png (a : attempt) : option string :=
  match a with
  | OcrFailed img _ | Extracted img _ => Some img
  | _ => None
  end.

Definition attempt_failure (a : attempt) : option exn :=
  match a with
  | OpenFailed e | LoadFailed e | PixmapFailed e | OcrFailed _ e => Some e
  | Extracted _ _ => None
  end.

Definition attempt_text (a : attempt) : string :=
  match a with
  | Extracted _ text => PyStr.strip text
  | OpenFailed e | LoadFailed e | PixmapFailed e | OcrFailed _ e =>
      SENTINEL +:+ error_message e
  end.

Definition attempt_calls (pdf : string) (page_num : Z) (a : attempt) : list call :=
  match a with
  | OpenFailed _ => [FitzOpen pdf]
  | LoadFailed _ => [FitzOpen pdf; LoadPage page_num]
  | PixmapFailed _ => [FitzOpen pdf; LoadPage page_num; GetPixmap page_num]
  | OcrFailed _ _ | Extracted _ _ =>
      [FitzOpen pdf; LoadPage page_num; GetPixmap page_num;
       PixSave (png_name (page_num + 1)); ImageToString (png_name (page_num + 1))]
  end.

Definition attempt_outcome (page_index : Z) (a : attempt) : outcome :=
  match attempt_failure a with
  | Some e => Returned false page_index (Some (error_message e))
  | None => Returned true page_index None
  end.

(** The store after an attempt on a page. *)
Definition attempt_store (P T : dir) (c : option string) (page_index : Z)
    (a : attempt) : store :=
  Store (Some (match attempt_png a with
               | Some img => <[png_name page_index := img]> P
               | None => P
               end))
        (Some (<[txt_name page_index := attempt_text a]> T)) c.

(** The store a task leaves behind. *)
Definition task_store (E : engines) (cfg : config) (st : store) (page_num : Z) : store :=
  (process_page_task E (pdf_path cfg) page_num (dpi cfg) (languages cfg) st).1.1.

(** Both sub-directories exist, as after the [mkdir] calls of [process_pdf]. *)
Definition has_dirs (st : store) : Prop :=
  is_Some (png_images st) ∧ is_Some (text_files st).

(** The text artifact of a page, and the two kinds there are. *)
Definition text_artifact (st : store) (page_index : Z) : option string :=
  read_file (text_files st) (txt_name page_index).

Definition render_artifact (st : store) (page_index : Z) : option string :=
  read_file (png_images st) (png_name page_index).

Definition sentinel_text (st : store) (page_index : Z) : Prop :=
  ∃ content, text_artifact st page_index = Some content
             ∧ PyStr.startswith SENTINEL content = true.

Definition real_text (st : store) (page_index : Z) : Prop :=
  ∃ content, text_artifact st page_index = Some content
             ∧ PyStr.startswith SENTINEL content = false.

(** Rendering fails before [pix.save]: the document does not open, the
    page does not load, or no pixmap is produced. *)
Definition render_fails (E : engines) (pdf : string) (dpi : Z) (page_num : Z) : Prop :=
  (∃ e, fitz_open E pdf = inl e)
  ∨ (∃ e, load_page E pdf page_num = Some e)
  ∨ (∃ e, get_pixmap E pdf page_num dpi = inl e).

(** What holds of a page and the outcome collected for it once its task
    has run. *)
Definition settled (E : engines) (cfg : config) (st : store) (page_num : Z)
    (o : outcome) : Prop :=
  ∃ (success : bool) (msg : option string),
    o = Returned success (page_num + 1) msg
    ∧ (success = true → msg = None)
    ∧ (success = false → sentinel_text st (page_num + 1))
    ∧ is_Some (text_artifact st (page_num + 1))
    ∧ (is_Some (render_artifact st (page_num + 1))
       ∨ render_fails E (pdf_path cfg) (dpi cfg) page_num).

Definition is_success (o : outcome) : bool :=
  match o with
  | Returned true _ _ => true
  | _ => false
  end.

Definition is_failure (o : outcome) : bool := negb (is_success o).

(** The 1-based index an outcome reports. *)
Definition outcome_index (o : outcome) : option Z :=
  match o with
  | Returned _ page_index _ => Some page_index
  | Raised _ => None
  end.

(** Number of elements of a list that pass a test. *)
Definition count {A} (f : A → bool) (l : list A) : Z := Z.of_nat (length (List.filter f l)).

(** A page qualifies for the merge when its text artifact exists and
    passes the marker check. *)
Definition mergeable (st : store) (page_index : Z) : bool :=
  match text_artifact st page_index with
  | Some content => passes_marker_check content
  | None => false
  end.

Definition merged_pages (st : store) (start_page end_page : Z) : list Z :=
  List.filter (mergeable st) (py_range start_page (end_page + 1)).

(** What [infile.read()] returns for the text artifact of a page: its
    characters as read in text mode. *)
Definition text_read (st : store) (page_index : Z) : option string :=
  PyStr.universal_newlines <$> text_artifact st page_index.

(** The merged artifact for a list of pages: each page's delimiter and
    then its text as read. *)
Fixpoint merged_text (st : store) (pages : list Z) : string :=
  match pages with
  | [] => EmptyString
  | page_index :: rest =>
      page_header page_index +:+ default EmptyString (text_read st page_index)
        +:+ merged_text st rest
  end.

Definition not_cr (c : ascii) : bool := negb (Ascii.eqb c PyStr.CR).

Definition merged_count (r : combine_report) : Z :=
  match r with
  | Merged n => Z.of_nat n
  | _ => 0
  end.

(** The text artifact exists and does not begin with the sentinel. *)
Definition lacks_sentinel_prefix (st : store) (page_index : Z) : bool :=
  match text_artifact st page_index with
  | Some content => negb (PyStr.startswith SENTINEL content)
  | None => false
  end.

(** The outcome of the task of a page. *)
Definition task_outcome (E : engines) (cfg : config) (st : store) (page_num : Z) : outcome :=
  (process_page_task E (pdf_path cfg) page_num (dpi cfg) (languages cfg) st).2.

(** The oracles let the extraction of a page go through. *)
Definition extraction_succeeds (E : engines) (cfg : config) (page_num : Z) : bool :=
  match attempt_failure (attempt_of E (pdf_path cfg) page_num (dpi cfg) (languages cfg)) with
  | Some _ => false
  | None => true
  end.

(** An outcome the aggregator counts: every outcome except a success
    that carries a message. *)
Definition counted (o : outcome) : Prop :=
  match o with
  | Returned true _ (Some _) => False
  | _ => True
  end.

(** The pages submitted by [process_pdf], in completion order, and the
    state of the pool when all have completed. *)
Definition submitted (S : schedule) (cfg : config) : list Z :=
  completion S (py_range (start_page cfg - 1) (end_page cfg)).

Definition drained (E : engines) (S : schedule) (cfg : config) (st : store) : pool :=
  run_pool E cfg (submitted S cfg) (make_dirs st).

(** ** Concrete engines, schedules and stores used in the examples *)

(** Three pages; Tesseract fails on the image of the second page. *)
Definition demo_engines : engines :=
  Engines (λ _, inr 3) (λ _ _, None)
    (λ _ page_num _, inr ("image-" +:+ pretty page_num))
    (λ name, Exn "RuntimeError" ("cannot save " +:+ name))
    (λ img _, if String.eqb img "image-1"
              then inl (Exn "TesseractError" "(1, 'read error')")
              else inr ("  text of " +:+ img +:+ " "))
    TesseractVersion.

(** The same document with a working OCR engine. *)
Definition sound_engines : engines :=
  Engines (λ _, inr 3) (λ _ _, None)
    (λ _ page_num _, inr ("image-" +:+ pretty page_num))
    (λ name, Exn "RuntimeError" ("cannot save " +:+ name))
    (λ img _, inr ("  text of " +:+ img +:+ " "))
    TesseractVersion.

(** A document that cannot be opened. *)
Definition broken_engines : engines :=
  Engines (λ _, inl (Exn "FileDataError" "cannot open broken document"))
    (λ _ _, None)
    (λ _ page_num _, inr ("image-" +:+ pretty page_num))
    (λ name, Exn "RuntimeError" ("cannot save " +:+ name))
    (λ img _, inr ("  text of " +:+ img +:+ " "))
    TesseractVersion.

Definition in_order : schedule := Schedule id (λ l, reflexivity l).

Definition reversed : schedule := Schedule reverse reverse_Permutation.

Definition demo_config : config := Config "book.pdf" 1 3 300 "eng".

Definition empty_store : store := Store None None None.

Definition fresh_store : store := Store (Some ∅) (Some ∅) None.

(** The store left by a first complete run of the sound engines over the
    three pages of the demo document. *)
Definition first_run_store : store :=
  run_store (process_pdf sound_engines in_order demo_config empty_store).

(** A store left by an interrupted run: page 1 was rendered, its text
    was never written. *)
Definition interrupted_store : store :=
  Store (Some {["0001.png" := "stale image"]}) (Some ∅) None.

(** A store whose first page is a real text that mentions the marker. *)
Definition mention_store : store :=
  Store (Some {["0001.png" := "image-0"]})
        (Some {["0001.txt" := "Scanner log: OCR FAILED on tray 2"]})
        None.

(** Page 1 failed, page 2 was never processed, and a combined artifact is
    left from an earlier run. *)
Definition failed_store : store :=
  Store (Some {["0001.png" := "image-0"]})
        (Some {["0001.txt" := "OCR FAILED FOR THIS PAGE: OCR failed: TesseractError: boom"]})
        (Some "earlier merge").

(** An index is complete for the scanner when the render collection has
    an entry [<digits>.png] whose digits parse to the index and the text
    collection has the corresponding [<digits>.txt]. *)
Definition entry_complete (st : store) (n : Z) : Prop :=
  ∃ (png txt : dir) (digits : string),
    png_images st = Some png ∧ text_files st = Some txt
    ∧ PyStr.isdigit digits = true
    ∧ is_Some (png !! (digits +:+ ".png"))
    ∧ is_Some (txt !! (digits +:+ ".txt"))
    ∧ PyStr.int digits = Some n.

(** Pages 1, 2 and 5 are complete; page 3 has only its image and page 4
    only its text. *)
Definition gap_store : store :=
  Store
    (Some (list_to_map [("0001.png", "i1"); ("0002.png", "i2"); ("0003.png", "i3");
                        ("0005.png", "i5")]))
    (Some (list_to_map [("0001.txt", "t1"); ("0002.txt", "t2"); ("0004.txt", "t4");
                        ("0005.txt", "t5")]))
    None.

(** A readable three-page document on a machine without Tesseract. *)
Definition no_tesseract_engines : engines :=
  Engines (λ _, inr 3) (λ _ _, None)
    (λ _ page_num _, inr ("image-" +:+ pretty page_num))
    (λ name, Exn "RuntimeError" ("cannot save " +:+ name))
    (λ img _, inr ("  text of " +:+ img +:+ " "))
    TesseractNotFound.

(** A readable three-page document with [--tesseract-path] set to an
    executable that is not Tesseract and exits with status 1. *)
Definition bad_tesseract_engines : engines :=
  Engines (λ _, inr 3) (λ _ _, None)
    (λ _ page_num _, inr ("image-" +:+ pretty page_num))
    (λ name, Exn "RuntimeError" ("cannot save " +:+ name))
    (λ img _, inr ("  text of " +:+ img +:+ " "))
    (TesseractRaises
       (Exn "CalledProcessError"
            "Command '['/bin/false', '--version']' returned non-zero exit status 1.")).

Definition demo_arguments : arguments :=
  Arguments "book.pdf" "." 300 "eng" "/usr/bin/tesseract".

(** A store whose only page files are not zero-padded. *)
Definition unpadded_store : store :=
  Store (Some {["5.png" := "i5"]}) (Some {["5.txt" := "t5"]}) None.

(** A text with carriage returns, as Tesseract may return it: the lines
    [a], [b] and [c], the first ended by CR LF and the second by CR. *)
Definition crlf_text : string :=
  String "a" (String PyStr.CR (String PyStr.LF
    (String "b" (String PyStr.CR (String "c" EmptyString))))).

(** A one-page document for which Tesseract returns [crlf_text]. *)
Definition crlf_engines : engines :=
  Engines (λ _, inr 1) (λ _ _, None)
    (λ _ page_num _, inr ("image-" +:+ pretty page_num))
    (λ name, Exn "RuntimeError" ("cannot save " +:+ name))
    (λ img _, inr crlf_text)
    TesseractVersion.

(** Page 1 holds [crlf_text]. *)
Definition crlf_store : store :=
  Store (Some {["0001.png" := "image-0"]}) (Some {["0001.txt" := crlf_text]}) None.

(** The character [a], 39 times CR LF, then the marker: 89 characters in
    the file, 50 as read in text mode. *)
Definition late_marker_text : string :=
  String "a" (Nat.iter 39 (λ s, String PyStr.CR (String PyStr.LF s)) "OCR FAILED").

(** Every all-digit render entry is named as the executor names it. *)
Definition zero_padded_names (st : store) : Prop :=
  ∀ (png : dir) digits,
    png_images st = Some png → PyStr.isdigit digits = true →
    is_Some (png !! (digits +:+ ".png")) → ∃ n, digits = PyStr.fmt04d n.

(** ** Proof automation *)

(** Name the two directories of a store that [has_dirs]. *)
Ltac open_dirs st Hd P T c :=
  destruct st as [[P|] [T|] c];
  [clear Hd | exfalso; destruct Hd as [[? ?] [? ?]]; simplify_eq/= ..].

(** ** Silencing stderr around the OCR call *)

(** The stream objects of the process: which object [sys.stderr] is
    bound to, the objects that have been closed, and the object the next
    [open] creates. *)
Record streams := Streams {
  sys_stderr : nat;
  closed : gset nat;
  next_object : nat;
}.

(** [suppress_stderr] up to its [yield]: [original_stderr] is saved and
    [sys.stderr] is rebound to a newly opened [os.devnull].  The saved
    object is the generator's local variable, handed back here. *)
Definition suppress_enter (s : streams) : nat * streams :=
  (sys_stderr s, Streams (next_object s) (closed s) (S (next_object s))).

(** The [finally] block of [suppress_stderr]: whatever [sys.stderr] is
    bound to is closed, then the saved object is bound again. *)
Definition suppress_exit (original_stderr : nat) (s : streams) : streams :=
  Streams original_stderr ({[sys_stderr s]} ∪ closed s) (next_object s).

(** [with suppress_stderr(): body], for a body that may rebind or close
    streams and may raise: the [finally] block runs either way and the
    exception, if any, goes on. *)
Definition with_suppress_stderr {A} (body : streams → streams * (exn + A))
    (s : streams) : streams * (exn + A) :=
  let '(original_stderr, s1) := suppress_enter s in
  let '(s2, r) := body s1 in
  (suppress_exit original_stderr s2, r).

(** Two worker threads inside [suppress_stderr] at the same time: the
    first enters, the second enters, the first leaves, the second
    leaves. *)
Definition overlapping_suppress (s : streams) : streams :=
  let '(original_a, s1) := suppress_enter s in
  let '(original_b, s2) := suppress_enter s1 in
  suppress_exit original_b (suppress_exit original_a s2).

(** ** The name of the output directory *)

(** [s.replace(old, new)] for one-character [old] and [new]. *)
Fixpoint replace_char (old new : ascii) (s : string) : string :=
  match s with
  | EmptyString => EmptyString
  | String c r =>
      String (if Ascii.eqb c old then new else c) (replace_char old new r)
  end.

(** [pdf_file.stem.replace(' ', '_')], from the last component of the
    path. *)
Definition safe_name (file_name : string) : string :=
  replace_char " " "_" (PyPath.stem file_name).

(** The directory [f"{safe_name}_processed"] under the output base. *)
Definition output_dir_name (file_name : string) : string :=
  safe_name file_name +:+ "_processed".

(** ** Auxiliary definitions for the further properties *)

(** The line the aggregator appends for a failed page. *)
Definition failure_line (o : outcome) : option string :=
  match o with
  | Returned false page_index error_msg =>
      Some ("Page " +:+ PyStr.fmt04d page_index +:+ ": " +:+ default "None" error_msg)
  | _ => None
  end.

(** No character of [s] is white space at either end. *)
Definition no_edge_space (s : string) : Prop :=
  PyStr.lstrip s = s ∧ PyStr.lstrip (String.rev s) = String.rev s.

(** The text a user types for the range [s]-[e]. *)
Definition range_text (s e : Z) : string :=
  PyStr.str_int s +:+ "-" +:+ PyStr.str_int e.

(** The objects handed out so far are below [next_object]: the one bound
    to [sys.stderr] and every closed one. *)
Definition streams_wf (s : streams) : Prop :=
  (sys_stderr s < next_object s)%nat
  ∧ ∀ o, o ∈ closed s → (o < next_object s)%nat.

(** What a call of [combine_text_files] wrote to the master file: the
    empty text when it wrote nothing. *)
Definition written_text (r : store * combine_report) : string :=
  match r.2 with
  | Merged _ => default EmptyString (combined_output r.1)
  | _ => EmptyString
  end.

Definition not_blank (c : ascii) : bool := negb (Ascii.eqb c " ").

(** ** Further concrete inputs *)

(** The range chosen by 'a' for a document without pages. *)
Definition empty_range_config : config := Config "book.pdf" 1 0 300 "eng".

(** The text files of [first_run_store] alone, beside an older combined
    artifact. *)
Definition texts_only_store : store :=
  Store None (text_files first_run_store) (Some "earlier merge").

Definition idle_streams : streams := Streams 0 ∅ 1.

(** * Properties *)

Example fmt04d_5 : PyStr.fmt04d 5 = "0005". Proof. reflexivity. Qed.
Example fmt04d_neg : PyStr.fmt04d (-5) = "-005". Proof. reflexivity. Qed.
Example fmt04d_big : PyStr.fmt04d 12345 = "12345". Proof. reflexivity. Qed.
Example int_pad : PyStr.int "0005" = Some 5. Proof. reflexivity. Qed.
Example int_us : PyStr.int " 1_0 " = Some 10. Proof. reflexivity. Qed.
Example int_bad : PyStr.int "1__0" = None. Proof. reflexivity. Qed.
Example stem_1 : PyPath.stem "0005.txt" = "0005". Proof. reflexivity. Qed.
Example suffix_1 : PyPath.suffix "0005.png" = ".png". Proof. reflexivity. Qed.
Example suffix_2 : PyPath.suffix ".png" = "". Proof. reflexivity. Qed.
Example split_1 : PyStr.split_on "-" "5-10" = ["5"; "10"]. Proof. reflexivity. Qed.
Example strip_1 : PyStr.strip "  a b  " = "a b". Proof. reflexivity. Qed.
Example int_fs :
  PyStr.strip (String "5" (String (ascii_of_nat 28) "")) = "5"
  ∧ PyStr.int (String "5" (String (ascii_of_nat 28) "")) = None.
Proof. split; reflexivity. Qed.
Example newlines_1 : PyStr.universal_newlines crlf_text = String "a" (NL +:+ "b" +:+ NL +:+ "c").
Proof. reflexivity. Qed.

(** ** Strings: append, reversal, prefixes *)

Section string_facts.

Lemma app_cons (a : ascii) (s t : string) : String a s +:+ t = String a (s +:+ t).
Proof. reflexivity. Qed.

Lemma app_empty_l (t : string) : "" +:+ t = t.
Proof. reflexivity. Qed.

Lemma app_empty_r (s : string) : s +:+ "" = s.
Proof. induction s as [|a s IH]; [done|]. by rewrite app_cons, IH. Qed.

Lemma app_assoc_s (s t u : string) : (s +:+ t) +:+ u = s +:+ (t +:+ u).
Proof. induction s as [|a s IH]; [done|]. by rewrite !app_cons, IH. Qed.

Lemma length_app_s (s t : string) :
  String.length (s +:+ t) = (String.length s + String.length t)%nat.
Proof. induction s as [|a s IH]; [done|]. rewrite app_cons. simpl. by rewrite IH. Qed.

Lemma rev_app_twice (s1 s2 s3 : string) :
  String.rev_app (String.rev_app s1 s2) s3 = String.rev_app s2 (s1 +:+ s3).
Proof.
  revert s2 s3. induction s1 as [|a s1 IH]; intros s2 s3; [done|].
  simpl. by rewrite IH.
Qed.

Lemma rev_involutive_s (s : string) : String.rev (String.rev s) = s.
Proof. unfold String.rev. rewrite rev_app_twice. simpl. apply app_empty_r. Qed.

Lemma sforall_impl (p q : ascii → bool) (s : string) :
  (∀ c, p c = true → q c = true) → sforall p s = true → sforall q s = true.
Proof.
  intros Hpq. induction s as [|a s IH]; [done|]. simpl.
  rewrite !andb_true_iff. intros [??]. auto.
Qed.

Lemma sforall_app (p : ascii → bool) (s t : string) :
  sforall p (s +:+ t) = sforall p s && sforall p t.
Proof.
  induction s as [|a s IH]; [done|]. rewrite app_cons. simpl.
  by rewrite IH, andb_assoc.
Qed.

Lemma sforall_rev_app (p : ascii → bool) (s t : string) :
  sforall p (String.rev_app s t) = sforall p s && sforall p t.
Proof.
  revert t. induction s as [|a s IH]; intros t; [done|]. simpl.
  rewrite IH. simpl. destruct (p a), (sforall p s); simpl; done.
Qed.

Lemma prefix_app (p s : string) : String.prefix p (p +:+ s) = true.
Proof.
  induction p as [|a p IH]; [by destruct s|].
  rewrite app_cons. simpl. destruct (ascii_dec a a); [done|congruence].
Qed.

Lemma prefix_inv (p s : string) : String.prefix p s = true → ∃ r, s = p +:+ r.
Proof.
  revert s. induction p as [|a p IH]; intros s H.
  - by exists s.
  - destruct s as [|b s]; [done|]. simpl in H.
    destruct (ascii_dec a b) as [->|]; [|done].
    destruct (IH _ H) as [r ->]. by exists r.
Qed.

Lemma substring_0_app (s t : string) :
  String.substring 0 (String.length s) (s +:+ t) = s.
Proof.
  induction s as [|a s IH]; [by destruct t|].
  rewrite app_cons. simpl. by rewrite IH.
Qed.

Lemma substring_skip_app (s t : string) (m : nat) :
  String.substring (String.length s) m (s +:+ t) = String.substring 0 m t.
Proof. induction s as [|a s IH]; [done|]. rewrite app_cons. simpl. apply IH. Qed.

Lemma substring_0_all (s : string) : String.substring 0 (String.length s) s = s.
Proof. induction s as [|a s IH]; [done|]. simpl. by rewrite IH. Qed.

Lemma substring_split (i : nat) (s : string) :
  (i ≤ String.length s)%nat →
  s = String.substring 0 i s +:+ String.substring i (String.length s - i) s.
Proof.
  revert i. induction s as [|a s IH]; intros i Hi.
  - simpl in Hi. assert (i = 0%nat) as -> by lia. done.
  - destruct i as [|i].
    + simpl. by rewrite substring_0_all.
    + simpl in *. rewrite app_cons. f_equal. apply IH. lia.
Qed.

Lemma length_substring_0 (i : nat) (s : string) :
  (i ≤ String.length s)%nat → String.length (String.substring 0 i s) = i.
Proof.
  revert i. induction s as [|a s IH]; intros [|i] Hi; simpl in *; try done; try lia.
  rewrite IH; lia.
Qed.

Lemma rev_app_alt s t : String.rev_app s t = String.rev s +:+ t.
Proof.
  revert t. induction s as [|a s IH]; intros t; [done|].
  unfold String.rev. simpl. rewrite (IH (String a t)), (IH (String a "")).
  by rewrite app_assoc_s.
Qed.

Lemma rev_cons a s : String.rev (String a s) = String.rev s +:+ String a "".
Proof. unfold String.rev. simpl. apply rev_app_alt. Qed.

Lemma rev_app_distr_s a b : String.rev (a +:+ b) = String.rev b +:+ String.rev a.
Proof.
  induction a as [|c a IH].
  - rewrite app_empty_l. by rewrite app_empty_r.
  - rewrite app_cons, !rev_cons, IH. by rewrite app_assoc_s.
Qed.

Lemma app_inj_suffix a b s : a +:+ s = b +:+ s → a = b.
Proof.
  intros H. apply (f_equal String.rev) in H. rewrite !rev_app_distr_s in H.
  apply (inj (String.app _)) in H. apply (f_equal String.rev) in H.
  by rewrite !rev_involutive_s in H.
Qed.

End string_facts.

(** ** Decimal literals: [int(f"{n:04d}") = n] *)

Section decimal.

Lemma is_digit_not_space c : PyStr.is_digit c = true → not_space c = true.
Proof.
  unfold PyStr.is_digit, not_space, PyStr.is_space.
  destruct (nat_of_ascii c <=? 13)%nat eqn:?, (48 <=? nat_of_ascii c)%nat eqn:?,
    (nat_of_ascii c <=? 32)%nat eqn:?; try done; simpl;
    rewrite ?andb_false_r; simpl; try done; intros _; exfalso;
    repeat match goal with
      | H : (_ <=? _)%nat = true |- _ => apply Nat.leb_le in H
      | H : (_ <=? _)%nat = false |- _ => apply Nat.leb_gt in H
      end; lia.
Qed.

Lemma is_digit_not_dot c : PyStr.is_digit c = true → not_dot c = true.
Proof.
  unfold not_dot. destruct (Ascii.eqb_spec c ".") as [->|]; [|done].
  by vm_compute.
Qed.

Lemma is_digit_not_sign c :
  PyStr.is_digit c = true → Ascii.eqb c "-" = false ∧ Ascii.eqb c "+" = false.
Proof.
  destruct (Ascii.eqb_spec c "-") as [->|]; [by vm_compute|].
  destruct (Ascii.eqb_spec c "+") as [->|]; [by vm_compute|]. done.
Qed.

Lemma is_digit_not_underscore c : PyStr.is_digit c = true → Ascii.eqb c "_" = false.
Proof. destruct (Ascii.eqb_spec c "_") as [->|]; [by vm_compute|done]. Qed.

Lemma sign_or_digit_not_space c : sign_or_digit c = true → not_space c = true.
Proof.
  unfold sign_or_digit. rewrite orb_true_iff. intros [?|H].
  - by apply is_digit_not_space.
  - apply Ascii.eqb_eq in H as ->. done.
Qed.

Lemma sign_or_digit_not_dot c : sign_or_digit c = true → not_dot c = true.
Proof.
  unfold sign_or_digit. rewrite orb_true_iff. intros [?|H].
  - by apply is_digit_not_dot.
  - apply Ascii.eqb_eq in H as ->. done.
Qed.

Lemma all_digits_sforall s : PyStr.all_digits s = sforall PyStr.is_digit s.
Proof. induction s as [|a s IH]; [done|]. simpl. by rewrite IH. Qed.

Lemma lstrip_id s : sforall not_space s = true → PyStr.lstrip s = s.
Proof.
  destruct s as [|a s]; [done|]. simpl. unfold not_space at 1.
  destruct (PyStr.is_space a); done.
Qed.

Lemma strip_id s : sforall not_space s = true → PyStr.strip s = s.
Proof.
  intros H. unfold PyStr.strip. rewrite (lstrip_id s H).
  rewrite lstrip_id; [apply rev_involutive_s|].
  unfold String.rev. by rewrite sforall_rev_app, H.
Qed.

Lemma c_space_is_space c : PyStr.is_c_space c = true → PyStr.is_space c = true.
Proof.
  unfold PyStr.is_c_space, PyStr.is_space.
  rewrite !orb_true_iff, !andb_true_iff, Nat.eqb_eq, !Nat.leb_le. lia.
Qed.

Lemma int_lstrip_id s : sforall not_space s = true → PyStr.int_lstrip s = s.
Proof.
  destruct s as [|a s]; [done|]. simpl. unfold not_space at 1.
  destruct (PyStr.is_c_space a) eqn:Ha; [|done].
  by rewrite (c_space_is_space a Ha).
Qed.

(** [int()] has nothing to skip around a string without white space. *)
Lemma int_strip_id s : sforall not_space s = true → PyStr.int_strip s = s.
Proof.
  intros H. unfold PyStr.int_strip. rewrite (int_lstrip_id s H).
  rewrite int_lstrip_id; [apply rev_involutive_s|].
  unfold String.rev. by rewrite sforall_rev_app, H.
Qed.

Lemma digits_acc_value acc b s :
  sforall PyStr.is_digit s = true → s ≠ "" ∨ b = true →
  PyStr.digits_acc acc b s = Some (dec_value acc s).
Proof.
  revert acc b. induction s as [|a s IH]; intros acc b Hs Hb.
  - destruct Hb as [?| ->]; done.
  - simpl in *. apply andb_true_iff in Hs as [Ha Hs]. rewrite Ha.
    apply IH; auto.
Qed.

Lemma dec_value_app acc s t : dec_value acc (s +:+ t) = dec_value (dec_value acc s) t.
Proof.
  revert acc. induction s as [|a s IH]; intros acc; [done|].
  rewrite app_cons. simpl. apply IH.
Qed.

Lemma pretty_N_char_digit d :
  (d < 10)%N →
  PyStr.is_digit (pretty_N_char d) = true ∧ PyStr.digit_val (pretty_N_char d) = d.
Proof.
  intros Hd.
  assert (d = 0 ∨ d = 1 ∨ d = 2 ∨ d = 3 ∨ d = 4 ∨ d = 5 ∨ d = 6 ∨ d = 7
          ∨ d = 8 ∨ d = 9)%N as Hcases by lia.
  repeat destruct Hcases as [->|Hcases]; try subst d; by vm_compute.
Qed.

Lemma pretty_N_go_app x s : pretty_N_go x s = pretty_N_go x "" +:+ s.
Proof.
  revert s. induction (N.lt_wf_0 x) as [x _ IH]; intros s.
  destruct (decide (x = 0)%N) as [->|Hx]; [by rewrite !pretty_N_go_0|].
  assert (x `div` 10 < x)%N as Hlt by (apply N.div_lt; lia).
  rewrite !(pretty_N_go_step x) by lia.
  rewrite (IH _ Hlt (String _ s)), (IH _ Hlt (String _ "")).
  by rewrite app_assoc_s.
Qed.

Lemma pretty_N_go_digits x :
  sforall PyStr.is_digit (pretty_N_go x "") = true
  ∧ dec_value 0 (pretty_N_go x "") = x.
Proof.
  induction (N.lt_wf_0 x) as [x _ IH].
  destruct (decide (x = 0)%N) as [->|Hx]; [by rewrite pretty_N_go_0|].
  rewrite pretty_N_go_step, pretty_N_go_app by lia.
  destruct (IH (x `div` 10)%N) as [IH1 IH2]; [apply N.div_lt; lia|].
  destruct (pretty_N_char_digit (x `mod` 10)%N) as [Hd1 Hd2];
    [apply N.mod_lt; lia|].
  rewrite sforall_app, dec_value_app, IH1, IH2. simpl.
  rewrite Hd1, Hd2. split; [done|].
  rewrite (N.div_mod x 10) at 3 by lia. lia.
Qed.

Lemma pretty_N_go_nonempty x : x ≠ 0%N → pretty_N_go x "" ≠ "".
Proof.
  intros Hx. rewrite pretty_N_go_step, pretty_N_go_app by lia.
  by destruct (pretty_N_go _ "").
Qed.

Lemma pretty_N_digits (x : N) :
  sforall PyStr.is_digit (pretty x) = true ∧ dec_value 0 (pretty x) = x
  ∧ pretty x ≠ "".
Proof.
  unfold pretty, pretty_N. case_decide as Hx; [by subst|].
  destruct (pretty_N_go_digits x). auto using pretty_N_go_nonempty.
Qed.

Lemma zero_pad_digits w s :
  sforall PyStr.is_digit s = true → s ≠ "" →
  sforall PyStr.is_digit (PyStr.zero_pad w s) = true
  ∧ dec_value 0 (PyStr.zero_pad w s) = dec_value 0 s
  ∧ PyStr.zero_pad w s ≠ "".
Proof.
  intros Hs Hne. unfold PyStr.zero_pad.
  induction (w - String.length s)%nat as [|k IH]; [done|].
  destruct IH as (IH1 & IH2 & _).
  change (Nat.iter (S k) (String "0") s) with (String "0" (Nat.iter k (String "0") s)).
  split_and!; [exact IH1|exact IH2|done].
Qed.

(** The characters of a formatted page index. *)
Lemma fmt04d_chars n : sforall sign_or_digit (PyStr.fmt04d n) = true.
Proof.
  unfold PyStr.fmt04d.
  assert (∀ (x : N) w, sforall sign_or_digit (PyStr.zero_pad w (pretty x)) = true) as H.
  { intros x w. destruct (pretty_N_digits x) as (H1 & _ & H3).
    destruct (zero_pad_digits w _ H1 H3) as (H & _ & _).
    revert H. apply sforall_impl. unfold sign_or_digit. by intros c ->. }
  destruct (n <? 0); [simpl|]; by rewrite ?H.
Qed.

Lemma fmt04d_nonempty n : PyStr.fmt04d n ≠ "".
Proof.
  unfold PyStr.fmt04d. destruct (n <? 0); [done|].
  destruct (pretty_N_digits (Z.to_N n)) as (H1 & _ & H3).
  by destruct (zero_pad_digits 4 _ H1 H3) as (_ & _ & ?).
Qed.

(** Parsing a formatted page index gives the index back. *)
Lemma int_fmt04d n : PyStr.int (PyStr.fmt04d n) = Some n.
Proof.
  unfold PyStr.int. rewrite int_strip_id
    by (eapply sforall_impl, fmt04d_chars; apply sign_or_digit_not_space).
  unfold PyStr.fmt04d. destruct (Z.ltb_spec n 0) as [Hn|Hn].
  - destruct (pretty_N_digits (Z.to_N (- n))) as (H1 & H2 & H3).
    destruct (zero_pad_digits 3 _ H1 H3) as (H4 & H5 & H6).
    simpl. rewrite digits_acc_value by auto. simpl. rewrite H5, H2. f_equal. lia.
  - destruct (pretty_N_digits (Z.to_N n)) as (H1 & H2 & H3).
    destruct (zero_pad_digits 4 _ H1 H3) as (H4 & H5 & H6).
    destruct (PyStr.zero_pad 4 (pretty (Z.to_N n))) as [|c r] eqn:Hz; [done|].
    pose proof H4 as H4'. simpl in H4'. apply andb_true_iff in H4' as [Hc _].
    destruct (is_digit_not_sign c Hc) as [-> ->].
    rewrite digits_acc_value by auto. rewrite H5, H2. simpl. f_equal. lia.
Qed.

Lemma fmt04d_inj n m : PyStr.fmt04d n = PyStr.fmt04d m → n = m.
Proof.
  intros H. pose proof (int_fmt04d n) as Hn. rewrite H, int_fmt04d in Hn. congruence.
Qed.

(** An all-digit name parses, to a non-negative number. *)
Lemma int_isdigit s :
  PyStr.isdigit s = true → PyStr.int s = Some (Z.of_N (dec_value 0 s)).
Proof.
  intros H. assert (s ≠ "" ∧ sforall PyStr.is_digit s = true) as [Hne Hs].
  { destruct s; [done|]. simpl in H. by rewrite all_digits_sforall in H. }
  unfold PyStr.int. rewrite int_strip_id
    by (eapply sforall_impl, Hs; apply is_digit_not_space).
  destruct s as [|c r]; [done|].
  pose proof Hs as Hs'. simpl in Hs'. apply andb_true_iff in Hs' as [Hc _].
  destruct (is_digit_not_sign c Hc) as [-> ->].
  by rewrite digits_acc_value by auto.
Qed.

End decimal.

(** ** Stems and suffixes of entry names *)

Section paths.

Lemma rfind_dot_none s : sforall not_dot s = true → PyPath.rfind_dot s = None.
Proof.
  induction s as [|a s IH]; [done|]. simpl. rewrite andb_true_iff.
  intros [Ha Hs]. rewrite (IH Hs). unfold not_dot in Ha.
  by destruct (Ascii.eqb a ".").
Qed.

Lemma rfind_dot_app t u :
  sforall not_dot u = true →
  PyPath.rfind_dot (t +:+ String "." u) = Some (String.length t).
Proof.
  intros Hu. induction t as [|a t IH].
  - rewrite app_empty_l. simpl. by rewrite (rfind_dot_none u Hu).
  - rewrite app_cons. simpl. by rewrite IH.
Qed.

Lemma rfind_dot_lt s i : PyPath.rfind_dot s = Some i → (i < String.length s)%nat.
Proof.
  revert i. induction s as [|a s IH]; intros i; [done|]. simpl.
  destruct (PyPath.rfind_dot s) as [j|].
  - intros [= <-]. specialize (IH j eq_refl). lia.
  - destruct (Ascii.eqb a "."); [|done]. intros [= <-]. lia.
Qed.

Lemma split_point_app t u :
  t ≠ "" → u ≠ "" → sforall not_dot u = true →
  PyPath.split_point (t +:+ String "." u) = Some (String.length t).
Proof.
  intros Ht Hu Hdot. unfold PyPath.split_point. rewrite rfind_dot_app by done.
  rewrite length_app_s. simpl.
  destruct t; [done|]. destruct u; [done|]. simpl.
  case_match eqn:Hlt; [done|]. exfalso.
  apply Nat.ltb_ge in Hlt. lia.
Qed.

Lemma stem_app t u :
  t ≠ "" → u ≠ "" → sforall not_dot u = true →
  PyPath.stem (t +:+ String "." u) = t.
Proof.
  intros. unfold PyPath.stem. rewrite split_point_app by done.
  apply substring_0_app.
Qed.

Lemma suffix_app t u :
  t ≠ "" → u ≠ "" → sforall not_dot u = true →
  PyPath.suffix (t +:+ String "." u) = String "." u.
Proof.
  intros. unfold PyPath.suffix. rewrite split_point_app by done.
  rewrite length_app_s, substring_skip_app.
  replace (String.length t + String.length (String "." u) - String.length t)%nat
    with (String.length (String "." u)) by lia.
  apply substring_0_all.
Qed.

Lemma stem_suffix name :
  PyPath.suffix name ≠ "" → name = PyPath.stem name +:+ PyPath.suffix name.
Proof.
  unfold PyPath.stem, PyPath.suffix, PyPath.split_point.
  destruct (PyPath.rfind_dot name) as [i|] eqn:Hi; [|done].
  destruct ((0 <? i)%nat && (i <? String.length name - 1)%nat); [|done].
  intros _. apply substring_split. apply rfind_dot_lt in Hi. lia.
Qed.

Lemma stem_txt_name n : PyPath.stem (txt_name n) = PyStr.fmt04d n.
Proof. apply stem_app; [apply fmt04d_nonempty|done..]. Qed.

Lemma stem_png_name n : PyPath.stem (png_name n) = PyStr.fmt04d n.
Proof. apply stem_app; [apply fmt04d_nonempty|done..]. Qed.

Lemma txt_name_inj n m : txt_name n = txt_name m → n = m.
Proof.
  intros H. apply fmt04d_inj.
  by rewrite <-(stem_txt_name n), <-(stem_txt_name m), H.
Qed.

Lemma png_name_inj n m : png_name n = png_name m → n = m.
Proof.
  intros H. apply fmt04d_inj.
  by rewrite <-(stem_png_name n), <-(stem_png_name m), H.
Qed.

End paths.

(** ** The page task *)

Section page_task.

Context (E : engines) (pdf : string) (dpi : Z) (lang : string).

(** A complete page is skipped: nothing is called, nothing is written. *)
Lemma process_page_task_skip page_num st :
  page_complete st (page_num + 1) = true →
  process_page_task E pdf page_num dpi lang st
  = (st, [], Returned true (page_num + 1) None).
Proof. unfold process_page_task, page_complete. by intros ->. Qed.

(** A page that is not complete is attempted; with both directories in
    place the oracles alone decide what is written and returned. *)
Lemma process_page_task_attempt page_num P T c :
  page_complete (Store (Some P) (Some T) c) (page_num + 1) = false →
  process_page_task E pdf page_num dpi lang (Store (Some P) (Some T) c)
  = let a := attempt_of E pdf page_num dpi lang in
    (attempt_store P T c (page_num + 1) a,
     attempt_calls pdf page_num a,
     attempt_outcome (page_num + 1) a).
Proof.
  unfold process_page_task, page_complete. intros ->.
  unfold render_and_ocr, attempt_of, mbind, task_bind, engine, pix_save, write_text.
  simpl.
  destruct (fitz_open E pdf) as [e|?]; [done|].
  destruct (load_page E pdf page_num) as [e|]; [done|]. simpl.
  destruct (get_pixmap E pdf page_num dpi) as [e|img]; [done|]. simpl.
  destruct (image_to_string E img lang) as [e|text]; done.
Qed.

Lemma render_and_ocr_text_dir page_num st :
  is_Some (text_files st) →
  is_Some (text_files (render_and_ocr E pdf page_num dpi lang st).1.1).
Proof.
  intros [T HT]. destruct st as [P ? c]. simpl in HT. subst.
  unfold render_and_ocr, mbind, task_bind, engine, pix_save, write_text. simpl.
  destruct (fitz_open E pdf) as [e|?]; [by eexists|].
  destruct (load_page E pdf page_num) as [e|]; simpl; [by eexists|].
  destruct (get_pixmap E pdf page_num dpi) as [e|img]; simpl; [by eexists|].
  destruct P as [P|]; simpl; [|by eexists].
  destruct (image_to_string E img lang) as [e|text]; simpl; by eexists.
Qed.

(** A failed rendering leaves the render collection as it was. *)
Lemma attempt_png_none page_num :
  render_fails E pdf dpi page_num →
  attempt_png (attempt_of E pdf page_num dpi lang) = None.
Proof.
  unfold attempt_of. intros [[e He]|[[e He]|[e He]]].
  - by rewrite He.
  - rewrite He. by destruct (fitz_open E pdf).
  - rewrite He. destruct (fitz_open E pdf); [done|].
    by destruct (load_page E pdf page_num).
Qed.

Lemma attempt_calls_first page_num a :
  ∃ rest, attempt_calls pdf page_num a = FitzOpen pdf :: rest.
Proof. destruct a; by eexists. Qed.

End page_task.

(** ** Tasks on different pages do not interfere *)

Section pool.

Context (E : engines) (cfg : config).


Lemma foldl_perm_inv {A B} (f : A → B → A) (I : A → Prop) :
  (∀ a x, I a → I (f a x)) →
  (∀ a x y, I a → f (f a x) y = f (f a y) x) →
  ∀ l1 l2, l1 ≡ₚ l2 → ∀ a, I a → foldl f a l1 = foldl f a l2.
Proof.
  intros Hinv Hcomm l1 l2 Hperm.
  induction Hperm as [|x l1 l2 _ IH|x y l|l1 l2 l3 _ IH1 _ IH2]; intros a Ha; simpl.
  - done.
  - apply IH. by apply Hinv.
  - by rewrite Hcomm.
  - by rewrite IH1, IH2.
Qed.

Lemma Forall2_impl_elem {A B} (P Q : A → B → Prop) l k :
  Forall2 P l k → (∀ x y, x ∈ l → P x y → Q x y) → Forall2 Q l k.
Proof.
  induction 1 as [|x y l k HP _ IH]; intros HPQ; constructor.
  - apply HPQ; [left|done].
  - apply IH. intros ????. apply HPQ; [by right|done].
Qed.

Lemma task_store_cases P T c n :
  task_store E cfg (Store (Some P) (Some T) c) n
  = if page_complete (Store (Some P) (Some T) c) (n + 1)
    then Store (Some P) (Some T) c
    else attempt_store P T c (n + 1)
           (attempt_of E (pdf_path cfg) n (dpi cfg) (languages cfg)).
Proof.
  unfold task_store.
  destruct (page_complete _ _) eqn:Hc.
  - by rewrite process_page_task_skip.
  - by rewrite process_page_task_attempt.
Qed.

Lemma task_store_has_dirs st n : has_dirs st → has_dirs (task_store E cfg st n).
Proof.
  intros Hd. open_dirs st Hd P T c.
  rewrite task_store_cases. case_match; split; by eexists.
Qed.

Lemma task_store_combined st n :
  has_dirs st → combined_output (task_store E cfg st n) = combined_output st.
Proof.
  intros Hd. open_dirs st Hd P T c.
  rewrite task_store_cases. by case_match.
Qed.

(** Frame: a task leaves every entry but its own two as it was. *)
Lemma task_store_png_other st n name :
  has_dirs st → name ≠ png_name (n + 1) →
  read_file (png_images (task_store E cfg st n)) name = read_file (png_images st) name.
Proof.
  intros Hd Hne. open_dirs st Hd P T c.
  rewrite task_store_cases. case_match; [done|]. simpl.
  case_match; [|done]. by rewrite lookup_insert_ne.
Qed.

Lemma task_store_txt_other st n name :
  has_dirs st → name ≠ txt_name (n + 1) →
  read_file (text_files (task_store E cfg st n)) name = read_file (text_files st) name.
Proof.
  intros Hd Hne. open_dirs st Hd P T c.
  rewrite task_store_cases. case_match; [done|]. simpl.
  by rewrite lookup_insert_ne.
Qed.

Lemma file_exists_read d name : file_exists d name = bool_decide (is_Some (read_file d name)).
Proof. by destruct d. Qed.

Lemma page_complete_task_other st n m :
  has_dirs st → n ≠ m →
  page_complete (task_store E cfg st m) (n + 1) = page_complete st (n + 1).
Proof.
  intros Hd Hne. unfold page_complete. rewrite !file_exists_read.
  rewrite task_store_png_other, task_store_txt_other; try done.
  - intros ?%txt_name_inj. lia.
  - intros ?%png_name_inj. lia.
Qed.

Lemma task_store_skip st n :
  page_complete st (n + 1) = true → task_store E cfg st n = st.
Proof. intros H. unfold task_store. by rewrite process_page_task_skip. Qed.

Lemma task_store_attempt P T c n :
  page_complete (Store (Some P) (Some T) c) (n + 1) = false →
  task_store E cfg (Store (Some P) (Some T) c) n
  = attempt_store P T c (n + 1)
      (attempt_of E (pdf_path cfg) n (dpi cfg) (languages cfg)).
Proof. intros H. by rewrite task_store_cases, H. Qed.

Lemma task_store_comm st n m :
  has_dirs st →
  task_store E cfg (task_store E cfg st n) m
  = task_store E cfg (task_store E cfg st m) n.
Proof.
  intros Hd. destruct (decide (n = m)) as [->|Hne]; [done|].
  pose proof (page_complete_task_other st n m Hd Hne) as Hn.
  pose proof (page_complete_task_other st m n Hd (not_eq_sym Hne)) as Hm.
  assert (png_name (n + 1) ≠ png_name (m + 1)) by (intros ?%png_name_inj; lia).
  assert (txt_name (n + 1) ≠ txt_name (m + 1)) by (intros ?%txt_name_inj; lia).
  destruct (page_complete st (n + 1)) eqn:Hcn, (page_complete st (m + 1)) eqn:Hcm.
  - by rewrite (task_store_skip st n), (task_store_skip st m), (task_store_skip st n).
  - by rewrite (task_store_skip st n), (task_store_skip _ n).
  - by rewrite (task_store_skip st m), (task_store_skip _ m).
  - open_dirs st Hd P T c.
    rewrite (task_store_attempt P T c n) in * by done.
    rewrite (task_store_attempt P T c m) in * by done.
    unfold attempt_store in *.
    rewrite !task_store_attempt by done.
    unfold attempt_store. f_equal.
    + f_equal. repeat case_match; try done. by apply insert_insert_ne.
    + f_equal. by apply insert_insert_ne.
Qed.

(** ** A run of the pool *)

Lemma run_pool_snoc order n st :
  run_pool E cfg (order ++ [n]) st = run_task E cfg (run_pool E cfg order st) n.
Proof. unfold run_pool. apply foldl_snoc. Qed.

Lemma run_task_store p n :
  pool_store (run_task E cfg p n) = task_store E cfg (pool_store p) n.
Proof.
  unfold run_task, task_store.
  by destruct (process_page_task _ _ _ _ _ _) as [[??]?].
Qed.

Lemma run_pool_store order st :
  pool_store (run_pool E cfg order st) = foldl (task_store E cfg) st order.
Proof.
  induction order as [|n order IH] using rev_ind; [done|].
  by rewrite run_pool_snoc, run_task_store, IH, foldl_snoc.
Qed.

Lemma foldl_task_store_has_dirs order st :
  has_dirs st → has_dirs (foldl (task_store E cfg) st order).
Proof.
  revert st. induction order as [|n order IH]; intros st Hd; [done|].
  simpl. by apply IH, task_store_has_dirs.
Qed.

Lemma run_pool_has_dirs order st :
  has_dirs st → has_dirs (pool_store (run_pool E cfg order st)).
Proof. rewrite run_pool_store. apply foldl_task_store_has_dirs. Qed.

Lemma run_pool_combined order st :
  has_dirs st →
  combined_output (pool_store (run_pool E cfg order st)) = combined_output st.
Proof.
  rewrite run_pool_store. revert st.
  induction order as [|n order IH]; intros st Hd; [done|].
  simpl. rewrite IH by by apply task_store_has_dirs. by apply task_store_combined.
Qed.

(** The store a run leaves does not depend on the completion order. *)
Lemma run_pool_store_perm order1 order2 st :
  has_dirs st → order1 ≡ₚ order2 →
  pool_store (run_pool E cfg order1 st) = pool_store (run_pool E cfg order2 st).
Proof.
  intros Hd Hperm. rewrite !run_pool_store.
  apply (foldl_perm_inv _ has_dirs); try done.
  - intros. by apply task_store_has_dirs.
  - intros. by apply task_store_comm.
Qed.

(** ** What a task establishes for its page *)

Lemma attempt_png_render_fails n :
  attempt_png (attempt_of E (pdf_path cfg) n (dpi cfg) (languages cfg)) = None →
  render_fails E (pdf_path cfg) (dpi cfg) n.
Proof.
  unfold attempt_of, render_fails.
  destruct (fitz_open E (pdf_path cfg)) as [e|?]; [by left; exists e|].
  destruct (load_page E (pdf_path cfg) n) as [e|]; [by right; left; exists e|].
  destruct (get_pixmap E (pdf_path cfg) n (dpi cfg)) as [e|img];
    [by right; right; exists e|].
  by destruct (image_to_string E img (languages cfg)).
Qed.

Lemma startswith_sentinel s : PyStr.startswith SENTINEL (SENTINEL +:+ s) = true.
Proof. apply prefix_app. Qed.

Lemma page_complete_artifacts st i :
  page_complete st i = true →
  is_Some (render_artifact st i) ∧ is_Some (text_artifact st i).
Proof.
  unfold page_complete, render_artifact, text_artifact.
  rewrite !file_exists_read, andb_true_iff, !bool_decide_eq_true. done.
Qed.

Lemma task_settles st n :
  has_dirs st →
  ∃ o, (process_page_task E (pdf_path cfg) n (dpi cfg) (languages cfg) st).2 = o
       ∧ settled E cfg (task_store E cfg st n) n o.
Proof.
  intros Hd. eexists; split; [done|]. unfold task_store.
  destruct (page_complete st (n + 1)) eqn:Hc.
  - rewrite process_page_task_skip by done. simpl.
    destruct (page_complete_artifacts _ _ Hc).
    exists true, None. split_and!; auto. done.
  - open_dirs st Hd P T c. rewrite process_page_task_attempt by done.
    set (a := attempt_of _ _ _ _ _). simpl.
    assert (is_Some (text_artifact (attempt_store P T c (n + 1) a) (n + 1))).
    { unfold text_artifact. simpl. rewrite lookup_insert_eq. by eexists. }
    assert (is_Some (render_artifact (attempt_store P T c (n + 1) a) (n + 1))
            ∨ render_fails E (pdf_path cfg) (dpi cfg) n).
    { destruct (attempt_png a) as [img|] eqn:Hpng.
      - left. unfold render_artifact. simpl. rewrite Hpng, lookup_insert_eq. by eexists.
      - right. by apply attempt_png_render_fails. }
    unfold attempt_outcome.
    destruct (attempt_failure a) as [e|] eqn:Hf.
    + exists false, (Some (error_message e)). split_and!; auto; [done|].
      intros _. exists (SENTINEL +:+ error_message e). split.
      * unfold text_artifact. simpl. rewrite lookup_insert_eq.
        by destruct a; simplify_eq/=.
      * apply startswith_sentinel.
    + exists true, None. split_and!; auto. done.
Qed.

Lemma settled_frame st n m o :
  has_dirs st → n ≠ m →
  settled E cfg st n o → settled E cfg (task_store E cfg st m) n o.
Proof.
  intros Hd Hne (b & msg & -> & Hmsg & Hsent & Htxt & Hpng).
  assert (text_artifact (task_store E cfg st m) (n + 1) = text_artifact st (n + 1)) as Ht.
  { apply task_store_txt_other; [done|]. intros ?%txt_name_inj. lia. }
  assert (render_artifact (task_store E cfg st m) (n + 1) = render_artifact st (n + 1)) as Hp.
  { apply task_store_png_other; [done|]. intros ?%png_name_inj. lia. }
  exists b, msg. unfold sentinel_text. rewrite Ht, Hp. done.
Qed.

Lemma run_task_outcomes p n :
  pool_outcomes (run_task E cfg p n)
  = pool_outcomes p
    ++ [(process_page_task E (pdf_path cfg) n (dpi cfg) (languages cfg) (pool_store p)).2].
Proof.
  unfold run_task. by destruct (process_page_task _ _ _ _ _ _) as [[??]?].
Qed.

(** After a run every submitted page is settled, and the outcomes are
    those of the pages in completion order. *)
Lemma run_pool_settled order st :
  has_dirs st → NoDup order →
  Forall2 (settled E cfg (pool_store (run_pool E cfg order st)))
    order (pool_outcomes (run_pool E cfg order st)).
Proof.
  intros Hd. induction order as [|n order IH] using rev_ind; intros Hnd.
  { constructor. }
  apply NoDup_app in Hnd as (Hnd & Hnot & _).
  rewrite run_pool_snoc, run_task_outcomes, run_task_store.
  pose proof (run_pool_has_dirs order st Hd) as Hd'.
  apply Forall2_app.
  - eapply Forall2_impl_elem; [by apply IH|].
    intros m o Hm Hs. simpl in Hs. apply settled_frame; [done| |done].
    intros ->. by apply (Hnot n), list_elem_of_singleton.
  - constructor; [|constructor].
    by destruct (task_settles (pool_store (run_pool E cfg order st)) n Hd')
      as (o & <- & Ho).
Qed.

(** ** Outcomes and the tally *)

Lemma task_outcome_cases st n :
  has_dirs st →
  task_outcome E cfg st n
  = if page_complete st (n + 1) then Returned true (n + 1) None
    else attempt_outcome (n + 1)
           (attempt_of E (pdf_path cfg) n (dpi cfg) (languages cfg)).
Proof.
  intros Hd. unfold task_outcome. destruct (page_complete st (n + 1)) eqn:Hc.
  - by rewrite process_page_task_skip.
  - open_dirs st Hd P T c. by rewrite process_page_task_attempt.
Qed.

Lemma is_success_task_outcome st n :
  has_dirs st →
  is_success (task_outcome E cfg st n)
  = page_complete st (n + 1) || extraction_succeeds E cfg n.
Proof.
  intros Hd. rewrite task_outcome_cases by done.
  destruct (page_complete st (n + 1)); [done|]. simpl.
  unfold attempt_outcome, extraction_succeeds. by case_match.
Qed.

Lemma page_complete_foldl_other st order n :
  has_dirs st → n ∉ order →
  page_complete (foldl (task_store E cfg) st order) (n + 1) = page_complete st (n + 1).
Proof.
  revert st. induction order as [|m order IH]; intros st Hd Hn; [done|].
  apply not_elem_of_cons in Hn as [Hne Hn]. simpl.
  rewrite IH by (try apply task_store_has_dirs; done).
  by apply page_complete_task_other.
Qed.

(** Each page's outcome is the one its task has on the initial store. *)
Lemma run_pool_outcomes order st :
  has_dirs st → NoDup order →
  pool_outcomes (run_pool E cfg order st) = task_outcome E cfg st <$> order.
Proof.
  intros Hd. induction order as [|n order IH] using rev_ind; intros Hnd; [done|].
  apply NoDup_app in Hnd as (Hnd & Hnot & _).
  rewrite run_pool_snoc, run_task_outcomes, IH, fmap_app by done.
  f_equal. simpl. f_equal. fold (task_outcome E cfg (pool_store (run_pool E cfg order st)) n).
  pose proof (run_pool_has_dirs order st Hd) as Hd'.
  rewrite !task_outcome_cases by done.
  rewrite run_pool_store, page_complete_foldl_other; [done..|].
  intros Hn. by apply (Hnot n), list_elem_of_singleton.
Qed.

Lemma settled_counted st n o : settled E cfg st n o → counted o.
Proof.
  intros (b & msg & -> & Hmsg & _). destruct b; [|done]. by rewrite Hmsg.
Qed.

End pool.

Section tally.

Lemma count_app {A} (f : A → bool) l k : count f (l ++ k) = count f l + count f k.
Proof. unfold count. rewrite List.filter_app, length_app. lia. Qed.

Lemma count_nonneg {A} (f : A → bool) l : 0 ≤ count f l.
Proof. unfold count. lia. Qed.

Lemma count_success_failure l :
  count is_success l + count is_failure l = Z.of_nat (length l).
Proof.
  unfold count, is_failure. induction l as [|o l IH]; [done|]. simpl.
  destruct (is_success o); simpl; lia.
Qed.

Lemma count_fmap {A B} (f : B → bool) (g : A → B) l :
  count f (g <$> l) = count (λ x, f (g x)) l.
Proof.
  unfold count. induction l as [|x l IH]; [done|]. rewrite fmap_cons. simpl.
  destruct (f (g x)); simpl; lia.
Qed.

Lemma count_ext {A} (f g : A → bool) l :
  (∀ x, x ∈ l → f x = g x) → count f l = count g l.
Proof.
  unfold count. induction l as [|x l IH]; intros H; [done|]. simpl.
  rewrite (H x) by left. destruct (g x); simpl; rewrite Nat2Z.inj_iff in *;
    [f_equal|]; apply IH; intros; apply H; by right.
Qed.

Lemma count_perm {A} (f : A → bool) l k : l ≡ₚ k → count f l = count f k.
Proof.
  unfold count. induction 1 as [|x l k _ IH|x y l|l1 l2 l3 _ IH1 _ IH2]; simpl.
  - done.
  - destruct (f x); simpl; lia.
  - destruct (f x), (f y); simpl; lia.
  - lia.
Qed.

Lemma count_zero {A} (f : A → bool) l x : count f l = 0 → x ∈ l → f x = false.
Proof.
  unfold count. induction l as [|y l IH]; intros H Hx; [by apply elem_of_nil in Hx|].
  simpl in H. apply elem_of_cons in Hx as [->|Hx].
  - destruct (f y); [simpl in H; lia|done].
  - destruct (f y); [simpl in H; lia|]. by apply IH.
Qed.

(** The aggregator counts every success and every failure once. *)
Lemma aggregate_tally outcomes t :
  Forall counted outcomes →
  success_count (foldl aggregate t outcomes) = success_count t + count is_success outcomes
  ∧ failure_count (foldl aggregate t outcomes) = failure_count t + count is_failure outcomes.
Proof.
  intros Hall. revert t. induction Hall as [|o outcomes Ho _ IH]; intros t.
  { unfold count. simpl. lia. }
  simpl. destruct (IH (aggregate t o)) as [-> ->].
  change (o :: outcomes) with ([o] ++ outcomes). rewrite !count_app.
  unfold count, is_failure.
  destruct o as [[] idx [msg|]|e]; simpl in *; try done; lia.
Qed.

End tally.

(** ** The combiner *)

Section combiner.

(** Text read in text mode holds no carriage return. *)
Lemma translate_newlines_not_cr b s :
  sforall not_cr (PyStr.translate_newlines b s) = true.
Proof.
  revert b. induction s as [|c s IH]; intros b; [done|]. simpl.
  destruct (Ascii.eqb_spec c PyStr.CR) as [->|Hc]; [simpl; apply IH|].
  destruct (Ascii.eqb c PyStr.LF && b); [apply IH|]. simpl.
  rewrite IH, andb_true_r. unfold not_cr. by apply negb_true_iff, Ascii.eqb_neq.
Qed.

(** A text without carriage returns is read as it is. *)
Lemma universal_newlines_id s :
  sforall not_cr s = true → PyStr.universal_newlines s = s.
Proof.
  unfold PyStr.universal_newlines.
  induction s as [|c s IH]; [done|]. simpl. unfold not_cr at 1.
  intros [Hc Hs]%andb_true_iff. apply negb_true_iff in Hc. rewrite Hc, andb_false_r.
  by rewrite IH.
Qed.

(** The first characters of a text that has no carriage return before
    them are read as they are. *)
Lemma universal_newlines_app p s :
  sforall not_cr p = true →
  ∃ r, PyStr.universal_newlines (p +:+ s) = p +:+ r.
Proof.
  unfold PyStr.universal_newlines. intros Hp.
  induction p as [|c p IH]; [by eexists|].
  simpl in Hp. apply andb_true_iff in Hp as [Hc Hp].
  unfold not_cr in Hc. apply negb_true_iff in Hc.
  destruct (IH Hp) as [r Hr]. exists r.
  rewrite app_cons. simpl. by rewrite Hc, andb_false_r, Hr.
Qed.

(** Reading in text mode, one line end at a time: after characters
    without a carriage return, a carriage return and the line feed after
    it are read as one line feed, and so is a carriage return that no
    line feed follows. *)
Lemma universal_newlines_crlf p t :
  sforall not_cr p = true →
  PyStr.universal_newlines (p +:+ String PyStr.CR (String PyStr.LF t))
  = p +:+ String PyStr.LF (PyStr.universal_newlines t).
Proof.
  unfold PyStr.universal_newlines. intros Hp.
  induction p as [|c p IH]; [done|].
  simpl in Hp. apply andb_true_iff in Hp as [Hc Hp].
  unfold not_cr in Hc. apply negb_true_iff in Hc.
  rewrite !app_cons. simpl. by rewrite Hc, andb_false_r, IH.
Qed.

Lemma universal_newlines_cr p t :
  sforall not_cr p = true →
  (∀ r, t ≠ String PyStr.LF r) →
  PyStr.universal_newlines (p +:+ String PyStr.CR t)
  = p +:+ String PyStr.LF (PyStr.universal_newlines t).
Proof.
  unfold PyStr.universal_newlines. intros Hp Ht.
  induction p as [|c p IH].
  - simpl. f_equal. destruct t as [|c r]; [done|]. simpl.
    destruct (Ascii.eqb_spec c PyStr.CR); [done|].
    destruct (Ascii.eqb_spec c PyStr.LF) as [->|]; [by destruct (Ht r)|done].
  - simpl in Hp. apply andb_true_iff in Hp as [Hc Hp].
    unfold not_cr in Hc. apply negb_true_iff in Hc.
    rewrite !app_cons. simpl. by rewrite Hc, andb_false_r, IH.
Qed.

Lemma sentinel_fails_marker_check s : passes_marker_check (SENTINEL +:+ s) = false.
Proof.
  unfold passes_marker_check.
  destruct (universal_newlines_app SENTINEL s eq_refl) as [r ->]. reflexivity.
Qed.

Lemma sentinel_text_not_mergeable st i : sentinel_text st i → mergeable st i = false.
Proof.
  intros (content & Hc & Hp). unfold mergeable. rewrite Hc.
  apply prefix_inv in Hp as [r ->]. apply sentinel_fails_marker_check.
Qed.

Lemma mergeable_lacks_sentinel_prefix st i :
  mergeable st i = true → lacks_sentinel_prefix st i = true.
Proof.
  unfold mergeable, lacks_sentinel_prefix.
  destruct (text_artifact st i) as [content|] eqn:Hc; [|done].
  intros Hm. destruct (PyStr.startswith SENTINEL content) eqn:Hp; [|done].
  apply prefix_inv in Hp as [r ->]. by rewrite sentinel_fails_marker_check in Hm.
Qed.

Lemma select_files_filter st pages :
  select_files (text_files st) pages = txt_name <$> List.filter (mergeable st) pages.
Proof.
  induction pages as [|i pages IH]; [done|]. simpl.
  unfold mergeable, text_artifact.
  destruct (read_file (text_files st) (txt_name i)) as [content|]; [|done].
  destruct (passes_marker_check content); [|done]. by rewrite IH.
Qed.

Lemma write_pages_merged st pages written :
  Forall (λ i, mergeable st i = true) pages →
  write_pages (text_files st) (txt_name <$> pages) written
  = (written +:+ merged_text st pages, None).
Proof.
  intros Hall. revert written.
  induction Hall as [|i pages Hi _ IH]; intros written.
  - simpl. by rewrite app_empty_r.
  - rewrite fmap_cons. simpl. rewrite stem_txt_name, int_fmt04d.
    unfold mergeable, text_read, text_artifact in *.
    destruct (read_file (text_files st) (txt_name i)) as [content|]; [|done].
    rewrite IH. simpl. by rewrite !app_assoc_s.
Qed.

(** [combine_text_files] in closed form. *)
Lemma combine_text_files_eq st start_page end_page :
  combine_text_files st start_page end_page
  = match merged_pages st start_page end_page with
    | [] => (st, NothingToCombine)
    | pages =>
        (Store (png_images st) (text_files st) (Some (merged_text st pages)),
         Merged (length pages))
    end.
Proof.
  unfold combine_text_files, merged_pages. rewrite select_files_filter.
  set (pages := List.filter _ _).
  assert (Forall (λ i, mergeable st i = true) pages) as Hall.
  { apply List.Forall_forall. intros i Hi. by apply List.filter_In in Hi as [_ ?]. }
  rewrite write_pages_merged by done.
  destruct pages; [done|]. rewrite fmap_cons, app_empty_l. simpl. by rewrite length_fmap.
Qed.

Lemma StronglySorted_filter_lt (f : Z → bool) l :
  StronglySorted Z.lt l → StronglySorted Z.lt (List.filter f l).
Proof.
  induction 1 as [|x l _ IH Hx]; simpl; [constructor|].
  destruct (f x); [|done]. constructor; [done|].
  apply List.Forall_forall. intros y Hy. apply List.filter_In in Hy as [Hy _].
  by eapply List.Forall_forall in Hx.
Qed.

Lemma StronglySorted_seqZ m n : StronglySorted Z.lt (seqZ m n).
Proof.
  destruct (decide (0 ≤ n)) as [Hn|Hn]; [|rewrite seqZ_nil by lia; constructor].
  revert m. pattern n. apply natlike_ind; [| |done].
  - intros m. rewrite seqZ_nil by lia. constructor.
  - clear n Hn. intros n Hn IH m. rewrite seqZ_cons by lia.
    constructor; [replace (Z.pred (Z.succ n)) with n by lia; apply IH|].
    apply Forall_seqZ. lia.
Qed.

Lemma merged_pages_sorted st start_page end_page :
  StronglySorted Z.lt (merged_pages st start_page end_page).
Proof. apply StronglySorted_filter_lt, StronglySorted_seqZ. Qed.

Lemma elem_of_merged_pages st start_page end_page i :
  i ∈ merged_pages st start_page end_page
  ↔ start_page ≤ i ≤ end_page ∧ mergeable st i = true.
Proof.
  unfold merged_pages, py_range.
  rewrite list_elem_of_In, List.filter_In, <-list_elem_of_In, elem_of_seqZ.
  split; intros [? ?]; split; first [done | lia].
Qed.

End combiner.

(** ** The progress scanner *)

Section scanner.

Lemma scan_entry_spec (txt : dir) name n :
  scan_entry txt name = Some n
  ↔ ∃ digits, name = digits +:+ ".png" ∧ PyStr.isdigit digits = true
              ∧ is_Some (txt !! (digits +:+ ".txt")) ∧ PyStr.int digits = Some n.
Proof.
  unfold scan_entry. split.
  - destruct (String.eqb_spec (PyPath.suffix name) ".png") as [Hsuf|]; [|done].
    destruct (PyStr.isdigit (PyPath.stem name)) eqn:Hdig; [|done]. simpl.
    case_bool_decide as Htxt; [|done]. intros Hint.
    exists (PyPath.stem name). split_and!; try done.
    pose proof (stem_suffix name) as Hname. rewrite Hsuf in Hname. by apply Hname.
  - intros (digits & -> & Hdig & Htxt & Hint).
    assert (digits ≠ "") by (by destruct digits).
    change (digits +:+ ".png") with (digits +:+ String "." "png").
    rewrite suffix_app, stem_app by done. simpl. rewrite Hdig.
    by rewrite bool_decide_eq_true_2.
Qed.

Lemma elem_of_processed_pages (png txt : dir) n :
  n ∈ processed_pages png txt
  ↔ ∃ name, is_Some (png !! name) ∧ scan_entry txt name = Some n.
Proof.
  unfold processed_pages. rewrite elem_of_list_to_set, list_elem_of_omap.
  setoid_rewrite elem_of_elements. setoid_rewrite elem_of_dom. done.
Qed.

Lemma entry_complete_processed (png txt : dir) c n :
  entry_complete (Store (Some png) (Some txt) c) n ↔ n ∈ processed_pages png txt.
Proof.
  rewrite elem_of_processed_pages. setoid_rewrite scan_entry_spec. split.
  - intros (png' & txt' & digits & ? & ? & ? & ? & ? & ?). simplify_eq/=.
    exists (digits +:+ ".png"). split; [done|]. by exists digits.
  - intros (name & Hpng & digits & -> & ? & ? & ?).
    by exists png, txt, digits.
Qed.

Lemma foldl_max_spec (l : list Z) a :
  foldl Z.max a l ∈ a :: l ∧ ∀ x, x ∈ a :: l → x ≤ foldl Z.max a l.
Proof.
  revert a. induction l as [|y l IH]; intros a; simpl.
  - split; [left|]. intros x ?%list_elem_of_singleton. lia.
  - destruct (IH (Z.max a y)) as [Hin Hle]. split.
    + apply elem_of_cons in Hin as [Heq|Hin]; [|by do 2 right].
      rewrite Heq. destruct (Z.max_spec a y) as [[_ ->]|[_ ->]]; [right|]; left.
    + intros x Hx. 
      assert (Z.max a y ≤ foldl Z.max (Z.max a y) l) by (apply Hle; left).
      apply elem_of_cons in Hx as [->|Hx]; [lia|].
      apply elem_of_cons in Hx as [->|Hx]; [lia|].
      apply Hle. by right.
Qed.

Lemma py_max_spec (l : list Z) m :
  py_max l = Some m → m ∈ l ∧ ∀ x, x ∈ l → x ≤ m.
Proof.
  destruct l as [|a l]; [done|]. intros [= <-]. apply foldl_max_spec.
Qed.

(** The scanner returns the largest complete index, or 0. *)
Lemma get_last_processed_page_spec (png txt : dir) c :
  let st := Store (Some png) (Some txt) c in
  (processed_pages png txt = ∅ ∧ get_last_processed_page st = 0)
  ∨ (get_last_processed_page st ∈ processed_pages png txt
     ∧ ∀ n, n ∈ processed_pages png txt → n ≤ get_last_processed_page st).
Proof.
  simpl. unfold get_last_processed_page. simpl.
  case_decide as Hempty; [by left|right].
  destruct (elements (processed_pages png txt)) as [|a l] eqn:Hel.
  { by apply elements_empty_inv, leibniz_equiv in Hel. }
  destruct (py_max_spec (a :: l) _ eq_refl) as [Hin Hmax].
  simpl. rewrite <-Hel in Hin, Hmax. split.
  - by apply elem_of_elements.
  - intros n Hn. by apply Hmax, elem_of_elements.
Qed.

Lemma isdigit_fmt04d n : 0 ≤ n → PyStr.isdigit (PyStr.fmt04d n) = true.
Proof.
  intros Hn. unfold PyStr.fmt04d. rewrite (proj2 (Z.ltb_ge n 0)) by done.
  destruct (pretty_N_digits (Z.to_N n)) as (H1 & _ & H3).
  destruct (zero_pad_digits 4 _ H1 H3) as (H4 & _ & H6).
  destruct (PyStr.zero_pad 4 _); [done|]. by rewrite <-all_digits_sforall in H4.
Qed.

(** A page complete in the executor's addressing is complete for the
    scanner. *)
Lemma page_complete_entry_complete st n :
  0 ≤ n → page_complete st n = true → entry_complete st n.
Proof.
  intros Hn. unfold page_complete. rewrite andb_true_iff.
  destruct st as [[png|] [txt|] c]; simpl; try (intros [? ?]; done).
  rewrite !bool_decide_eq_true. intros [Hpng Htxt].
  exists png, txt, (PyStr.fmt04d n).
  split_and!; try done; [by apply isdigit_fmt04d|apply int_fmt04d].
Qed.

Lemma entry_complete_nonneg st n : entry_complete st n → 0 ≤ n.
Proof.
  intros (png & txt & digits & _ & _ & Hdig & _ & _ & Hint).
  rewrite int_isdigit in Hint by done. simplify_eq. lia.
Qed.

Lemma get_last_processed_page_cases st :
  get_last_processed_page st = 0
  ∨ (entry_complete st (get_last_processed_page st)
     ∧ ∀ n, entry_complete st n → n ≤ get_last_processed_page st).
Proof.
  destruct st as [[png|] [txt|] c]; try by left.
  destruct (get_last_processed_page_spec png txt c) as [[_ ?]|[Hin Hle]]; [by left|].
  right. split; [by apply entry_complete_processed|].
  intros n Hn. by apply Hle, entry_complete_processed with (c := c).
Qed.

Lemma get_last_processed_page_nonneg st : 0 ≤ get_last_processed_page st.
Proof.
  destruct (get_last_processed_page_cases st) as [->|[Hc _]]; [done|].
  by eapply entry_complete_nonneg.
Qed.

Lemma get_last_processed_page_ge st n :
  entry_complete st n → n ≤ get_last_processed_page st.
Proof.
  intros Hn. destruct (get_last_processed_page_cases st) as [H0|[_ Hle]]; [|by apply Hle].
  destruct st as [[png|] [txt|] c];
    try (destruct Hn as (? & ? & ? & ? & ? & _); by simplify_eq/=).
  destruct (get_last_processed_page_spec png txt c) as [[Hempty _]|[_ Hle]].
  - apply entry_complete_processed in Hn. rewrite Hempty in Hn.
    by apply not_elem_of_empty in Hn.
  - by apply Hle, entry_complete_processed with (c := c).
Qed.

End scanner.

(** ** A run of [process_pdf] *)

Section run.

Context (E : engines) (S : schedule) (cfg : config).

Lemma make_dirs_has_dirs st : has_dirs (make_dirs st).
Proof. destruct st as [[P|] [T|] c]; split; by eexists. Qed.

Lemma make_dirs_id st : has_dirs st → make_dirs st = st.
Proof.
  intros Hd. destruct st as [[P|] [T|] c]; try done;
    destruct Hd as [[? ?] [? ?]]; simplify_eq/=.
Qed.

Lemma make_dirs_text st i : text_artifact (make_dirs st) i = text_artifact st i.
Proof. unfold text_artifact. by destruct st as [? [T|] ?]. Qed.

Lemma make_dirs_render st i : render_artifact (make_dirs st) i = render_artifact st i.
Proof. unfold render_artifact. by destruct st as [[P|] ? ?]. Qed.

Lemma page_complete_alt st i :
  page_complete st i
  = bool_decide (is_Some (render_artifact st i)) && bool_decide (is_Some (text_artifact st i)).
Proof. unfold page_complete. by rewrite !file_exists_read. Qed.

Lemma make_dirs_complete st i : page_complete (make_dirs st) i = page_complete st i.
Proof. by rewrite !page_complete_alt, make_dirs_text, make_dirs_render. Qed.

Lemma submitted_perm : submitted S cfg ≡ₚ py_range (start_page cfg - 1) (end_page cfg).
Proof. apply completion_perm. Qed.

Lemma submitted_NoDup : NoDup (submitted S cfg).
Proof. rewrite submitted_perm. apply NoDup_seqZ. Qed.

Lemma elem_of_submitted n :
  n ∈ submitted S cfg ↔ start_page cfg ≤ n + 1 ≤ end_page cfg.
Proof. rewrite submitted_perm. unfold py_range. rewrite elem_of_seqZ. lia. Qed.

Lemma length_submitted :
  start_page cfg ≤ end_page cfg + 1 →
  Z.of_nat (length (submitted S cfg)) = end_page cfg - start_page cfg + 1.
Proof.
  intros H. rewrite submitted_perm. unfold py_range. rewrite length_seqZ. lia.
Qed.

(** [process_pdf] once the Tesseract check has passed. *)
Lemma process_pdf_found st :
  tesseract_found E = true →
  process_pdf E S cfg st
  = let p := drained E S cfg st in
    let t := foldl aggregate (Tally 0 0 []) (pool_outcomes p) in
    if 0 <? success_count t then
      Run (combine_text_files (pool_store p) (start_page cfg) (end_page cfg)).1
          (pool_calls p) (pool_outcomes p) (Some t)
          (Some (combine_text_files (pool_store p) (start_page cfg) (end_page cfg)).2)
    else Run (pool_store p) (pool_calls p) (pool_outcomes p) (Some t) None.
Proof.
  unfold tesseract_found, process_pdf, drained, submitted.
  destruct (get_tesseract_version E); try done. intros _. simpl.
  case_match; [|done]. by destruct (combine_text_files _ _ _).
Qed.

(** [process_pdf] when the Tesseract check does not pass: the executable
    is not found and the function returns, or the check raises. *)
Lemma process_pdf_not_found st :
  tesseract_found E = false →
  ∃ raised, process_pdf E S cfg st = Ran (make_dirs st) [] [] None None raised.
Proof.
  unfold tesseract_found, process_pdf.
  destruct (get_tesseract_version E); try done; intros _; by eexists.
Qed.

Lemma drained_has_dirs st : has_dirs (pool_store (drained E S cfg st)).
Proof. apply run_pool_has_dirs, make_dirs_has_dirs. Qed.

Lemma drained_settled st :
  Forall2 (settled E cfg (pool_store (drained E S cfg st)))
    (submitted S cfg) (pool_outcomes (drained E S cfg st)).
Proof. apply run_pool_settled; [apply make_dirs_has_dirs|apply submitted_NoDup]. Qed.

Lemma drained_outcomes st :
  pool_outcomes (drained E S cfg st)
  = task_outcome E cfg (make_dirs st) <$> submitted S cfg.
Proof. apply run_pool_outcomes; [apply make_dirs_has_dirs|apply submitted_NoDup]. Qed.

Lemma drained_counted st : Forall counted (pool_outcomes (drained E S cfg st)).
Proof.
  pose proof (drained_settled st) as H.
  induction H as [|n o ns os Hno _ IH]; constructor; [|done].
  by eapply settled_counted.
Qed.

(** The combiner touches only the combined artifact. *)
Lemma combine_text_files_frame st s e :
  png_images (combine_text_files st s e).1 = png_images st
  ∧ text_files (combine_text_files st s e).1 = text_files st.
Proof. rewrite combine_text_files_eq. by destruct (merged_pages st s e). Qed.

Lemma run_store_artifacts st i :
  tesseract_found E = true →
  text_artifact (run_store (process_pdf E S cfg st)) i
    = text_artifact (pool_store (drained E S cfg st)) i
  ∧ render_artifact (run_store (process_pdf E S cfg st)) i
    = render_artifact (pool_store (drained E S cfg st)) i.
Proof.
  intros Hf. rewrite process_pdf_found by done. simpl.
  unfold text_artifact, render_artifact.
  case_match; simpl; [|done].
  by destruct (combine_text_files_frame (pool_store (drained E S cfg st))
    (start_page cfg) (end_page cfg)) as [-> ->].
Qed.

Lemma run_tally_found st :
  tesseract_found E = true →
  run_tally (process_pdf E S cfg st)
    = Some (foldl aggregate (Tally 0 0 []) (pool_outcomes (drained E S cfg st)))
  ∧ run_outcomes (process_pdf E S cfg st) = pool_outcomes (drained E S cfg st)
  ∧ run_calls (process_pdf E S cfg st) = pool_calls (drained E S cfg st).
Proof. intros Hf. rewrite process_pdf_found by done. simpl. by case_match. Qed.

(** ** Runs over complete pages, and the combiner after a run *)

Lemma run_pool_all_complete order st :
  (∀ n, n ∈ order → page_complete st (n + 1) = true) →
  run_pool E cfg order st
  = Pool st [] ((λ n, Returned true (n + 1) None) <$> order).
Proof.
  induction order as [|n order IH] using rev_ind; intros Hall; [done|].
  rewrite run_pool_snoc, IH by (intros; apply Hall, elem_of_app; by left).
  unfold run_task. simpl. rewrite process_page_task_skip
    by (apply Hall, elem_of_app; right; by apply list_elem_of_singleton).
  by rewrite fmap_app.
Qed.

Lemma mergeable_text_files st st' i :
  text_files st = text_files st' → mergeable st i = mergeable st' i.
Proof. unfold mergeable, text_artifact. by intros ->. Qed.

Lemma merged_pages_text_files st st' s e :
  text_files st = text_files st' → merged_pages st s e = merged_pages st' s e.
Proof.
  intros H. unfold merged_pages. apply List.filter_ext.
  intros i. by apply mergeable_text_files.
Qed.

Lemma merged_text_text_files st st' pages :
  text_files st = text_files st' → merged_text st pages = merged_text st' pages.
Proof.
  intros H. induction pages as [|i pages IH]; [done|]. simpl.
  unfold text_read, text_artifact. by rewrite H, IH.
Qed.

(** Merging twice writes what merging once wrote. *)
Lemma combine_text_files_idem st s e :
  combine_text_files (combine_text_files st s e).1 s e = combine_text_files st s e.
Proof.
  destruct (combine_text_files_frame st s e) as [Hpng Htxt].
  pose proof (combine_text_files_eq st s e) as Heq.
  destruct (combine_text_files st s e) as [st' r]. simpl in *.
  rewrite combine_text_files_eq, (merged_pages_text_files st' st) by done.
  destruct (merged_pages st s e) as [|i pages]; [by simplify_eq|].
  cbv zeta. rewrite (merged_text_text_files st' st), Hpng, Htxt by done.
  by simplify_eq.
Qed.

(** After a run that got past the Tesseract check the combiner has
    nothing to change. *)
Lemma combine_after_run st :
  tesseract_found E = true →
  (combine_text_files (run_store (process_pdf E S cfg st))
     (start_page cfg) (end_page cfg)).1
  = run_store (process_pdf E S cfg st).
Proof.
  intros Hf. rewrite process_pdf_found by done. simpl.
  destruct (aggregate_tally _ (Tally 0 0 []) (drained_counted st)) as [Hs _].
  case_match eqn:Hpos; simpl.
  - by rewrite combine_text_files_idem.
  - apply Z.ltb_ge in Hpos. rewrite Hs in Hpos. simpl in Hpos.
    pose proof (count_nonneg is_success (pool_outcomes (drained E S cfg st))).
    assert (merged_pages (pool_store (drained E S cfg st)) (start_page cfg) (end_page cfg) = [])
      as Hnone; [|by rewrite combine_text_files_eq, Hnone].
    destruct (merged_pages _ _ _) as [|i pages] eqn:Hpages; [done|exfalso].
    assert (i ∈ merged_pages (pool_store (drained E S cfg st)) (start_page cfg) (end_page cfg))
      as Hi by (rewrite Hpages; left).
    apply elem_of_merged_pages in Hi as [Hi Hm].
    assert (i - 1 ∈ submitted S cfg) as Hin by (apply elem_of_submitted; lia).
    apply list_elem_of_lookup in Hin as [k Hk].
    destruct (Forall2_lookup_l _ _ _ _ _ (drained_settled st) Hk)
      as (o & Ho & (b & msg & -> & _ & Hsent & _)).
    replace (i - 1 + 1) with i in * by lia.
    assert (is_success (Returned b i msg) = false) as Hb.
    { apply (count_zero is_success (pool_outcomes (drained E S cfg st))); [lia|].
      by eapply list_elem_of_lookup_2. }
    destruct b; [done|].
    by rewrite sentinel_text_not_mergeable in Hm by auto.
Qed.

(** A second run over a range whose pages are all complete. *)
Lemma process_pdf_all_complete st :
  has_dirs st →
  (∀ i, start_page cfg ≤ i ≤ end_page cfg → page_complete st i = true) →
  run_calls (process_pdf E S cfg st) = []
  ∧ (run_store (process_pdf E S cfg st) = st
     ∨ run_store (process_pdf E S cfg st)
       = (combine_text_files st (start_page cfg) (end_page cfg)).1).
Proof.
  intros Hd Hall. destruct (tesseract_found E) eqn:Hf.
  - rewrite process_pdf_found by done. unfold drained.
    rewrite make_dirs_id, run_pool_all_complete by
      (try done; intros n Hn; apply Hall, elem_of_submitted, Hn).
    simpl. case_match; simpl; auto.
  - destruct (process_pdf_not_found st Hf) as [raised ->].
    rewrite make_dirs_id by done. auto.
Qed.

End run.

(** ** Setup and exit status *)

Section setup.

Context (E : engines) (S : schedule) (args : arguments).

(** A missing source file: exit status 1, nothing is run. *)
Lemma setup_missing_pdf inputs st :
  setup_and_run E S args false inputs st = (1, None).
Proof. done. Qed.

(** An unreadable document: exit status 1, nothing is run. *)
Lemma setup_unreadable_pdf e inputs st :
  fitz_open E (arg_pdf_path args) = inl e →
  setup_and_run E S args true inputs st = (1, None).
Proof. intros He. unfold setup_and_run. by rewrite He. Qed.

(** The user quits at the first prompt: exit status 0, nothing is run. *)
Lemma setup_quit total_pages rest st :
  fitz_open E (arg_pdf_path args) = inr total_pages →
  setup_and_run E S args true ("q" :: rest) st = (0, None).
Proof. intros He. unfold setup_and_run. by rewrite He. Qed.

(** Whenever [process_pdf] is started and returns, the script runs to
    its end and the exit status is 0, also when [process_pdf] returned at
    its Tesseract check; when an exception escapes it the status is 1. *)
Lemma setup_run_exit_status pdf_exists inputs st r :
  (setup_and_run E S args pdf_exists inputs st).2 = Some r →
  (setup_and_run E S args pdf_exists inputs st).1
  = match run_raised r with Some _ => 1 | None => 0 end.
Proof.
  unfold setup_and_run. destruct pdf_exists; [|done]. simpl.
  destruct (fitz_open E (arg_pdf_path args)); [done|].
  destruct (menu _ _ _); [done|]. simpl. by intros [= <-].
Qed.

(** An exception escapes [process_pdf] exactly when the version check
    of Tesseract raises something other than [TesseractNotFoundError];
    the directories are made then, and nothing else happens. *)
Lemma process_pdf_raised cfg st :
  run_raised (process_pdf E S cfg st)
  = match get_tesseract_version E with
    | TesseractRaises e => Some e
    | _ => None
    end.
Proof.
  unfold process_pdf. destruct (get_tesseract_version E) as [| |e]; [|done..].
  simpl. case_match; [|done]. by destruct (combine_text_files _ _ _).
Qed.

Lemma process_pdf_check_raises cfg st e :
  get_tesseract_version E = TesseractRaises e →
  process_pdf E S cfg st = Ran (make_dirs st) [] [] None None (Some e).
Proof. intros He. unfold process_pdf. by rewrite He. Qed.

(** Without Tesseract no page is processed. *)
Lemma setup_no_tesseract pdf_exists inputs st r :
  tesseract_found E = false →
  (setup_and_run E S args pdf_exists inputs st).2 = Some r →
  run_calls r = [] ∧ run_outcomes r = [] ∧ run_tally r = None
  ∧ run_store r = make_dirs st.
Proof.
  intros Hf. unfold setup_and_run. destruct pdf_exists; [|done]. simpl.
  destruct (fitz_open E (arg_pdf_path args)); [done|].
  destruct (menu _ _ _) as [|s e]; [done|]. simpl. intros [= <-].
  by destruct (process_pdf_not_found E S
                 (Config (arg_pdf_path args) s e (arg_dpi args) (arg_lang args)) st Hf)
    as [raised ->].
Qed.

(** The menu leaves with status 0 or 1 only. *)
Lemma menu_exit_codes last_page total_pages inputs code :
  menu last_page total_pages inputs = MenuExit code → code = 0 ∨ code = 1.
Proof.
  remember (length inputs) as k eqn:Hk. revert inputs Hk.
  induction k as [k IH] using lt_wf_ind. intros inputs Hk.
  destruct inputs as [|line rest]; simpl; [intros [= <-]; by right|].
  assert (∀ l, (length l < k)%nat →
            menu last_page total_pages l = MenuExit code → code = 0 ∨ code = 1) as IH'.
  { intros l Hl. by apply (IH (length l)). }
  simpl in Hk.
  repeat case_match; simplify_eq/=; try (intros [= <-]; by auto); try done;
    apply IH'; simpl; lia.
Qed.

End setup.

(** ** What a run leaves of each entry and of each page *)

Section frame_lemmas.

Context (E : engines) (S : schedule) (cfg : config).

Lemma foldl_task_store_png_other order st name :
  has_dirs st → (∀ n, n ∈ order → name ≠ png_name (n + 1)) →
  read_file (png_images (foldl (task_store E cfg) st order)) name
  = read_file (png_images st) name.
Proof.
  revert st. induction order as [|m order IH]; intros st Hd Hne; [done|].
  simpl. rewrite IH.
  - apply task_store_png_other; [done|]. apply Hne. left.
  - by apply task_store_has_dirs.
  - intros n Hn. apply Hne. by right.
Qed.

Lemma foldl_task_store_txt_other order st name :
  has_dirs st → (∀ n, n ∈ order → name ≠ txt_name (n + 1)) →
  read_file (text_files (foldl (task_store E cfg) st order)) name
  = read_file (text_files st) name.
Proof.
  revert st. induction order as [|m order IH]; intros st Hd Hne; [done|].
  simpl. rewrite IH.
  - apply task_store_txt_other; [done|]. apply Hne. left.
  - by apply task_store_has_dirs.
  - intros n Hn. apply Hne. by right.
Qed.

Lemma task_store_keeps st n name :
  has_dirs st →
  (is_Some (read_file (png_images st) name) →
   is_Some (read_file (png_images (task_store E cfg st n)) name))
  ∧ (is_Some (read_file (text_files st) name) →
     is_Some (read_file (text_files (task_store E cfg st n)) name)).
Proof.
  intros Hd. open_dirs st Hd P T c. rewrite task_store_cases.
  case_match; [done|]. simpl. split.
  - case_match; [|done]. rewrite lookup_insert_is_Some. intros.
    destruct (decide (png_name (n + 1) = name)); auto.
  - rewrite lookup_insert_is_Some. intros.
    destruct (decide (txt_name (n + 1) = name)); auto.
Qed.

Lemma foldl_task_store_keeps order st name :
  has_dirs st →
  (is_Some (read_file (png_images st) name) →
   is_Some (read_file (png_images (foldl (task_store E cfg) st order)) name))
  ∧ (is_Some (read_file (text_files st) name) →
     is_Some (read_file (text_files (foldl (task_store E cfg) st order)) name)).
Proof.
  revert st. induction order as [|m order IH]; intros st Hd; [done|].
  simpl. destruct (task_store_keeps st m name Hd) as [H1 H2].
  destruct (IH _ (task_store_has_dirs E cfg st m Hd)) as [H3 H4]. auto.
Qed.

Lemma make_dirs_read st name :
  read_file (png_images (make_dirs st)) name = read_file (png_images st) name
  ∧ read_file (text_files (make_dirs st)) name = read_file (text_files st) name.
Proof. by destruct st as [[P|] [T|] c]. Qed.

(** The two collections after a [process_pdf] that passed its check. *)
Lemma run_store_found st :
  tesseract_found E = true →
  png_images (run_store (process_pdf E S cfg st))
    = png_images (foldl (task_store E cfg) (make_dirs st) (submitted S cfg))
  ∧ text_files (run_store (process_pdf E S cfg st))
    = text_files (foldl (task_store E cfg) (make_dirs st) (submitted S cfg))
  ∧ (is_Some (combined_output st) →
     is_Some (combined_output (run_store (process_pdf E S cfg st)))).
Proof.
  intros Hf. rewrite process_pdf_found by done. simpl.
  assert (combined_output (pool_store (drained E S cfg st)) = combined_output st)
    as Hc by (unfold drained; by rewrite run_pool_combined by apply make_dirs_has_dirs).
  unfold drained in *. rewrite <-run_pool_store.
  case_match; simpl; [|by rewrite Hc].
  destruct (combine_text_files_frame
    (pool_store (run_pool E cfg (submitted S cfg) (make_dirs st)))
    (start_page cfg) (end_page cfg)) as [-> ->].
  split_and!; try done. rewrite combine_text_files_eq.
  case_match; simpl; [by rewrite Hc|by eexists].
Qed.

Lemma run_store_keeps st name :
  (is_Some (read_file (png_images st) name) →
   is_Some (read_file (png_images (run_store (process_pdf E S cfg st))) name))
  ∧ (is_Some (read_file (text_files st) name) →
     is_Some (read_file (text_files (run_store (process_pdf E S cfg st))) name)).
Proof.
  destruct (make_dirs_read st name) as [Hp Ht].
  destruct (tesseract_found E) eqn:Hf.
  - destruct (run_store_found st Hf) as (-> & -> & _).
    destruct (foldl_task_store_keeps (submitted S cfg) _ name (make_dirs_has_dirs st))
      as [Hk1 Hk2].
    by rewrite Hp, Ht in *.
  - destruct (process_pdf_not_found E S cfg st Hf) as [raised ->].
    change (run_store (Ran (make_dirs st) [] [] None None raised)) with (make_dirs st).
    by rewrite Hp, Ht.
Qed.

Lemma run_store_other st name :
  ((∀ i, start_page cfg ≤ i ≤ end_page cfg → name ≠ png_name i) →
   read_file (png_images (run_store (process_pdf E S cfg st))) name
   = read_file (png_images st) name)
  ∧ ((∀ i, start_page cfg ≤ i ≤ end_page cfg → name ≠ txt_name i) →
     read_file (text_files (run_store (process_pdf E S cfg st))) name
     = read_file (text_files st) name).
Proof.
  destruct (make_dirs_read st name) as [Hp Ht].
  destruct (tesseract_found E) eqn:Hf.
  - destruct (run_store_found st Hf) as (-> & -> & _).
    pose proof (make_dirs_has_dirs st) as Hd. split.
    + intros Hne. rewrite foldl_task_store_png_other, Hp; [done..|].
      intros n Hn. apply Hne. by apply (elem_of_submitted S cfg).
    + intros Hne. rewrite foldl_task_store_txt_other, Ht; [done..|].
      intros n Hn. apply Hne. by apply (elem_of_submitted S cfg).
  - destruct (process_pdf_not_found E S cfg st Hf) as [raised ->].
    change (run_store (Ran (make_dirs st) [] [] None None raised)) with (make_dirs st).
    by rewrite Hp, Ht.
Qed.

End frame_lemmas.

Section page_lemmas.

Context (cfg : config).

(** What a task makes of its own page depends on the two entries of that
    page and on the oracles for it only. *)
Lemma task_store_own E1 E2 st1 st2 n :
  has_dirs st1 → has_dirs st2 →
  text_artifact st1 (n + 1) = text_artifact st2 (n + 1) →
  render_artifact st1 (n + 1) = render_artifact st2 (n + 1) →
  attempt_of E1 (pdf_path cfg) n (dpi cfg) (languages cfg)
    = attempt_of E2 (pdf_path cfg) n (dpi cfg) (languages cfg) →
  text_artifact (task_store E1 cfg st1 n) (n + 1)
    = text_artifact (task_store E2 cfg st2 n) (n + 1)
  ∧ render_artifact (task_store E1 cfg st1 n) (n + 1)
    = render_artifact (task_store E2 cfg st2 n) (n + 1).
Proof.
  intros Hd1 Hd2 Ht Hp Ha.
  assert (page_complete st1 (n + 1) = page_complete st2 (n + 1)) as Hc
    by (by rewrite !page_complete_alt, Ht, Hp).
  open_dirs st1 Hd1 P1 T1 c1. open_dirs st2 Hd2 P2 T2 c2.
  rewrite !task_store_cases, Hc, Ha. case_match; [done|].
  unfold text_artifact, render_artifact, attempt_store in *. simpl in *.
  rewrite !lookup_insert_eq. split; [done|].
  case_match; [by rewrite !lookup_insert_eq|done].
Qed.

(** After all tasks of a duplicate-free list, a page of the list is as
    its own task leaves it on the initial store. *)
Lemma foldl_task_store_page E order st n :
  has_dirs st → NoDup order → n ∈ order →
  text_artifact (foldl (task_store E cfg) st order) (n + 1)
    = text_artifact (task_store E cfg st n) (n + 1)
  ∧ render_artifact (foldl (task_store E cfg) st order) (n + 1)
    = render_artifact (task_store E cfg st n) (n + 1).
Proof.
  intros Hd. induction order as [|m order IH] using rev_ind; intros Hnd Hin.
  { by apply elem_of_nil in Hin. }
  apply NoDup_app in Hnd as (Hnd & Hnot & _). rewrite foldl_snoc.
  pose proof (foldl_task_store_has_dirs E cfg order st Hd) as Hd'.
  destruct (decide (n = m)) as [->|Hne].
  - assert (m ∉ order) as Hm
      by (intros Hm; by apply (Hnot m), list_elem_of_singleton).
    apply task_store_own; try done.
    + apply foldl_task_store_txt_other; [done|].
      intros k Hk ?%txt_name_inj. assert (k = m) as -> by lia. done.
    + apply foldl_task_store_png_other; [done|].
      intros k Hk ?%png_name_inj. assert (k = m) as -> by lia. done.
  - apply elem_of_app in Hin as [Hin|Hin];
      [|apply list_elem_of_singleton in Hin; done].
    destruct (IH Hnd Hin) as [<- <-]. unfold text_artifact, render_artifact. split.
    + apply task_store_txt_other; [done|]. intros ?%txt_name_inj. lia.
    + apply task_store_png_other; [done|]. intros ?%png_name_inj. lia.
Qed.

Lemma run_store_page E S st i :
  tesseract_found E = true →
  start_page cfg ≤ i ≤ end_page cfg →
  text_artifact (run_store (process_pdf E S cfg st)) i
    = text_artifact (task_store E cfg (make_dirs st) (i - 1)) i
  ∧ render_artifact (run_store (process_pdf E S cfg st)) i
    = render_artifact (task_store E cfg (make_dirs st) (i - 1)) i.
Proof.
  intros Hf Hi. unfold text_artifact, render_artifact.
  destruct (run_store_found E S cfg st Hf) as (-> & -> & _).
  destruct (foldl_task_store_page E (submitted S cfg) (make_dirs st) (i - 1))
    as [Ht Hp]; [apply make_dirs_has_dirs|apply submitted_NoDup| |].
  { apply elem_of_submitted. lia. }
  replace (i - 1 + 1) with i in * by lia. done.
Qed.

(** A page of the range after a run that passed the Tesseract check: as
    it was when it was complete, and otherwise as the attempt on it
    leaves it. *)
Lemma run_store_page_cases E S st i :
  tesseract_found E = true →
  start_page cfg ≤ i ≤ end_page cfg →
  (page_complete st i = true →
   text_artifact (run_store (process_pdf E S cfg st)) i = text_artifact st i
   ∧ render_artifact (run_store (process_pdf E S cfg st)) i = render_artifact st i)
  ∧ (page_complete st i = false →
     text_artifact (run_store (process_pdf E S cfg st)) i
     = Some (attempt_text (attempt_of E (pdf_path cfg) (i - 1) (dpi cfg) (languages cfg)))
     ∧ render_artifact (run_store (process_pdf E S cfg st)) i
       = match attempt_png (attempt_of E (pdf_path cfg) (i - 1) (dpi cfg) (languages cfg)) with
         | Some img => Some img
         | None => render_artifact st i
         end).
Proof.
  intros Hf Hi. destruct (run_store_page E S st i Hf Hi) as [-> ->].
  rewrite <-(make_dirs_complete st i), <-(make_dirs_text st i), <-(make_dirs_render st i).
  pose proof (make_dirs_has_dirs st) as Hd. revert Hd.
  generalize (make_dirs st). intros st0 Hd.
  clear Hi. remember (i - 1) as n eqn:Hn. assert (i = n + 1) as -> by lia. clear Hn.
  split; intros Hc.
  - by rewrite task_store_skip.
  - open_dirs st0 Hd P T c. rewrite task_store_attempt by done.
    unfold text_artifact, render_artifact, attempt_store. simpl.
    rewrite lookup_insert_eq. split; [done|].
    case_match; [by rewrite lookup_insert_eq|done].
Qed.

End page_lemmas.

(** * The claims *)

Section claims.

Lemma py_range_shift lo hi : py_range lo (hi + 1) = (λ n, n + 1) <$> py_range (lo - 1) hi.
Proof.
  unfold py_range. replace (hi + 1 - lo) with (hi - (lo - 1)) by lia.
  replace lo with (1 + (lo - 1)) at 1 by lia.
  rewrite <-fmap_add_seqZ.
  apply list_fmap_ext. intros _ n _. lia.
Qed.

Lemma outcome_index_task E cfg st n :
  has_dirs st → outcome_index (task_outcome E cfg st n) = Some (n + 1).
Proof.
  intros Hd. rewrite task_outcome_cases by done.
  destruct (page_complete st (n + 1)); [done|].
  unfold attempt_outcome. by case_match.
Qed.

Lemma omap_outcome_index E cfg st (order : list Z) :
  has_dirs st →
  omap outcome_index (task_outcome E cfg st <$> order) = (λ n, n + 1) <$> order.
Proof.
  intros Hd. induction order as [|n order IH]; [done|].
  csimpl. rewrite outcome_index_task by done. csimpl. by rewrite IH.
Qed.

(** C8. Run accounting: when the Tesseract check passes, a run over
    [start_page..end_page] collects exactly one returned result per page
    index of the range (the indices of the collected outcomes are a
    permutation of the range and no outcome is an escaped exception),
    the two counters add up to [end_page - start_page + 1], and
    [success_count] counts every page that was already complete and
    skipped as well as every page whose extraction went through. *)
Theorem run_accounting E S cfg st :
  tesseract_found E = true →
  start_page cfg ≤ end_page cfg + 1 →
  ∃ t, run_tally (process_pdf E S cfg st) = Some t
    ∧ omap outcome_index (run_outcomes (process_pdf E S cfg st))
        ≡ₚ py_range (start_page cfg) (end_page cfg + 1)
    ∧ Forall (λ o, is_Some (outcome_index o)) (run_outcomes (process_pdf E S cfg st))
    ∧ success_count t + failure_count t = end_page cfg - start_page cfg + 1
    ∧ success_count t
      = count (λ i, page_complete st i || extraction_succeeds E cfg (i - 1))
          (py_range (start_page cfg) (end_page cfg + 1)).
Proof.
  intros Hf Hrange.
  destruct (run_tally_found E S cfg st Hf) as (-> & -> & _).
  eexists; split; [done|].
  pose proof (make_dirs_has_dirs st) as Hd.
  destruct (aggregate_tally _ (Tally 0 0 []) (drained_counted E S cfg st)) as [Hs Hfail].
  rewrite Hs, Hfail. simpl. rewrite drained_outcomes.
  split_and!.
  - rewrite omap_outcome_index by done. rewrite py_range_shift.
    apply fmap_Permutation, submitted_perm.
  - apply Forall_fmap, Forall_forall. intros n _. simpl.
    rewrite outcome_index_task by done. by eexists.
  - pose proof (count_success_failure (task_outcome E cfg (make_dirs st) <$> submitted S cfg)) as Hc.
    rewrite length_fmap, length_submitted in Hc by done. lia.
  - rewrite count_fmap, (count_perm _ _ _ (submitted_perm S cfg)).
    rewrite py_range_shift, count_fmap. apply count_ext. intros n _.
    rewrite is_success_task_outcome, make_dirs_complete by done.
    by replace (n + 1 - 1) with n by lia.
Qed.

(** C5. Completeness: when the Tesseract check passes, after a run every
    page index of the range has a text artifact, and the run decides
    which: a page that was complete before keeps both artifacts; a page
    whose opening, loading, rendering and recognition all go through has
    the stripped recognised text as its text artifact and the rendered
    image as its render artifact; a page whose attempt fails has the
    sentinel "OCR FAILED FOR THIS PAGE: " followed by
    "OCR failed: {kind}: {detail}" of the first error, a sentinel text.
    Read by its beginning the text is a real text or a sentinel text,
    never both; and the page has a render artifact unless rendering
    failed for it before [pix.save], in which case the render collection
    is left as it was for that page. *)
Theorem completeness E S cfg st i :
  tesseract_found E = true →
  start_page cfg ≤ i ≤ end_page cfg →
  (real_text (run_store (process_pdf E S cfg st)) i
   ∨ sentinel_text (run_store (process_pdf E S cfg st)) i)
  ∧ ¬ (real_text (run_store (process_pdf E S cfg st)) i
       ∧ sentinel_text (run_store (process_pdf E S cfg st)) i)
  ∧ (is_Some (render_artifact (run_store (process_pdf E S cfg st)) i)
     ∨ render_fails E (pdf_path cfg) (dpi cfg) (i - 1))
  ∧ (page_complete st i = true →
     text_artifact (run_store (process_pdf E S cfg st)) i = text_artifact st i
     ∧ render_artifact (run_store (process_pdf E S cfg st)) i = render_artifact st i)
  ∧ (page_complete st i = false →
     (∀ pages img text,
        fitz_open E (pdf_path cfg) = inr pages →
        load_page E (pdf_path cfg) (i - 1) = None →
        get_pixmap E (pdf_path cfg) (i - 1) (dpi cfg) = inr img →
        image_to_string E img (languages cfg) = inr text →
        text_artifact (run_store (process_pdf E S cfg st)) i = Some (PyStr.strip text)
        ∧ render_artifact (run_store (process_pdf E S cfg st)) i = Some img)
     ∧ (∀ e,
          attempt_failure (attempt_of E (pdf_path cfg) (i - 1) (dpi cfg) (languages cfg))
          = Some e →
          text_artifact (run_store (process_pdf E S cfg st)) i
          = Some ("OCR FAILED FOR THIS PAGE: "
                  +:+ ("OCR failed: " +:+ exn_kind e +:+ ": " +:+ exn_detail e))
          ∧ sentinel_text (run_store (process_pdf E S cfg st)) i
          ∧ (render_fails E (pdf_path cfg) (dpi cfg) (i - 1) →
             render_artifact (run_store (process_pdf E S cfg st)) i
             = render_artifact st i))).
Proof.
  intros Hf Hi.
  destruct (run_store_page_cases cfg E S st i Hf Hi) as [Hkept Hnew].
  assert (is_Some (text_artifact (run_store (process_pdf E S cfg st)) i)
          ∧ (is_Some (render_artifact (run_store (process_pdf E S cfg st)) i)
             ∨ render_fails E (pdf_path cfg) (dpi cfg) (i - 1))) as [[content Hc] Hpng].
  { destruct (run_store_artifacts E S cfg st i Hf) as [-> ->].
    assert (i - 1 ∈ submitted S cfg) as Hin by (apply elem_of_submitted; lia).
    apply list_elem_of_lookup in Hin as [k Hk].
    destruct (Forall2_lookup_l _ _ _ _ _ (drained_settled E S cfg st) Hk)
      as (o & _ & (b & msg & _ & _ & _ & Htxt & Hpng)).
    by replace (i - 1 + 1) with i in * by lia. }
  split_and!; [| |done|done|].
  - unfold real_text, sentinel_text. rewrite Hc.
    destruct (PyStr.startswith SENTINEL content) eqn:Hp; [right|left]; by exists content.
  - unfold real_text, sentinel_text. rewrite Hc.
    intros [(c1 & ? & ?) (c2 & ? & ?)]. congruence.
  - intros Hincomplete. destruct (Hnew Hincomplete) as [Htext Hrender]. split.
    + intros pages img text Hopen Hload Hpix Hocr.
      rewrite Htext, Hrender. unfold attempt_of.
      by rewrite Hopen, Hload, Hpix, Hocr.
    + intros e He.
      assert (attempt_text (attempt_of E (pdf_path cfg) (i - 1) (dpi cfg) (languages cfg))
              = SENTINEL +:+ error_message e) as Hsent.
      { destruct (attempt_of _ _ _ _ _); simpl in He; by simplify_eq. }
      rewrite Htext, Hsent. split_and!; [done| |].
      * exists (SENTINEL +:+ error_message e). split; [|apply startswith_sentinel].
        by rewrite Htext, Hsent.
      * intros Hfail. rewrite Hrender.
        by rewrite (attempt_png_none E (pdf_path cfg) (dpi cfg) (languages cfg) (i - 1) Hfail).
Qed.

Lemma run_store_has_dirs E S cfg st : has_dirs (run_store (process_pdf E S cfg st)).
Proof.
  destruct (tesseract_found E) eqn:Hf.
  - rewrite process_pdf_found by done. simpl.
    pose proof (drained_has_dirs E S cfg st) as Hd.
    case_match; simpl; [|done]. unfold has_dirs.
    by destruct (combine_text_files_frame (pool_store (drained E S cfg st))
      (start_page cfg) (end_page cfg)) as [-> ->].
  - destruct (process_pdf_not_found E S cfg st Hf) as [raised ->].
    apply make_dirs_has_dirs.
Qed.

(** C2. Idempotent skip: a page whose render artifact and text artifact
    both exist is skipped, [process_page_task] returns success at once,
    calls no engine and leaves the store as it is.  Consequently, when a
    run that got past the Tesseract check has left every page of its
    range complete, a second run over the same range (with any engines
    and any completion order) makes no engine call and leaves the store
    identical, the combined artifact included. *)
Theorem idempotent_skip :
  (∀ E pdf page_num dpi lang st,
     page_complete st (page_num + 1) = true →
     process_page_task E pdf page_num dpi lang st
     = (st, [], Returned true (page_num + 1) None))
  ∧ (∀ E1 S1 E2 S2 cfg st,
       tesseract_found E1 = true →
       (∀ i, start_page cfg ≤ i ≤ end_page cfg →
             page_complete (run_store (process_pdf E1 S1 cfg st)) i = true) →
       run_calls (process_pdf E2 S2 cfg (run_store (process_pdf E1 S1 cfg st))) = []
       ∧ run_store (process_pdf E2 S2 cfg (run_store (process_pdf E1 S1 cfg st)))
         = run_store (process_pdf E1 S1 cfg st)).
Proof.
  split; [intros; by apply process_page_task_skip|].
  intros E1 S1 E2 S2 cfg st Hf Hall.
  destruct (process_pdf_all_complete E2 S2 cfg _ (run_store_has_dirs E1 S1 cfg st) Hall)
    as [Hcalls [Hst|Hst]]; split; try done.
  by rewrite Hst, combine_after_run.
Qed.

(** C3 (as stated, refuted).  When the document cannot be opened the
    text artifact is the sentinel followed by "OCR failed: " and only
    then by the kind and detail of the error, and the returned message
    starts with "OCR failed: " too: neither is the sentinel followed
    directly by "{errorKind}: {errorDetail}". *)
Lemma failure_text_format_counterexample :
  text_artifact (process_page_task broken_engines "book.pdf" 0 300 "eng" fresh_store).1.1 1
    = Some "OCR FAILED FOR THIS PAGE: OCR failed: FileDataError: cannot open broken document"
  ∧ text_artifact (process_page_task broken_engines "book.pdf" 0 300 "eng" fresh_store).1.1 1
    ≠ Some (SENTINEL +:+ "FileDataError" +:+ ": " +:+ "cannot open broken document")
  ∧ (process_page_task broken_engines "book.pdf" 0 300 "eng" fresh_store).2
    ≠ Returned false 1 (Some ("FileDataError" +:+ ": " +:+ "cannot open broken document")).
Proof. vm_compute. split_and!; [reflexivity|discriminate|discriminate]. Qed.

(** C3 (amended). Per-page failure handling: when the [text_files]
    directory exists and the page is not skipped, every error raised in
    the [try] block (by opening, loading, rendering, saving or
    recognition) is caught: [process_page_task] returns failure, not an
    exception, with the message "OCR failed: {errorKind}: {errorDetail}",
    and the text artifact it writes is the sentinel
    "OCR FAILED FOR THIS PAGE: " followed by that same message. *)
Theorem failure_isolation E pdf page_num dpi lang st e :
  is_Some (text_files st) →
  page_complete st (page_num + 1) = false →
  (render_and_ocr E pdf page_num dpi lang st).2 = inl e →
  (process_page_task E pdf page_num dpi lang st).2
    = Returned false (page_num + 1)
        (Some ("OCR failed: " +:+ exn_kind e +:+ ": " +:+ exn_detail e))
  ∧ text_artifact (process_page_task E pdf page_num dpi lang st).1.1 (page_num + 1)
    = Some ("OCR FAILED FOR THIS PAGE: "
            +:+ ("OCR failed: " +:+ exn_kind e +:+ ": " +:+ exn_detail e)).
Proof.
  intros Hdir Hc He. unfold process_page_task. fold (page_complete st (page_num + 1)).
  rewrite Hc.
  pose proof (render_and_ocr_text_dir E pdf dpi lang page_num st Hdir) as [T HT].
  destruct (render_and_ocr E pdf page_num dpi lang st) as [[st1 log] r].
  simpl in *. subst r. unfold write_text. rewrite HT. simpl.
  split; [done|]. unfold text_artifact. simpl. by rewrite lookup_insert_eq.
Qed.

(** C10 (as stated, refuted).  Page 1 has a render artifact left by an
    interrupted run and no text artifact.  The document then fails to
    open: the sentinel text is written, the old render artifact is still
    there, and the next invocation skips the page instead of attempting
    it again. *)
Lemma render_failure_retry_counterexample :
  render_fails broken_engines "book.pdf" 300 0
  ∧ page_complete interrupted_store 1 = false
  ∧ render_artifact
      (process_page_task broken_engines "book.pdf" 0 300 "eng" interrupted_store).1.1 1
    = Some "stale image"
  ∧ process_page_task sound_engines "book.pdf" 0 300 "eng"
      (process_page_task broken_engines "book.pdf" 0 300 "eng" interrupted_store).1.1
    = ((process_page_task broken_engines "book.pdf" 0 300 "eng" interrupted_store).1.1,
       [], Returned true 1 None).
Proof.
  split_and!; [left; by eexists|by vm_compute..].
Qed.

(** C10 (amended). Render-failure retry: with both directories in place,
    when rendering fails before [pix.save] for a page that had no render
    artifact beforehand, the sentinel text artifact is written, there is
    still no render artifact, and a subsequent invocation attempts the
    page again (it calls [fitz.open]).  When instead rendering succeeds
    and recognition fails, both artifacts exist afterwards and a
    subsequent invocation skips the page. *)
Theorem render_failure_retry E E' pdf page_num dpi lang st :
  has_dirs st →
  (render_fails E pdf dpi page_num →
   render_artifact st (page_num + 1) = None →
   sentinel_text (process_page_task E pdf page_num dpi lang st).1.1 (page_num + 1)
   ∧ render_artifact (process_page_task E pdf page_num dpi lang st).1.1 (page_num + 1) = None
   ∧ ∃ rest,
       (process_page_task E' pdf page_num dpi lang
          (process_page_task E pdf page_num dpi lang st).1.1).1.2
       = FitzOpen pdf :: rest)
  ∧ (∀ img e,
       page_complete st (page_num + 1) = false →
       attempt_of E pdf page_num dpi lang = OcrFailed img e →
       sentinel_text (process_page_task E pdf page_num dpi lang st).1.1 (page_num + 1)
       ∧ render_artifact (process_page_task E pdf page_num dpi lang st).1.1 (page_num + 1)
         = Some img
       ∧ process_page_task E' pdf page_num dpi lang
           (process_page_task E pdf page_num dpi lang st).1.1
         = ((process_page_task E pdf page_num dpi lang st).1.1, [],
            Returned true (page_num + 1) None)).
Proof.
  intros Hd. open_dirs st Hd P T c.
  split.
  - intros Hfail Hnone.
    assert (page_complete (Store (Some P) (Some T) c) (page_num + 1) = false) as Hc.
    { rewrite page_complete_alt, Hnone. done. }
    rewrite process_page_task_attempt by done. simpl.
    pose proof (attempt_png_none E pdf dpi lang page_num Hfail) as Hpng.
    set (a := attempt_of E pdf page_num dpi lang) in *.
    assert (render_artifact (attempt_store P T c (page_num + 1) a) (page_num + 1) = None)
      as Hnone' by (unfold render_artifact, attempt_store; by rewrite Hpng).
    split_and!; [|done|].
    + exists (attempt_text a). split.
      * unfold text_artifact. simpl. by rewrite lookup_insert_eq.
      * destruct a; simpl in Hpng; try discriminate; apply startswith_sentinel.
    + unfold attempt_store in *. rewrite process_page_task_attempt.
      * simpl. apply attempt_calls_first.
      * rewrite page_complete_alt, Hnone'. done.
  - intros img e Hc Ha. rewrite process_page_task_attempt by done. simpl.
    rewrite Ha. split_and!.
    + exists (SENTINEL +:+ error_message e). split; [|apply startswith_sentinel].
      unfold text_artifact. simpl. by rewrite lookup_insert_eq.
    + unfold render_artifact. simpl. by rewrite lookup_insert_eq.
    + apply process_page_task_skip. rewrite page_complete_alt.
      unfold render_artifact, text_artifact. simpl. by rewrite !lookup_insert_eq.
Qed.

(** C9. Zero-qualify merge: when every text artifact of the range is
    missing or sentinel-marked, [combine_text_files] reports that there
    is nothing to combine and returns the store as it was: no merged
    artifact is written and an earlier combined artifact stays. *)
Theorem zero_qualify_merge st start_page end_page :
  (∀ i, start_page ≤ i ≤ end_page →
        text_artifact st i = None ∨ sentinel_text st i) →
  combine_text_files st start_page end_page = (st, NothingToCombine).
Proof.
  intros Hall. rewrite combine_text_files_eq.
  destruct (merged_pages st start_page end_page) as [|i pages] eqn:Hpages; [done|].
  assert (i ∈ merged_pages st start_page end_page) as Hi by (rewrite Hpages; left).
  apply elem_of_merged_pages in Hi as [Hi Hm]. exfalso.
  destruct (Hall i Hi) as [Hnone|Hsent].
  - unfold mergeable in Hm. by rewrite Hnone in Hm.
  - by rewrite sentinel_text_not_mergeable in Hm.
Qed.

(** C1 (as stated, refuted).  The text artifact of page 1 exists and does
    not begin with the sentinel, yet "OCR FAILED" occurs in its first 50
    characters: the page is not merged, so the merged count (0) is not
    the number of pages whose artifact lacks the sentinel prefix (1). *)
Lemma combine_count_counterexample :
  count (lacks_sentinel_prefix mention_store) (py_range 1 (1 + 1)) = 1
  ∧ merged_count (combine_text_files mention_store 1 1).2 = 0
  ∧ merged_count (combine_text_files mention_store 1 1).2
    ≠ count (lacks_sentinel_prefix mention_store) (py_range 1 (1 + 1)).
Proof. by vm_compute. Qed.

(** C1 (amended). Combine correctness: the number of pages merged by
    [combine_text_files] equals the number of indices of the range whose
    text artifact exists and has no "OCR FAILED" among the first 50
    characters that [f.read(50)] returns, the file being read in text
    mode (a carriage return, with or without a line feed after it, is
    read as one line feed); the merged output is made of exactly those
    pages, and a page whose artifact begins with the sentinel is never
    one of them. *)
Theorem combine_count st start_page end_page :
  merged_count (combine_text_files st start_page end_page).2
    = count (mergeable st) (py_range start_page (end_page + 1))
  ∧ combine_text_files st start_page end_page
    = match merged_pages st start_page end_page with
      | [] => (st, NothingToCombine)
      | pages =>
          (Store (png_images st) (text_files st) (Some (merged_text st pages)),
           Merged (length pages))
      end
  ∧ (∀ i, sentinel_text st i → i ∉ merged_pages st start_page end_page)
  ∧ (∀ i, mergeable st i = true
          ↔ ∃ content,
              text_artifact st i = Some content
              ∧ PyStr.contains "OCR FAILED"
                  (String.substring 0 50 (PyStr.universal_newlines content)) = false)
  ∧ (∀ i, i ∈ merged_pages st start_page end_page
          ↔ start_page ≤ i ≤ end_page ∧ mergeable st i = true).
Proof.
  split_and!.
  - rewrite combine_text_files_eq. unfold count, merged_pages.
    by destruct (List.filter _ _).
  - apply combine_text_files_eq.
  - intros i Hs Hi. apply elem_of_merged_pages in Hi as [_ Hm].
    by rewrite sentinel_text_not_mergeable in Hm.
  - intros i. unfold mergeable, passes_marker_check, PyStr.read_prefix.
    destruct (text_artifact st i) as [content|]; split.
    + intros Hm%negb_true_iff. by exists content.
    + intros (content' & [= <-] & Hm). by apply negb_true_iff.
    + done.
    + by intros (content' & ? & _).
  - intros i. apply elem_of_merged_pages.
Qed.

Lemma process_pdf_store_schedule E S1 S2 cfg st :
  run_store (process_pdf E S1 cfg st) = run_store (process_pdf E S2 cfg st).
Proof.
  destruct (tesseract_found E) eqn:Hf.
  2: { destruct (process_pdf_not_found E S1 cfg st Hf) as [raised1 ->].
       by destruct (process_pdf_not_found E S2 cfg st Hf) as [raised2 ->]. }
  rewrite !process_pdf_found by done. simpl.
  assert (pool_store (drained E S1 cfg st) = pool_store (drained E S2 cfg st)) as Hst.
  { apply run_pool_store_perm; [apply make_dirs_has_dirs|].
    by rewrite !submitted_perm. }
  destruct (aggregate_tally _ (Tally 0 0 []) (drained_counted E S1 cfg st)) as [-> _].
  destruct (aggregate_tally _ (Tally 0 0 []) (drained_counted E S2 cfg st)) as [-> _].
  rewrite !drained_outcomes, !count_fmap.
  rewrite (count_perm _ (submitted S1 cfg) (submitted S2 cfg))
    by by rewrite !submitted_perm.
  rewrite Hst. by case_match.
Qed.

(** C7. Combined artifact format and order: what [combine_text_files]
    writes is, for the qualifying pages of the range taken in strictly
    ascending index order, the delimiter
    "\n\n==================== PAGE <n> ====================\n\n" of
    the page (with <n> its index in decimal) followed by the text of the
    page as [infile.read()] returns it: the characters of its text
    artifact, each carriage return with or without a line feed after it
    read as one line feed, so the artifact itself when it holds no
    carriage return; and the store a run of [process_pdf] leaves, the
    combined artifact included, does not depend on the order in which
    the workers completed. *)
Theorem combined_format_and_order :
  (∀ st start_page end_page,
     combine_text_files st start_page end_page
     = match merged_pages st start_page end_page with
       | [] => (st, NothingToCombine)
       | pages =>
           (Store (png_images st) (text_files st) (Some (merged_text st pages)),
            Merged (length pages))
       end
     ∧ StronglySorted Z.lt (merged_pages st start_page end_page))
  ∧ (∀ st i rest,
       merged_text st (i :: rest)
       = (NL +:+ NL +:+ "==================== PAGE " +:+ PyStr.str_int i
            +:+ " ====================" +:+ NL +:+ NL)
         +:+ default "" (text_read st i) +:+ merged_text st rest)
  ∧ (∀ st i content,
       text_artifact st i = Some content →
       text_read st i = Some (PyStr.universal_newlines content)
       ∧ sforall not_cr (PyStr.universal_newlines content) = true
       ∧ (sforall not_cr content = true → text_read st i = Some content))
  ∧ (∀ p t,
       sforall not_cr p = true →
       PyStr.universal_newlines (p +:+ String PyStr.CR (String PyStr.LF t))
       = p +:+ String PyStr.LF (PyStr.universal_newlines t)
       ∧ ((∀ r, t ≠ String PyStr.LF r) →
          PyStr.universal_newlines (p +:+ String PyStr.CR t)
          = p +:+ String PyStr.LF (PyStr.universal_newlines t)))
  ∧ (∀ E S1 S2 cfg st,
       run_store (process_pdf E S1 cfg st) = run_store (process_pdf E S2 cfg st))
  ∧ (combined_output (combine_text_files crlf_store 1 1).1
     = Some (page_header 1 +:+ String "a" (NL +:+ "b" +:+ NL +:+ "c"))).
Proof.
  split_and!.
  - intros. split; [apply combine_text_files_eq|apply merged_pages_sorted].
  - done.
  - intros st i content Hc. unfold text_read. rewrite Hc. simpl. split_and!.
    + done.
    + apply translate_newlines_not_cr.
    + intros Hcr. by rewrite universal_newlines_id.
  - intros p t Hp. split; [by apply universal_newlines_crlf|].
    intros Ht. by apply universal_newlines_cr.
  - apply process_pdf_store_schedule.
  - by vm_compute.
Qed.

(** C6 (as stated, refuted).  The store holds [5.png] and [5.txt] and
    nothing else.  No page has both of its artifacts, since those of
    page 5 are [0005.png] and [0005.txt]; the scanner returns 5, not 0. *)
Lemma last_processed_page_counterexample :
  (∀ n, page_complete unpadded_store n = false)
  ∧ render_artifact unpadded_store 5 = None
  ∧ text_artifact unpadded_store 5 = None
  ∧ get_last_processed_page unpadded_store = 5
  ∧ get_last_processed_page unpadded_store ≠ 0.
Proof.
  split_and!; [|by vm_compute..].
  intros n. unfold page_complete, unpadded_store. simpl.
  rewrite bool_decide_eq_false_2; [done|].
  intros [x Hx]. apply lookup_singleton_Some in Hx as [Heq _].
  unfold png_name in Heq. apply (app_inj_suffix "5" (PyStr.fmt04d n) ".png") in Heq.
  pose proof (int_fmt04d n) as Hint. rewrite <-Heq in Hint.
  assert (n = 5) as -> by (vm_compute in Hint; congruence).
  by vm_compute in Heq.
Qed.

(** C6 (amended). Progress scanner, for a store whose entry names are
    ASCII: [get_last_processed_page] returns 0 when a sub-directory of
    the store is absent or when no index is complete for it; otherwise
    it returns an index that is complete for it and at least every such
    index, the maximum and not the end of the contiguous prefix: with
    pages 1, 2 and 5 complete and 3 and 4 incomplete it returns 5.  An
    index is complete for the scanner when the render collection has an
    entry [<digits>.png] parsing to it and the text collection has the
    corresponding [<digits>.txt].  Every non-negative page that has both
    of its artifacts is such an index; and when the all-digit render
    entries are zero-padded as the executor writes them, the scanner
    returns the maximum non-negative page index that has both of its
    artifacts, and 0 when there is none. *)
Theorem last_processed_page :
  (∀ st, png_images st = None ∨ text_files st = None →
         get_last_processed_page st = 0)
  ∧ (∀ st, (∀ n, ¬ entry_complete st n) → get_last_processed_page st = 0)
  ∧ (∀ st n, entry_complete st n →
       entry_complete st (get_last_processed_page st)
       ∧ n ≤ get_last_processed_page st)
  ∧ (∀ st n, 0 ≤ n → page_complete st n = true → n ≤ get_last_processed_page st)
  ∧ (∀ st n, zero_padded_names st → entry_complete st n → page_complete st n = true)
  ∧ (page_complete gap_store <$> [1; 2; 3; 4; 5] = [true; true; false; false; true]
     ∧ get_last_processed_page gap_store = 5)
  ∧ (∀ st, zero_padded_names st →
       (∀ n, 0 ≤ n → page_complete st n = false) →
       get_last_processed_page st = 0)
  ∧ (∀ st n, zero_padded_names st → 0 ≤ n → page_complete st n = true →
       page_complete st (get_last_processed_page st) = true
       ∧ n ≤ get_last_processed_page st).
Proof.
  assert (∀ st n, entry_complete st n →
            entry_complete st (get_last_processed_page st)
            ∧ n ≤ get_last_processed_page st) as Hmax.
  { intros st n Hn. pose proof Hn as (png & txt & _ & Hpng & Htxt & _).
    destruct st as [? ? c]. simpl in Hpng, Htxt. subst.
    rewrite entry_complete_processed in Hn.
    destruct (get_last_processed_page_spec png txt c) as [[Hempty _]|[Hin Hle]].
    - rewrite Hempty in Hn. by apply not_elem_of_empty in Hn.
    - split; [by apply entry_complete_processed|by apply Hle]. }
  assert (∀ st n, zero_padded_names st → entry_complete st n →
            page_complete st n = true) as Hpadded.
  { intros st n Hpad (png & txt & digits & Hpng & Htxt & Hdig & Hp & Ht & Hint).
    destruct (Hpad png digits Hpng Hdig Hp) as [m ->].
    rewrite int_fmt04d in Hint. simplify_eq.
    unfold page_complete. rewrite Hpng, Htxt. simpl.
    by rewrite !bool_decide_eq_true_2. }
  split_and!.
  - intros [[png|] [txt|] c] [?|?]; by simplify_eq/=.
  - intros [[png|] [txt|] c] Hnone; try done.
    destruct (get_last_processed_page_spec png txt c) as [[_ ?]|[Hin _]]; [done|].
    by apply entry_complete_processed with (c := c), Hnone in Hin.
  - done.
  - intros st n Hn Hc. by apply Hmax, page_complete_entry_complete.
  - done.
  - by vm_compute.
  - by vm_compute.
  - intros st Hpad Hnone.
    destruct (get_last_processed_page_cases st) as [Hz|[Hc _]]; [done|].
    pose proof (entry_complete_nonneg _ _ Hc) as H0.
    pose proof (Hpadded _ _ Hpad Hc) as Hp. by rewrite (Hnone _ H0) in Hp.
  - intros st n Hpad Hn Hc.
    destruct (Hmax st n (page_complete_entry_complete st n Hn Hc)) as [Hlast Hle].
    split; [by apply Hpadded|done].
Qed.

(** C4 (the failing input).  The document exists and opens, the user
    asks for all pages, and the Tesseract executable is not found:
    [process_pdf] returns at its check without processing a page, and
    the script then runs to its end, so the exit status is 0, not 1. *)
Theorem exit_code_without_tesseract :
  setup_and_run no_tesseract_engines in_order demo_arguments true ["a"] fresh_store
  = (0, Some (Run fresh_store [] [] None None)).
Proof. by vm_compute. Qed.

(** ** The theorems at concrete inputs *)

(** C8 at the demo document (three pages, OCR fails on page 2, workers
    completing in reverse order): the counters add up to 3. *)
Lemma run_accounting_witness :
  tesseract_found demo_engines = true
  ∧ start_page demo_config ≤ end_page demo_config + 1
  ∧ ∃ t, run_tally (process_pdf demo_engines reversed demo_config empty_store) = Some t
         ∧ success_count t + failure_count t = 3.
Proof.
  split; [reflexivity|]. split; [by vm_compute|].
  destruct (run_accounting demo_engines reversed demo_config empty_store)
    as (t & Ht & _ & _ & Hsum & _); [reflexivity|by vm_compute|].
  exists t. split; [exact Ht|exact Hsum].
Defined.

(** C5 at the demo document, for the page whose recognition goes
    through and for the page whose recognition fails. *)
Lemma completeness_witness :
  tesseract_found demo_engines = true
  ∧ start_page demo_config ≤ 2 ≤ end_page demo_config
  ∧ page_complete empty_store 2 = false
  ∧ text_artifact (run_store (process_pdf demo_engines reversed demo_config empty_store)) 1
    = Some "text of image-0"
  ∧ text_artifact (run_store (process_pdf demo_engines reversed demo_config empty_store)) 2
    = Some ("OCR FAILED FOR THIS PAGE: "
            +:+ ("OCR failed: " +:+ "TesseractError" +:+ ": " +:+ "(1, 'read error')"))
  ∧ sentinel_text (run_store (process_pdf demo_engines reversed demo_config empty_store)) 2
  ∧ (is_Some (render_artifact
                (run_store (process_pdf demo_engines reversed demo_config empty_store)) 2)
     ∨ render_fails demo_engines (pdf_path demo_config) (dpi demo_config) (2 - 1)).
Proof.
  split; [reflexivity|]. split; [by vm_compute|]. split; [reflexivity|].
  destruct (completeness demo_engines reversed demo_config empty_store 1)
    as (_ & _ & _ & _ & Hone); [reflexivity|by vm_compute|].
  destruct (completeness demo_engines reversed demo_config empty_store 2)
    as (_ & _ & Hrender & _ & Htwo); [reflexivity|by vm_compute|].
  destruct (Hone eq_refl) as [Hgood _].
  destruct (Htwo eq_refl) as [_ Hbad].
  destruct (Hgood 3 "image-0" "  text of image-0 " eq_refl eq_refl eq_refl eq_refl)
    as [Htext _].
  destruct (Hbad (Exn "TesseractError" "(1, 'read error')") eq_refl) as (Hsent & Hkind & _).
  split; [exact Htext|]. split; [exact Hsent|]. split; [exact Hkind|exact Hrender].
Defined.

(** C3 at a document that cannot be opened. *)
Lemma failure_isolation_witness :
  is_Some (text_files fresh_store)
  ∧ page_complete fresh_store (0 + 1) = false
  ∧ (render_and_ocr broken_engines "book.pdf" 0 300 "eng" fresh_store).2
    = inl (Exn "FileDataError" "cannot open broken document")
  ∧ (process_page_task broken_engines "book.pdf" 0 300 "eng" fresh_store).2
    = Returned false (0 + 1)
        (Some ("OCR failed: " +:+ "FileDataError" +:+ ": " +:+ "cannot open broken document"))
  ∧ text_artifact (process_page_task broken_engines "book.pdf" 0 300 "eng" fresh_store).1.1
      (0 + 1)
    = Some ("OCR FAILED FOR THIS PAGE: "
            +:+ ("OCR failed: " +:+ "FileDataError" +:+ ": " +:+ "cannot open broken document")).
Proof.
  split; [by eexists|]. split; [reflexivity|]. split; [reflexivity|].
  apply (failure_isolation broken_engines "book.pdf" 0 300 "eng" fresh_store
           (Exn "FileDataError" "cannot open broken document"));
    [by eexists|reflexivity|reflexivity].
Defined.

(** C9 at a store whose only text artifact in range is a sentinel and
    which holds an earlier combined artifact. *)
Lemma zero_qualify_merge_witness :
  (∀ i, 1 ≤ i ≤ 2 → text_artifact failed_store i = None ∨ sentinel_text failed_store i)
  ∧ combine_text_files failed_store 1 2 = (failed_store, NothingToCombine).
Proof.
  assert (∀ i, 1 ≤ i ≤ 2 →
            text_artifact failed_store i = None ∨ sentinel_text failed_store i) as H.
  { intros i Hi. assert (i = 1 ∨ i = 2) as [->| ->] by lia.
    - right. eexists. split; reflexivity.
    - left. reflexivity. }
  split; [exact H|]. exact (zero_qualify_merge failed_store 1 2 H).
Defined.

(** C10 at a fresh store: the document does not open for page 1; and,
    with the demo engines, page 2 renders and its recognition fails. *)
Lemma render_failure_retry_witness :
  has_dirs fresh_store
  ∧ render_fails broken_engines "book.pdf" 300 0
  ∧ render_artifact fresh_store (0 + 1) = None
  ∧ (sentinel_text
       (process_page_task broken_engines "book.pdf" 0 300 "eng" fresh_store).1.1 (0 + 1)
     ∧ render_artifact
         (process_page_task broken_engines "book.pdf" 0 300 "eng" fresh_store).1.1 (0 + 1)
       = None
     ∧ ∃ rest,
         (process_page_task sound_engines "book.pdf" 0 300 "eng"
            (process_page_task broken_engines "book.pdf" 0 300 "eng" fresh_store).1.1).1.2
         = FitzOpen "book.pdf" :: rest)
  ∧ process_page_task sound_engines "book.pdf" 1 300 "eng"
      (process_page_task demo_engines "book.pdf" 1 300 "eng" fresh_store).1.1
    = ((process_page_task demo_engines "book.pdf" 1 300 "eng" fresh_store).1.1, [],
       Returned true (1 + 1) None).
Proof.
  assert (has_dirs fresh_store) as Hd by (split; by eexists).
  assert (render_fails broken_engines "book.pdf" 300 0) as Hf by (left; by eexists).
  split; [exact Hd|]. split; [exact Hf|]. split; [reflexivity|]. split.
  - exact (proj1 (render_failure_retry broken_engines sound_engines "book.pdf" 0 300 "eng"
                    fresh_store Hd) Hf eq_refl).
  - exact (proj2 (proj2 (proj2 (render_failure_retry demo_engines sound_engines "book.pdf"
                    1 300 "eng" fresh_store Hd)
             "image-1" (Exn "TesseractError" "(1, 'read error')") eq_refl eq_refl))).
Defined.

(** C2 at the demo document: after a first complete run, a page task
    skips, and a second run with other engines changes nothing. *)
Lemma idempotent_skip_witness :
  process_page_task demo_engines "book.pdf" 0 300 "eng" first_run_store
    = (first_run_store, [], Returned true (0 + 1) None)
  ∧ run_calls (process_pdf demo_engines reversed demo_config first_run_store) = []
  ∧ run_store (process_pdf demo_engines reversed demo_config first_run_store)
    = first_run_store.
Proof.
  destruct idempotent_skip as [Hskip Hrun]. split.
  - apply Hskip. by vm_compute.
  - apply (Hrun sound_engines in_order demo_engines reversed demo_config empty_store);
      [reflexivity|].
    intros i Hi. assert (i = 1 ∨ i = 2 ∨ i = 3) as [->|[->| ->]]
      by (unfold demo_config in Hi; simpl in Hi; lia); by vm_compute.
Defined.

End claims.

(** * Worked scenarios *)

Section scenarios.

(** Three pages, all succeed: three sections in page order. *)
Example scenario_all_succeed :
  let r := process_pdf sound_engines reversed demo_config empty_store in
  run_tally r = Some (Tally 3 0 [])
  ∧ run_combine r = Some (Merged 3)
  ∧ combined_output (run_store r)
    = Some "

==================== PAGE 1 ====================

text of image-0

==================== PAGE 2 ====================

text of image-1

==================== PAGE 3 ====================

text of image-2"
  ∧ get_last_processed_page (run_store r) = 3.
Proof. by vm_compute. Qed.

(** Recognition fails on page 2: its text artifact is the sentinel text,
    pages 1 and 3 are merged, and the counters are 2 and 1. *)
Example scenario_page_two_fails :
  let r := process_pdf demo_engines reversed demo_config empty_store in
  run_tally r
    = Some (Tally 2 1 ["Page 0002: OCR failed: TesseractError: (1, 'read error')"])
  ∧ text_artifact (run_store r) 2
    = Some "OCR FAILED FOR THIS PAGE: OCR failed: TesseractError: (1, 'read error')"
  ∧ merged_pages (run_store r) 1 3 = [1; 3]
  ∧ run_combine r = Some (Merged 2).
Proof. by vm_compute. Qed.

(** A second run after a complete one: every page is skipped. *)
Example scenario_rerun :
  let r := process_pdf demo_engines in_order demo_config first_run_store in
  run_tally r = Some (Tally 3 0 [])
  ∧ run_calls r = []
  ∧ get_last_processed_page (run_store r) = 3.
Proof. by vm_compute. Qed.

(** The menu: a range typed at the first prompt, and a resume. *)
Example menu_range : menu 0 10 ["x"; " 5-10 "] = MenuRange 5 10.
Proof. reflexivity. Qed.

Example menu_new_range : menu 3 10 ["N"; "2-1"; "n"; "4 - 7"] = MenuRange 4 7.
Proof. reflexivity. Qed.

Example menu_resume : menu 3 10 ["r"] = MenuRange 4 10.
Proof. reflexivity. Qed.

Example menu_resume_done : menu 10 10 ["r"] = MenuExit 0.
Proof. reflexivity. Qed.

Example menu_end_of_input : menu 0 10 ["r"; "7"] = MenuExit 1.
Proof. reflexivity. Qed.

(** A typed range with a file separator after the first number: [int]
    raises [ValueError], the prompt comes again, and the input ends. *)
Example menu_file_separator :
  menu 0 10 [String "5" (String (ascii_of_nat 28) "-10")] = MenuExit 1
  ∧ menu 0 10 [String "5" (String (ascii_of_nat 28) "-10"); "5 - 10"] = MenuRange 5 10.
Proof. split; reflexivity. Qed.

(** Tesseract returns a text with carriage returns: it is written as it
    is, and merged as it is read in text mode. *)
Example scenario_carriage_returns :
  let r := process_pdf crlf_engines in_order (Config "note.pdf" 1 1 300 "eng") empty_store in
  text_artifact (run_store r) 1 = Some crlf_text
  ∧ run_combine r = Some (Merged 1)
  ∧ combined_output (run_store r)
    = Some (page_header 1 +:+ String "a" (NL +:+ "b" +:+ NL +:+ "c")).
Proof. by vm_compute. Qed.

(** The marker lies beyond the first 50 characters of the file and
    within the first 50 characters read: the page is left out. *)
Example scenario_late_marker :
  String.length late_marker_text = 89%nat
  ∧ PyStr.contains "OCR FAILED" (String.substring 0 50 late_marker_text) = false
  ∧ passes_marker_check late_marker_text = false.
Proof. by vm_compute. Qed.

(** The version check of Tesseract raises [CalledProcessError]: the
    directories are made, no page is processed, and the script ends with
    status 1. *)
Example scenario_bad_tesseract :
  setup_and_run bad_tesseract_engines in_order demo_arguments true ["a"] empty_store
  = (1, Some (Ran fresh_store [] [] None None
                (Some (Exn "CalledProcessError"
                         "Command '['/bin/false', '--version']' returned non-zero exit status 1.")))).
Proof. by vm_compute. Qed.

Example page_header_12 :
  page_header 12 = "

==================== PAGE 12 ====================

".
Proof. reflexivity. Qed.

End scenarios.

(** * Further properties of the code *)

Section addressing.

Lemma suffix_png_name n : PyPath.suffix (png_name n) = ".png".
Proof.
  unfold png_name. change ".png" with (String "." "png").
  apply suffix_app; [apply fmt04d_nonempty|done..].
Qed.

(** X1. Page addressing round trip.  The two file names of a page are read
    back to its index by [int(path.stem)], for every integer, also past
    four digits; different pages never share a name; and the scanner's
    loop body reads a render entry written by the executor back to the
    index it was written for, provided its text is there. *)
Theorem page_names_round_trip :
  (∀ n, PyStr.int (PyPath.stem (txt_name n)) = Some n
        ∧ PyStr.int (PyPath.stem (png_name n)) = Some n)
  ∧ (∀ n m, txt_name n = txt_name m ∨ png_name n = png_name m → n = m)
  ∧ (∀ (txt : dir) n, 0 ≤ n →
       scan_entry txt (png_name n)
       = if bool_decide (is_Some (txt !! txt_name n)) then Some n else None).
Proof.
  split_and!.
  - intros n. by rewrite stem_txt_name, stem_png_name, int_fmt04d.
  - intros n m [H|H]; [by apply txt_name_inj|by apply png_name_inj].
  - intros txt n Hn. unfold scan_entry.
    rewrite suffix_png_name, stem_png_name, isdigit_fmt04d by done. simpl.
    fold (txt_name n). by rewrite int_fmt04d.
Qed.

End addressing.

Section edges.

Context (E : engines) (S : schedule) (cfg : config).

Lemma completion_nil : completion S [] = [].
Proof. apply Permutation_nil_r, completion_perm. Qed.

(** X2. Empty range.  When [end_page] is below [start_page] and Tesseract is
    found, [process_pdf] creates the two directories and does nothing
    else: no engine call, no outcome, both counters 0, and the combiner
    is not run. *)
Theorem process_pdf_empty_range st :
  tesseract_found E = true →
  end_page cfg < start_page cfg →
  process_pdf E S cfg st = Run (make_dirs st) [] [] (Some (Tally 0 0 [])) None.
Proof.
  intros Hf Hlt. rewrite process_pdf_found by done.
  unfold drained, submitted, py_range. rewrite seqZ_nil by lia.
  by rewrite completion_nil.
Qed.

(** X3. Missing text directory.  When [text_files] does not exist the page is
    not skipped, the [try] block ends in an exception whatever the
    engines do, the sentinel cannot be written either, and a
    [FileNotFoundError] escapes [process_page_task]; nothing is written
    to the text collection.  The aggregator counts such an outcome as a
    failure without a report line. *)
Theorem task_raises_without_text_dir pdf page_num dpi lang st :
  text_files st = None →
  (∃ e, (process_page_task E pdf page_num dpi lang st).2 = Raised e
        ∧ exn_kind e = "FileNotFoundError")
  ∧ text_files (process_page_task E pdf page_num dpi lang st).1.1 = None
  ∧ ∀ t e, aggregate t (Raised e)
           = Tally (success_count t) (failure_count t + 1) (failure_messages t).
Proof.
  intros Hnone. split_and!; [| |done].
  - unfold process_page_task. destruct st as [P T c]. simpl in Hnone. subst T.
    simpl. rewrite andb_false_r.
    unfold render_and_ocr, mbind, task_bind, engine, pix_save, write_text. simpl.
    destruct (fitz_open E pdf) as [e|?]; [by eexists|].
    destruct (load_page E pdf page_num) as [e|]; simpl; [by eexists|].
    destruct (get_pixmap E pdf page_num dpi) as [e|img]; simpl; [by eexists|].
    destruct P as [P|]; simpl; [|by eexists].
    destruct (image_to_string E img lang) as [e|text]; simpl; by eexists.
  - unfold process_page_task. destruct st as [P T c]. simpl in Hnone. subst T.
    simpl. rewrite andb_false_r.
    unfold render_and_ocr, mbind, task_bind, engine, pix_save, write_text. simpl.
    destruct (fitz_open E pdf) as [e|?]; [done|].
    destruct (load_page E pdf page_num) as [e|]; simpl; [done|].
    destruct (get_pixmap E pdf page_num dpi) as [e|img]; simpl; [done|].
    destruct P as [P|]; simpl; [|done].
    destruct (image_to_string E img lang) as [e|text]; simpl; done.
Qed.

End edges.

Section frame.

Context (E : engines) (S : schedule) (cfg : config).

(** X4. Frame and growth of the store.  [process_pdf] leaves every entry of
    the two collections that is not the file of a page of its range
    exactly as it was (entries of other pages and foreign files alike),
    and it never removes anything: an entry that existed still exists
    afterwards, and so does an earlier combined artifact. *)
Theorem process_pdf_frame st name :
  ((∀ i, start_page cfg ≤ i ≤ end_page cfg → name ≠ png_name i) →
   read_file (png_images (run_store (process_pdf E S cfg st))) name
   = read_file (png_images st) name)
  ∧ ((∀ i, start_page cfg ≤ i ≤ end_page cfg → name ≠ txt_name i) →
     read_file (text_files (run_store (process_pdf E S cfg st))) name
     = read_file (text_files st) name)
  ∧ (is_Some (read_file (png_images st) name) →
     is_Some (read_file (png_images (run_store (process_pdf E S cfg st))) name))
  ∧ (is_Some (read_file (text_files st) name) →
     is_Some (read_file (text_files (run_store (process_pdf E S cfg st))) name))
  ∧ (is_Some (combined_output st) →
     is_Some (combined_output (run_store (process_pdf E S cfg st)))).
Proof.
  destruct (make_dirs_read st name) as [Hp Ht].
  destruct (tesseract_found E) eqn:Hf.
  - destruct (run_store_found E S cfg st Hf) as (-> & -> & Hc).
    pose proof (make_dirs_has_dirs st) as Hd.
    destruct (foldl_task_store_keeps E cfg (submitted S cfg) _ name Hd) as [Hk1 Hk2].
    rewrite Hp, Ht in *. split_and!; try done.
    + intros Hne. rewrite foldl_task_store_png_other, Hp; [done..|].
      intros n Hn. apply Hne. by apply (elem_of_submitted S cfg).
    + intros Hne. rewrite foldl_task_store_txt_other, Ht; [done..|].
      intros n Hn. apply Hne. by apply (elem_of_submitted S cfg).
  - destruct (process_pdf_not_found E S cfg st Hf) as [raised ->].
    change (run_store (Ran (make_dirs st) [] [] None None raised)) with (make_dirs st).
    rewrite Hp, Ht. done.
Qed.

End frame.

Section progress.

Context (E : engines) (S : schedule) (cfg : config).

Lemma entry_complete_kept st st' n :
  (∀ name, is_Some (read_file (png_images st) name) →
           is_Some (read_file (png_images st') name)) →
  (∀ name, is_Some (read_file (text_files st) name) →
           is_Some (read_file (text_files st') name)) →
  entry_complete st n → entry_complete st' n.
Proof.
  intros Hp Ht (png & txt & digits & Hpng & Htxt & Hdig & Hip & Hit & Hint).
  specialize (Hp (digits +:+ ".png")). specialize (Ht (digits +:+ ".txt")).
  rewrite Hpng in Hp. rewrite Htxt in Ht. simpl in Hp, Ht.
  specialize (Hp Hip). specialize (Ht Hit).
  destruct st' as [[png'|] [txt'|] c']; simpl in *;
    try (by destruct Hp); try (by destruct Ht).
  by exists png', txt', digits.
Qed.

(** X5. Progress never goes backwards.  The scanner's result is never
    negative, and after [process_pdf], whatever the range, the engines
    and the outcome of each page, it is at least what it was before. *)
Theorem scanner_monotone st :
  0 ≤ get_last_processed_page st
  ∧ get_last_processed_page st
    ≤ get_last_processed_page (run_store (process_pdf E S cfg st)).
Proof.
  split; [apply get_last_processed_page_nonneg|].
  destruct (get_last_processed_page_cases st) as [->|[Hc _]];
    [apply get_last_processed_page_nonneg|].
  apply get_last_processed_page_ge.
  eapply entry_complete_kept; [| |exact Hc].
  - intros name. apply (run_store_keeps E S cfg st name).
  - intros name. apply (run_store_keeps E S cfg st name).
Qed.

(** X6. A rendered page counts as processed.  After a run that passed the
    Tesseract check, the scanner's result is at least every page index of
    the range (from 0 up) whose rendering did not fail, whether its
    recognition succeeded or left a sentinel text: a resume starts after
    such a page. *)
Theorem scanner_after_run st i :
  tesseract_found E = true →
  start_page cfg ≤ i ≤ end_page cfg →
  0 ≤ i →
  ¬ render_fails E (pdf_path cfg) (dpi cfg) (i - 1) →
  i ≤ get_last_processed_page (run_store (process_pdf E S cfg st)).
Proof.
  intros Hf Hi H0 Hrender.
  apply get_last_processed_page_ge, page_complete_entry_complete; [done|].
  rewrite page_complete_alt.
  destruct (run_store_artifacts E S cfg st i Hf) as [-> ->].
  assert (i - 1 ∈ submitted S cfg) as Hin by (apply elem_of_submitted; lia).
  apply list_elem_of_lookup in Hin as [k Hk].
  destruct (Forall2_lookup_l _ _ _ _ _ (drained_settled E S cfg st) Hk)
    as (o & _ & (b & msg & _ & _ & _ & Htxt & Hpng)).
  replace (i - 1 + 1) with i in * by lia.
  destruct Hpng as [Hpng|?]; [|done].
  by rewrite !bool_decide_eq_true_2.
Qed.

End progress.

Section report.

Context (E : engines) (cfg : config).

Lemma aggregate_messages outcomes t :
  failure_messages (foldl aggregate t outcomes)
  = failure_messages t ++ omap failure_line outcomes.
Proof.
  revert t. induction outcomes as [|o outcomes IH]; intros t; simpl.
  { by rewrite app_nil_r. }
  rewrite IH. destruct o as [[] idx [msg|]|e]; simpl; try done;
    by rewrite <-app_assoc.
Qed.

Lemma settled_failure_lines st order outcomes :
  Forall2 (settled E cfg st) order outcomes →
  Z.of_nat (length (omap failure_line outcomes)) = count is_failure outcomes.
Proof.
  unfold count, is_failure.
  induction 1 as [|n o order outcomes (b & msg & -> & _) _ IH]; [done|].
  destruct b; simpl; [exact IH|]. rewrite !Nat2Z.inj_succ. f_equal. exact IH.
Qed.

(** X7. The failure report.  After a run that passed the Tesseract check the
    report lines are, in completion order, one line
    "Page NNNN: <message>" per failed page and nothing else, so
    [failure_count] is the number of lines; the two counters do not
    depend on the order in which the workers completed, and the lines
    are the same up to their order. *)
Theorem failure_report S1 S2 st :
  tesseract_found E = true →
  ∃ t1 t2,
    run_tally (process_pdf E S1 cfg st) = Some t1
    ∧ run_tally (process_pdf E S2 cfg st) = Some t2
    ∧ failure_messages t1 = omap failure_line (run_outcomes (process_pdf E S1 cfg st))
    ∧ failure_count t1 = Z.of_nat (length (failure_messages t1))
    ∧ success_count t1 = success_count t2
    ∧ failure_count t1 = failure_count t2
    ∧ failure_messages t1 ≡ₚ failure_messages t2.
Proof.
  intros Hf.
  destruct (run_tally_found E S1 cfg st Hf) as (-> & -> & _).
  destruct (run_tally_found E S2 cfg st Hf) as (-> & _ & _).
  do 2 eexists. split; [done|]. split; [done|].
  rewrite !aggregate_messages. simpl.
  destruct (aggregate_tally _ (Tally 0 0 []) (drained_counted E S1 cfg st)) as [-> ->].
  destruct (aggregate_tally _ (Tally 0 0 []) (drained_counted E S2 cfg st)) as [-> ->].
  simpl. rewrite (settled_failure_lines _ _ _ (drained_settled E S1 cfg st)).
  rewrite !drained_outcomes, !count_fmap.
  assert (submitted S1 cfg ≡ₚ submitted S2 cfg) as Hperm by (by rewrite !submitted_perm).
  rewrite !(count_perm _ _ _ Hperm).
  split_and!; try done. by rewrite Hperm.
Qed.

End report.

Section interactive.

Lemma leb_conditions s e total :
  (1 <=? s) && (s <=? e) && (e <=? total) = true ↔ 1 ≤ s ≤ e ∧ e ≤ total.
Proof. rewrite !andb_true_iff, !Z.leb_le. lia. Qed.

(** X8. Ranges handed to the pipeline.  Whenever the menu leaves with a range
    it starts at 1 or later and ends within the document; it is a
    non-empty range unless the document has no page and the user asked
    for all pages, in which case it is 1..[total_pages]. *)
Theorem menu_range_valid last_page total_pages inputs s e :
  menu last_page total_pages inputs = MenuRange s e →
  1 ≤ s ∧ e ≤ total_pages ∧ (s ≤ e ∨ (total_pages < 1 ∧ s = 1 ∧ e = total_pages)).
Proof.
  remember (length inputs) as k eqn:Hk. revert inputs Hk.
  induction k as [k IH] using lt_wf_ind. intros inputs Hk.
  destruct inputs as [|line rest]; simpl; [done|].
  assert (∀ l, (length l < k)%nat →
            menu last_page total_pages l = MenuRange s e →
            1 ≤ s ∧ e ≤ total_pages
            ∧ (s ≤ e ∨ (total_pages < 1 ∧ s = 1 ∧ e = total_pages))) as IH'.
  { intros l Hl. by apply (IH (length l)). }
  simpl in Hk.
  repeat case_match; simplify_eq/=; try done;
    try (apply IH'; simpl; lia);
    intros [= <- <-];
    repeat match goal with
      | H : _ && _ && _ = true |- _ => apply leb_conditions in H
      | H : (_ <? _) = true |- _ => apply Z.ltb_lt in H
      | H : (_ <? _) = false |- _ => apply Z.ltb_ge in H
      end; lia.
Qed.

Lemma lower_id s : sforall sign_or_digit s = true → PyStr.lower s = s.
Proof.
  induction s as [|c s IH]; [done|]. simpl. rewrite andb_true_iff.
  intros [Hc Hs]. rewrite IH by done. f_equal.
  unfold sign_or_digit in Hc. apply orb_true_iff in Hc as [Hc|Hc].
  - unfold PyStr.lower_char, PyStr.is_digit in *.
    apply andb_true_iff in Hc as [_ Hc]. apply Nat.leb_le in Hc.
    destruct (65 <=? nat_of_ascii c)%nat eqn:H65; [|done].
    apply Nat.leb_le in H65. lia.
  - by apply Ascii.eqb_eq in Hc as ->.
Qed.

Lemma contains_prefix needle hay :
  String.prefix needle hay = true → PyStr.contains needle hay = true.
Proof.
  intros H. destruct hay as [|c hay].
  - change (PyStr.contains needle "") with (String.prefix needle "" || false).
    by rewrite H.
  - change (PyStr.contains needle (String c hay))
      with (String.prefix needle (String c hay) || PyStr.contains needle hay).
    by rewrite H.
Qed.

Lemma contains_middle needle a b :
  PyStr.contains needle (a +:+ needle +:+ b) = true.
Proof.
  induction a as [|c a IH].
  - rewrite app_empty_l. apply contains_prefix, prefix_app.
  - rewrite app_cons. simpl. rewrite IH. apply orb_true_r.
Qed.

Lemma split_on_none sep s :
  sforall (λ c, negb (Ascii.eqb c sep)) s = true → PyStr.split_on sep s = [s].
Proof.
  induction s as [|c s IH]; [done|]. simpl. rewrite andb_true_iff.
  intros [Hc Hs]. apply negb_true_iff in Hc. by rewrite Hc, IH.
Qed.

Lemma split_on_app sep a b :
  sforall (λ c, negb (Ascii.eqb c sep)) a = true →
  PyStr.split_on sep (a +:+ String sep b) = a :: PyStr.split_on sep b.
Proof.
  induction a as [|c a IH]; intros Ha.
  - rewrite app_empty_l. simpl. by rewrite Ascii.eqb_refl.
  - simpl in Ha. apply andb_true_iff in Ha as [Hc Ha]. apply negb_true_iff in Hc.
    rewrite app_cons. simpl. by rewrite Hc, IH.
Qed.

Lemma is_digit_not_dash c :
  PyStr.is_digit c = true → negb (Ascii.eqb c "-") = true.
Proof. intros Hc. by destruct (is_digit_not_sign c Hc) as [-> _]. Qed.

(** [str(n)] of a non-negative integer is a digit string that [int]
    reads back. *)
Lemma str_int_digits n :
  0 ≤ n →
  sforall PyStr.is_digit (PyStr.str_int n) = true
  ∧ PyStr.str_int n ≠ ""
  ∧ PyStr.int (PyStr.str_int n) = Some n.
Proof.
  intros Hn. unfold PyStr.str_int.
  assert (pretty n = pretty (Z.to_N n)) as ->.
  { destruct n as [|p|p]; [done|done|lia]. }
  destruct (pretty_N_digits (Z.to_N n)) as (H1 & H2 & H3).
  split_and!; try done.
  rewrite int_isdigit, H2.
  - f_equal. lia.
  - destruct (pretty (Z.to_N n)); [done|]. simpl. by rewrite all_digits_sforall.
Qed.

Lemma parse_range_text s e :
  0 ≤ s → 0 ≤ e → parse_range (range_text s e) = Some (s, e).
Proof.
  intros Hs He. unfold parse_range, range_text.
  destruct (str_int_digits s Hs) as (Hs1 & _ & Hs3).
  destruct (str_int_digits e He) as (He1 & _ & He3).
  change (PyStr.str_int s +:+ "-" +:+ PyStr.str_int e)
    with (PyStr.str_int s +:+ String "-" (PyStr.str_int e)).
  rewrite split_on_app, split_on_none
    by (eapply sforall_impl; [apply is_digit_not_dash|done]).
  by rewrite Hs3, He3.
Qed.

Lemma range_text_chars s e :
  0 ≤ s → 0 ≤ e →
  sforall sign_or_digit (range_text s e) = true
  ∧ ∃ c r, range_text s e = String c r ∧ PyStr.is_digit c = true.
Proof.
  intros Hs He. unfold range_text.
  destruct (str_int_digits s Hs) as (Hs1 & Hs2 & _).
  destruct (str_int_digits e He) as (He1 & _ & _).
  change (PyStr.str_int s +:+ "-" +:+ PyStr.str_int e)
    with (PyStr.str_int s +:+ String "-" (PyStr.str_int e)).
  split.
  - rewrite sforall_app. simpl.
    rewrite (sforall_impl PyStr.is_digit sign_or_digit (PyStr.str_int s)),
            (sforall_impl PyStr.is_digit sign_or_digit (PyStr.str_int e));
      try done; unfold sign_or_digit; by intros c ->.
  - destruct (PyStr.str_int s) as [|c r]; [done|].
    exists c, (r +:+ String "-" (PyStr.str_int e)). split; [done|].
    simpl in Hs1. by apply andb_true_iff in Hs1 as [? _].
Qed.

Lemma digit_head_not_letter c r (l : ascii) :
  PyStr.is_digit c = true → PyStr.is_digit l = false →
  String.eqb (String c r) (String l "") = false.
Proof.
  intros Hc Hl. apply String.eqb_neq. intros [= -> _]. congruence.
Qed.

(** X9. A typed range is read back.  When the user types [START-END] with
    [1 <= START <= END <= total_pages], at the first prompt or after
    choosing 'n', the menu leaves with exactly that range. *)
Theorem menu_accepts_typed_range last_page total_pages s e rest :
  1 ≤ s ≤ e → e ≤ total_pages →
  menu last_page total_pages (range_text s e :: rest) = MenuRange s e
  ∧ menu last_page total_pages ("n" :: range_text s e :: rest) = MenuRange s e.
Proof.
  intros Hse He.
  destruct (range_text_chars s e) as (Hchars & c & r & Htext & Hc); [lia..|].
  assert (PyStr.strip (range_text s e) = range_text s e) as Hstrip.
  { apply strip_id. eapply sforall_impl; [apply sign_or_digit_not_space|done]. }
  assert ((1 <=? s) && (s <=? e) && (e <=? total_pages) = true) as Hcond
    by (apply leb_conditions; lia).
  split.
  - simpl. rewrite Hstrip, lower_id by done.
    rewrite parse_range_text, Hcond by lia.
    rewrite Htext, !digit_head_not_letter by done. rewrite <-Htext.
    unfold range_text at 1. by rewrite contains_middle.
  - simpl. change (String.eqb (PyStr.lower (PyStr.strip "n")) "q") with false.
    change (String.eqb (PyStr.lower (PyStr.strip "n")) "r") with false.
    change (String.eqb (PyStr.lower (PyStr.strip "n")) "a") with false.
    change (String.eqb (PyStr.lower (PyStr.strip "n")) "n") with true.
    simpl. by rewrite Hstrip, parse_range_text, Hcond by lia.
Qed.

(** X10. Exit status.  Once the command line is parsed, [setup_and_run]
    leaves with status 0 or 1, whatever the input lines and the engines.
    When [process_pdf] was started and returned, the status is 0, also
    when it returned at its Tesseract check.  A status of 1 means that
    no page task was run: either [process_pdf] was not started, or the
    version check of Tesseract raised something other than
    [TesseractNotFoundError], which escapes [process_pdf] after the two
    directories were made and before any task. *)
Theorem setup_exit_status E S args pdf_exists inputs st :
  ((setup_and_run E S args pdf_exists inputs st).1 = 0
   ∨ (setup_and_run E S args pdf_exists inputs st).1 = 1)
  ∧ (∀ r, (setup_and_run E S args pdf_exists inputs st).2 = Some r →
          run_raised r = None →
          (setup_and_run E S args pdf_exists inputs st).1 = 0)
  ∧ ((setup_and_run E S args pdf_exists inputs st).1 = 1 →
     (setup_and_run E S args pdf_exists inputs st).2 = None
     ∨ ∃ r e, (setup_and_run E S args pdf_exists inputs st).2 = Some r
              ∧ get_tesseract_version E = TesseractRaises e
              ∧ run_raised r = Some e
              ∧ run_store r = make_dirs st
              ∧ run_calls r = [] ∧ run_outcomes r = []
              ∧ run_tally r = None ∧ run_combine r = None)
  ∧ ((∀ e, get_tesseract_version E ≠ TesseractRaises e) →
     (setup_and_run E S args pdf_exists inputs st).1 = 1 →
     (setup_and_run E S args pdf_exists inputs st).2 = None).
Proof.
  unfold setup_and_run. destruct pdf_exists; simpl;
    [|split_and!; [by right|done|by left|done]].
  destruct (fitz_open E (arg_pdf_path args)) as [e|total_pages];
    [split_and!; [by right|done|by left|done]|].
  destruct (menu _ _ _) as [code|s e] eqn:Hmenu; simpl.
  - split_and!; [by eapply menu_exit_codes|done|by left|done].
  - set (cfg := Config _ _ _ _ _). rewrite (process_pdf_raised E S cfg st).
    destruct (get_tesseract_version E) as [| |x] eqn:Hcheck.
    + split_and!; [by left|done|intros ?; lia|intros _ ?; lia].
    + split_and!; [by left|done|intros ?; lia|intros _ ?; lia].
    + split_and!; [by right| |intros _; right|intros Hno; by destruct (Hno x)].
      * intros r [= <-]. by rewrite process_pdf_raised, Hcheck.
      * exists (process_pdf E S cfg st), x.
        by rewrite (process_pdf_check_raises E S cfg st x Hcheck).
Qed.

(** X11. Resume.  With progress recorded ([last_page > 0]), answering 'r'
    either ends the script with status 0 when [last_page] is the last
    page or beyond, or runs [process_pdf] over [last_page + 1 ..
    total_pages], with status 0 unless an exception escapes that run; in
    that run the artifacts of every page up to [last_page] are left
    exactly as they were, so an incomplete page below [last_page] stays
    incomplete. *)
Theorem resume_leaves_earlier_pages E S args total_pages rest st :
  fitz_open E (arg_pdf_path args) = inr total_pages →
  0 < get_last_processed_page st →
  (total_pages ≤ get_last_processed_page st →
   setup_and_run E S args true ("r" :: rest) st = (0, None))
  ∧ (get_last_processed_page st < total_pages →
     ∃ r, setup_and_run E S args true ("r" :: rest) st
          = (match run_raised r with Some _ => 1 | None => 0 end, Some r)
          ∧ r = process_pdf E S
                  (Config (arg_pdf_path args) (get_last_processed_page st + 1)
                          total_pages (arg_dpi args) (arg_lang args)) st
          ∧ ∀ i, i ≤ get_last_processed_page st →
                 text_artifact (run_store r) i = text_artifact st i
                 ∧ render_artifact (run_store r) i = render_artifact st i
                 ∧ page_complete (run_store r) i = page_complete st i).
Proof.
  intros Hopen Hlast. unfold setup_and_run. rewrite Hopen. simpl.
  change (String.eqb (PyStr.lower (PyStr.strip "r")) "q") with false.
  change (String.eqb (PyStr.lower (PyStr.strip "r")) "r") with true.
  cbv iota. rewrite (proj2 (Z.ltb_lt 0 _) Hlast).
  split; intros Hcmp.
  - by rewrite (proj2 (Z.ltb_lt total_pages (get_last_processed_page st + 1)))
      by lia.
  - rewrite (proj2 (Z.ltb_ge total_pages (get_last_processed_page st + 1))) by lia.
    eexists. split; [done|]. split; [done|]. intros i Hi.
    set (cfg := Config _ _ _ _ _).
    assert (text_artifact (run_store (process_pdf E S cfg st)) i = text_artifact st i
            ∧ render_artifact (run_store (process_pdf E S cfg st)) i
              = render_artifact st i) as [Ht Hp].
    { unfold text_artifact, render_artifact. split.
      - apply (run_store_other E S cfg st (txt_name i)).
        intros j Hj ?%txt_name_inj. simpl in Hj. lia.
      - apply (run_store_other E S cfg st (png_name i)).
        intros j Hj ?%png_name_inj. simpl in Hj. lia. }
    by rewrite !page_complete_alt, Ht, Hp.
Qed.

End interactive.

Section merging.

Lemma merged_text_app st l1 l2 :
  merged_text st (l1 ++ l2) = merged_text st l1 +:+ merged_text st l2.
Proof.
  induction l1 as [|i l1 IH]; [done|]. simpl. by rewrite IH, !app_assoc_s.
Qed.

Lemma written_text_eq st s e :
  written_text (combine_text_files st s e) = merged_text st (merged_pages st s e).
Proof.
  rewrite combine_text_files_eq. unfold written_text.
  by destruct (merged_pages st s e).
Qed.

Lemma merged_count_eq st s e :
  merged_count (combine_text_files st s e).2
  = Z.of_nat (length (merged_pages st s e)).
Proof. rewrite combine_text_files_eq. by destruct (merged_pages st s e). Qed.

Lemma merged_pages_split st s m e :
  s ≤ m + 1 → m ≤ e →
  merged_pages st s e = merged_pages st s m ++ merged_pages st (m + 1) e.
Proof.
  intros Hs He. unfold merged_pages, py_range.
  replace (e + 1 - s) with ((m + 1 - s) + (e + 1 - (m + 1))) by lia.
  rewrite seqZ_app, List.filter_app by lia.
  by replace (s + (m + 1 - s)) with (m + 1) by lia.
Qed.

(** X12. Merging adjacent ranges.  For a range cut in two at any page, the
    text the combiner writes for the whole range is the text it writes
    for the first part followed by the text it writes for the second,
    and the numbers of merged pages add up. *)
Theorem combine_adjacent_ranges st s m e :
  s ≤ m + 1 → m ≤ e →
  written_text (combine_text_files st s e)
  = written_text (combine_text_files st s m)
    +:+ written_text (combine_text_files st (m + 1) e)
  ∧ merged_count (combine_text_files st s e).2
    = merged_count (combine_text_files st s m).2
      + merged_count (combine_text_files st (m + 1) e).2.
Proof.
  intros Hs He. rewrite !written_text_eq, !merged_count_eq.
  rewrite (merged_pages_split st s m e) by done.
  rewrite merged_text_app, length_app. split; [done|lia].
Qed.

Lemma merged_text_ext st st' pages :
  (∀ i, i ∈ pages → text_artifact st i = text_artifact st' i) →
  merged_text st pages = merged_text st' pages.
Proof.
  induction pages as [|i pages IH]; intros H; [done|]. simpl.
  unfold text_read. rewrite (H i) by left. rewrite IH; [done|].
  intros. apply H. by right.
Qed.

Lemma merged_pages_ext st st' s e :
  (∀ i, s ≤ i ≤ e → text_artifact st i = text_artifact st' i) →
  merged_pages st s e = merged_pages st' s e.
Proof.
  intros H. unfold merged_pages, py_range. apply List.filter_ext_in.
  intros i Hi%list_elem_of_In%elem_of_seqZ.
  unfold mergeable. rewrite H; [done|lia].
Qed.

(** X13. What the combiner reads and writes.  The text written and the report
    depend only on the text artifacts of the pages of the range: render
    artifacts, text files of other pages and an earlier combined artifact
    play no role.  The combiner changes neither collection, and running
    it a second time changes nothing more. *)
Theorem combine_reads_range_texts st st' s e :
  (∀ i, s ≤ i ≤ e → text_artifact st i = text_artifact st' i) →
  (combine_text_files st s e).2 = (combine_text_files st' s e).2
  ∧ written_text (combine_text_files st s e)
    = written_text (combine_text_files st' s e)
  ∧ png_images (combine_text_files st s e).1 = png_images st
  ∧ text_files (combine_text_files st s e).1 = text_files st
  ∧ combine_text_files (combine_text_files st s e).1 s e = combine_text_files st s e.
Proof.
  intros H. destruct (combine_text_files_frame st s e) as [Hp Ht].
  split_and!; try done.
  - rewrite !combine_text_files_eq, (merged_pages_ext st st' s e H).
    by destruct (merged_pages st' s e).
  - rewrite !written_text_eq, (merged_pages_ext st st' s e H).
    apply merged_text_ext. intros i Hi. apply H.
    by apply elem_of_merged_pages in Hi as [? _].
  - apply combine_text_files_idem.
Qed.

End merging.

Section stderr.

(** X14. Silencing stderr.  Around a body that neither rebinds [sys.stderr]
    nor closes the original stream, [suppress_stderr] restores the
    binding, closes only its own [os.devnull] object and hands the
    body's result or exception on.  When two workers are inside it at the
    same time (the second enters before the first leaves, the first
    leaves before the second), the original stream ends up closed and
    [sys.stderr] is left bound to the first worker's [os.devnull]
    object. *)
Theorem suppress_stderr_uses {A} (body : streams → streams * (exn + A)) s :
  streams_wf s →
  sys_stderr s ∉ closed s →
  (sys_stderr (body (suppress_enter s).2).1 = sys_stderr (suppress_enter s).2 →
   sys_stderr s ∉ closed (body (suppress_enter s).2).1 →
   sys_stderr (with_suppress_stderr body s).1 = sys_stderr s
   ∧ (sys_stderr s ∉ closed (with_suppress_stderr body s).1)
   ∧ (next_object s ∈ closed (with_suppress_stderr body s).1)
   ∧ (with_suppress_stderr body s).2 = (body (suppress_enter s).2).2)
  ∧ (sys_stderr (overlapping_suppress s) = next_object s
     ∧ sys_stderr (overlapping_suppress s) ≠ sys_stderr s
     ∧ (sys_stderr s ∈ closed (overlapping_suppress s))
     ∧ (next_object s ∉ closed (overlapping_suppress s))).
Proof.
  intros [Hlt Hclosed] Hopen. split.
  - intros Hbind Hkeep. unfold with_suppress_stderr.
    destruct (suppress_enter s) as [orig s1] eqn:Hs1.
    unfold suppress_enter in Hs1. simplify_eq. simpl in *.
    destruct (body _) as [s2 r]. simpl in *. split_and!; try done.
    + rewrite Hbind. intros Hin. apply elem_of_union in Hin as [Hin|Hin]; [|done].
      apply elem_of_singleton in Hin. lia.
    + rewrite Hbind. apply elem_of_union_l. by apply elem_of_singleton.
  - unfold overlapping_suppress. simpl. split_and!; try done.
    + lia.
    + apply elem_of_union_l. by apply elem_of_singleton.
    + intros Hin. apply elem_of_union in Hin as [Hin|Hin].
      { apply elem_of_singleton in Hin. lia. }
      apply elem_of_union in Hin as [Hin|Hin].
      { apply elem_of_singleton in Hin. lia. }
      apply Hclosed in Hin. lia.
Qed.

End stderr.

Section directory_name.

Lemma length_replace_char old new s :
  String.length (replace_char old new s) = String.length s.
Proof. induction s as [|c s IH]; [done|]. simpl. by rewrite IH. Qed.

Lemma rfind_dot_replace s :
  PyPath.rfind_dot (replace_char " " "_" s) = PyPath.rfind_dot s.
Proof.
  induction s as [|c s IH]; [done|]. simpl. rewrite IH.
  destruct (PyPath.rfind_dot s); [done|].
  destruct (Ascii.eqb_spec c " ") as [->|]; done.
Qed.

Lemma substring_replace old new i m s :
  String.substring i m (replace_char old new s)
  = replace_char old new (String.substring i m s).
Proof.
  revert i m. induction s as [|c s IH]; intros [|i] [|m]; simpl; try done;
    by rewrite IH.
Qed.

Lemma stem_replace s :
  PyPath.stem (replace_char " " "_" s) = replace_char " " "_" (PyPath.stem s).
Proof.
  unfold PyPath.stem, PyPath.split_point.
  rewrite rfind_dot_replace, length_replace_char.
  destruct (PyPath.rfind_dot s) as [i|]; [|done].
  case_match; [|done]. apply substring_replace.
Qed.

Lemma replace_char_idem s :
  replace_char " " "_" (replace_char " " "_" s) = replace_char " " "_" s.
Proof.
  induction s as [|c s IH]; [done|]. simpl. rewrite IH. f_equal.
  destruct (Ascii.eqb_spec c " ") as [->|Hc]; [done|].
  by apply Ascii.eqb_neq in Hc as ->.
Qed.

Lemma replace_char_no_blank s : sforall not_blank (replace_char " " "_" s) = true.
Proof.
  induction s as [|c s IH]; [done|]. simpl. rewrite IH, andb_true_r.
  unfold not_blank. destruct (Ascii.eqb_spec c " ") as [->|Hc]; [done|].
  by apply Ascii.eqb_neq in Hc as ->.
Qed.

Lemma replace_char_id s :
  sforall not_blank s = true → replace_char " " "_" s = s.
Proof.
  induction s as [|c s IH]; [done|]. simpl. rewrite andb_true_iff.
  intros [Hc Hs]. rewrite IH by done. unfold not_blank in Hc.
  by apply negb_true_iff in Hc as ->.
Qed.

(** X15. The output directory.  Its name never contains a space.  For a
    source file [<stem>.<ext>] with no space in the stem it is
    [<stem>_processed]; a file name and the same name with its spaces
    replaced by underscores get the same directory, and so do two names
    that differ only in their extension: such documents share one
    output store. *)
Theorem output_dir_name_shared :
  (∀ n, sforall not_blank (safe_name n) = true)
  ∧ (∀ t u, t ≠ "" → u ≠ "" → sforall not_dot u = true → sforall not_blank t = true →
       output_dir_name (t +:+ "." +:+ u) = t +:+ "_processed")
  ∧ (∀ n, output_dir_name (replace_char " " "_" n) = output_dir_name n)
  ∧ (∀ t u u', t ≠ "" → u ≠ "" → u' ≠ "" →
       sforall not_dot u = true → sforall not_dot u' = true →
       output_dir_name (t +:+ "." +:+ u) = output_dir_name (t +:+ "." +:+ u')).
Proof.
  split_and!.
  - intros n. apply replace_char_no_blank.
  - intros t u Ht Hu Hdot Hblank. unfold output_dir_name, safe_name.
    change (t +:+ "." +:+ u) with (t +:+ String "." u).
    by rewrite stem_app, replace_char_id.
  - intros n. unfold output_dir_name, safe_name.
    by rewrite stem_replace, replace_char_idem.
  - intros t u u' Ht Hu Hu' Hdot Hdot'. unfold output_dir_name, safe_name.
    change (t +:+ "." +:+ u) with (t +:+ String "." u).
    change (t +:+ "." +:+ u') with (t +:+ String "." u').
    by rewrite !stem_app.
Qed.

End directory_name.

Section stripped.

Lemma lstrip_split s : ∃ p, s = p +:+ PyStr.lstrip s.
Proof.
  induction s as [|c s [p Hp]]; [by exists ""|]. simpl.
  destruct (PyStr.is_space c).
  - exists (String c p). rewrite app_cons. by f_equal.
  - by exists "".
Qed.

Lemma lstrip_head s :
  PyStr.lstrip s = ""
  ∨ ∃ c r, PyStr.lstrip s = String c r ∧ PyStr.is_space c = false.
Proof.
  induction s as [|c s IH]; [by left|]. simpl.
  destruct (PyStr.is_space c) eqn:Hc; [done|]. right. by exists c, s.
Qed.

Lemma lstrip_fixed c r : PyStr.is_space c = false → PyStr.lstrip (String c r) = String c r.
Proof. intros Hc. simpl. by rewrite Hc. Qed.

Lemma lstrip_idem s : PyStr.lstrip (PyStr.lstrip s) = PyStr.lstrip s.
Proof.
  destruct (lstrip_head s) as [->|(c & r & -> & Hc)]; [done|]. by apply lstrip_fixed.
Qed.

Lemma strip_no_edge_space s : no_edge_space (PyStr.strip s).
Proof.
  unfold no_edge_space, PyStr.strip.
  set (t := PyStr.lstrip s). set (u := PyStr.lstrip (String.rev t)).
  rewrite rev_involutive_s. split; [|apply lstrip_idem].
  destruct (lstrip_split (String.rev t)) as [p Hp]. fold u in Hp.
  apply (f_equal String.rev) in Hp.
  rewrite rev_involutive_s, rev_app_distr_s in Hp.
  destruct (String.rev u) as [|d r] eqn:Hu; [done|].
  rewrite app_cons in Hp.
  destruct (lstrip_head s) as [Hnil|(c & r' & Hs & Hc)]; fold t in Hnil || fold t in Hs.
  - by rewrite Hnil in Hp.
  - rewrite Hs in Hp. simplify_eq. by apply lstrip_fixed.
Qed.

(** X16. A successful page.  With both directories in place, for a page that
    is not complete and for which opening, loading, rendering and
    recognition all go through, [process_page_task] returns success,
    stores the rendered image, and writes as text artifact the recognised
    text stripped: the artifact neither starts nor ends with white
    space, whatever Tesseract returned. *)
Theorem successful_page_artifacts E pdf page_num dpi lang st pages img text :
  has_dirs st →
  page_complete st (page_num + 1) = false →
  fitz_open E pdf = inr pages →
  load_page E pdf page_num = None →
  get_pixmap E pdf page_num dpi = inr img →
  image_to_string E img lang = inr text →
  (process_page_task E pdf page_num dpi lang st).2 = Returned true (page_num + 1) None
  ∧ render_artifact (process_page_task E pdf page_num dpi lang st).1.1 (page_num + 1)
    = Some img
  ∧ text_artifact (process_page_task E pdf page_num dpi lang st).1.1 (page_num + 1)
    = Some (PyStr.strip text)
  ∧ no_edge_space (PyStr.strip text).
Proof.
  intros Hd Hc Hopen Hload Hpix Hocr. open_dirs st Hd P T c.
  rewrite process_page_task_attempt by done. simpl.
  unfold attempt_of. rewrite Hopen, Hload, Hpix, Hocr.
  unfold render_artifact, text_artifact. simpl. rewrite !lookup_insert_eq.
  split_and!; try done. apply strip_no_edge_space.
Qed.

End stripped.

Section per_page.

Context (cfg : config).

(** X17. Complete pages are never overwritten, fresh pages get what the
    oracles give.  After a run that passed the Tesseract check, a page
    of the range that was complete before (its text a sentinel or not)
    has both artifacts exactly as before; a page that was not complete
    has as text artifact the stripped recognised text or the sentinel
    text that the oracles determine for it, independently of the other
    pages and of the completion order. *)
Theorem run_page_artifacts E S st i :
  tesseract_found E = true →
  start_page cfg ≤ i ≤ end_page cfg →
  (page_complete st i = true →
   text_artifact (run_store (process_pdf E S cfg st)) i = text_artifact st i
   ∧ render_artifact (run_store (process_pdf E S cfg st)) i = render_artifact st i)
  ∧ (page_complete st i = false →
     text_artifact (run_store (process_pdf E S cfg st)) i
     = Some (attempt_text (attempt_of E (pdf_path cfg) (i - 1) (dpi cfg) (languages cfg)))).
Proof.
  intros Hf Hi. destruct (run_store_page cfg E S st i Hf Hi) as [-> ->].
  rewrite <-(make_dirs_complete st i), <-(make_dirs_text st i), <-(make_dirs_render st i).
  pose proof (make_dirs_has_dirs st) as Hd. revert Hd.
  generalize (make_dirs st). intros st0 Hd.
  clear Hi. remember (i - 1) as n eqn:Hn. assert (i = n + 1) as -> by lia. clear Hn.
  split; intros Hc.
  - by rewrite task_store_skip.
  - open_dirs st0 Hd P T c. rewrite task_store_attempt by done.
    unfold text_artifact. simpl. by rewrite lookup_insert_eq.
Qed.

(** X18. Isolation.  Two runs over the same store and range, with engines
    that open the document alike and behave alike on one page (loading,
    rendering, and recognition of the image rendered for it) and
    arbitrarily on all others (one may fail where the other succeeds),
    leave the same text artifact and the same render artifact for that
    page. *)
Theorem page_isolation E1 E2 S1 S2 st i :
  tesseract_found E1 = true → tesseract_found E2 = true →
  start_page cfg ≤ i ≤ end_page cfg →
  fitz_open E1 (pdf_path cfg) = fitz_open E2 (pdf_path cfg) →
  load_page E1 (pdf_path cfg) (i - 1) = load_page E2 (pdf_path cfg) (i - 1) →
  get_pixmap E1 (pdf_path cfg) (i - 1) (dpi cfg)
    = get_pixmap E2 (pdf_path cfg) (i - 1) (dpi cfg) →
  (∀ img, get_pixmap E2 (pdf_path cfg) (i - 1) (dpi cfg) = inr img →
          image_to_string E1 img (languages cfg) = image_to_string E2 img (languages cfg)) →
  text_artifact (run_store (process_pdf E1 S1 cfg st)) i
    = text_artifact (run_store (process_pdf E2 S2 cfg st)) i
  ∧ render_artifact (run_store (process_pdf E1 S1 cfg st)) i
    = render_artifact (run_store (process_pdf E2 S2 cfg st)) i.
Proof.
  intros Hf1 Hf2 Hi Hopen Hload Hpix Hocr.
  destruct (run_store_page cfg E1 S1 st i Hf1 Hi) as [-> ->].
  destruct (run_store_page cfg E2 S2 st i Hf2 Hi) as [-> ->].
  clear Hi. remember (i - 1) as n eqn:Hn. assert (i = n + 1) as -> by lia. clear Hn.
  apply task_store_own; try done; try apply make_dirs_has_dirs.
  unfold attempt_of. rewrite Hopen, Hload, Hpix.
  destruct (fitz_open E2 (pdf_path cfg)); [done|].
  destruct (load_page E2 (pdf_path cfg) n); [done|].
  destruct (get_pixmap E2 (pdf_path cfg) n (dpi cfg)) as [|img]; [done|].
  by rewrite (Hocr img).
Qed.

End per_page.

Section scanner_entries.

Lemma get_last_processed_page_pages png png' txt c c' :
  processed_pages png txt = processed_pages png' txt →
  get_last_processed_page (Store (Some png) (Some txt) c)
  = get_last_processed_page (Store (Some png') (Some txt) c').
Proof. intros H. unfold get_last_processed_page. simpl. by rewrite H. Qed.

(** X19. Foreign and rewritten entries.  The scanner's result does not change
    when the render collection gains an entry that is not counted (its
    suffix is not [.png], its stem is not all digits, or the text of the
    same stem is missing), nor when the content of an existing entry is
    replaced: only the names of the entries matter. *)
Theorem scanner_ignores_foreign_entries (png txt : dir) c name v :
  PyPath.suffix name ≠ ".png"
  ∨ PyStr.isdigit (PyPath.stem name) = false
  ∨ txt !! (PyPath.stem name +:+ ".txt") = None
  ∨ is_Some (png !! name) →
  get_last_processed_page (Store (Some (<[name := v]> png)) (Some txt) c)
  = get_last_processed_page (Store (Some png) (Some txt) c).
Proof.
  intros H. apply get_last_processed_page_pages.
  apply set_eq. intros n. rewrite !elem_of_processed_pages.
  assert (scan_entry txt name = None ∨ is_Some (png !! name)) as Hcase.
  { unfold scan_entry. destruct H as [H|[H|[H|H]]]; [left|left|left|by right].
    - by apply String.eqb_neq in H as ->.
    - rewrite H. by rewrite andb_false_r.
    - rewrite H. case_match; [|done]. by rewrite bool_decide_eq_false_2 by (by intros []).  }
  split.
  - intros (name' & Hin & Hscan). exists name'. split; [|done].
    apply lookup_insert_is_Some in Hin as [<-|[_ Hin]]; [|done].
    destruct Hcase as [Hnone|Hsome]; [congruence|done].
  - intros (name' & Hin & Hscan). exists name'. split; [|done].
    apply lookup_insert_is_Some. destruct (decide (name = name')); auto.
Qed.

(** X20. Names that are not zero-padded.  A render entry [<digits>.png] with
    its [<digits>.txt], where the digits are not the zero-padded form of
    their value (as in [5.png]), is counted by the scanner, while the
    executor does not regard that page as complete and would process it
    again. *)
Theorem scanner_counts_unpadded_names digits n v w c :
  PyStr.isdigit digits = true →
  PyStr.int digits = Some n →
  digits ≠ PyStr.fmt04d n →
  get_last_processed_page
    (Store (Some {[digits +:+ ".png" := v]}) (Some {[digits +:+ ".txt" := w]}) c) = n
  ∧ page_complete
      (Store (Some {[digits +:+ ".png" := v]}) (Some {[digits +:+ ".txt" := w]}) c) n
    = false.
Proof.
  intros Hdig Hint Hne.
  set (st := Store (Some {[digits +:+ ".png" := v]}) (Some {[digits +:+ ".txt" := w]}) c).
  assert (entry_complete st n) as Hn.
  { exists {[digits +:+ ".png" := v]}, {[digits +:+ ".txt" := w]}, digits.
    split_and!; try done; rewrite lookup_singleton_eq; by eexists. }
  split.
  - pose proof (get_last_processed_page_ge st n Hn) as Hle.
    pose proof (entry_complete_nonneg st n Hn) as H0.
    destruct (get_last_processed_page_cases st) as [Hz|[Hc _]]; [lia|].
    destruct Hc as (png & txt & digits' & Hpng & _ & _ & [x Hx] & _ & Hint').
    simpl in Hpng. simplify_eq.
    apply lookup_singleton_Some in Hx as [Heq _].
    apply app_inj_suffix in Heq. subst digits'. congruence.
  - unfold page_complete, st. simpl.
    rewrite bool_decide_eq_false_2; [done|].
    intros [x Hx]. apply lookup_singleton_Some in Hx as [Heq _].
    unfold png_name in Heq. by apply app_inj_suffix in Heq.
Qed.

End scanner_entries.

(** ** The further properties at concrete inputs *)

Section extra_witnesses.

Lemma process_pdf_empty_range_witness :
  tesseract_found sound_engines = true
  ∧ end_page empty_range_config < start_page empty_range_config
  ∧ process_pdf sound_engines reversed empty_range_config empty_store
    = Run (make_dirs empty_store) [] [] (Some (Tally 0 0 [])) None.
Proof.
  split; [reflexivity|]. split; [by vm_compute|].
  apply (process_pdf_empty_range sound_engines reversed empty_range_config empty_store);
    [reflexivity|by vm_compute].
Defined.

Lemma task_raises_without_text_dir_witness :
  text_files empty_store = None
  ∧ ∃ e, (process_page_task sound_engines "book.pdf" 0 300 "eng" empty_store).2 = Raised e
         ∧ exn_kind e = "FileNotFoundError".
Proof.
  split; [reflexivity|].
  exact (proj1 (task_raises_without_text_dir sound_engines "book.pdf" 0 300 "eng"
                  empty_store eq_refl)).
Defined.

Lemma scanner_after_run_witness :
  tesseract_found demo_engines = true
  ∧ start_page demo_config ≤ 2 ≤ end_page demo_config
  ∧ 0 ≤ 2
  ∧ ¬ render_fails demo_engines (pdf_path demo_config) (dpi demo_config) (2 - 1)
  ∧ 2 ≤ get_last_processed_page
          (run_store (process_pdf demo_engines reversed demo_config empty_store)).
Proof.
  assert (¬ render_fails demo_engines (pdf_path demo_config) (dpi demo_config) (2 - 1))
    as Hrender by (intros [[e H]|[[e H]|[e H]]]; discriminate H).
  split; [reflexivity|]. split; [by vm_compute|]. split; [by vm_compute|].
  split; [exact Hrender|].
  apply (scanner_after_run demo_engines reversed demo_config empty_store 2);
    [reflexivity|by vm_compute|by vm_compute|exact Hrender].
Defined.

Lemma failure_report_witness :
  tesseract_found demo_engines = true
  ∧ ∃ t1 t2,
      run_tally (process_pdf demo_engines in_order demo_config empty_store) = Some t1
      ∧ run_tally (process_pdf demo_engines reversed demo_config empty_store) = Some t2
      ∧ failure_count t1 = Z.of_nat (length (failure_messages t1))
      ∧ failure_messages t1 ≡ₚ failure_messages t2.
Proof.
  split; [reflexivity|].
  destruct (failure_report demo_engines demo_config in_order reversed empty_store eq_refl)
    as (t1 & t2 & H1 & H2 & _ & Hc & _ & _ & Hp).
  exists t1, t2. split; [exact H1|]. split; [exact H2|]. split; [exact Hc|exact Hp].
Defined.

Lemma menu_range_valid_witness :
  menu 3 10 ["N"; "2-1"; "n"; "4 - 7"] = MenuRange 4 7
  ∧ 1 ≤ 4 ∧ 7 ≤ 10 ∧ (4 ≤ 7 ∨ (10 < 1 ∧ 4 = 1 ∧ 7 = 10)).
Proof.
  split; [reflexivity|].
  exact (menu_range_valid 3 10 ["N"; "2-1"; "n"; "4 - 7"] 4 7 eq_refl).
Defined.

Lemma menu_accepts_typed_range_witness :
  1 ≤ 5 ≤ 10 ∧ 10 ≤ 10
  ∧ menu 0 10 [range_text 5 10] = MenuRange 5 10
  ∧ menu 0 10 ["n"; range_text 5 10] = MenuRange 5 10.
Proof.
  split; [by vm_compute|]. split; [by vm_compute|].
  apply (menu_accepts_typed_range 0 10 5 10 []); by vm_compute.
Defined.

Lemma resume_leaves_earlier_pages_witness :
  fitz_open sound_engines (arg_pdf_path demo_arguments) = inr 3
  ∧ 0 < get_last_processed_page mention_store
  ∧ get_last_processed_page mention_store < 3
  ∧ ∃ r, setup_and_run sound_engines reversed demo_arguments true ["r"] mention_store
         = (0, Some r)
         ∧ ∀ i, i ≤ get_last_processed_page mention_store →
                text_artifact (run_store r) i = text_artifact mention_store i.
Proof.
  split; [reflexivity|]. split; [by vm_compute|]. split; [by vm_compute|].
  destruct (proj2 (resume_leaves_earlier_pages sound_engines reversed demo_arguments 3 []
                     mention_store eq_refl ltac:(by vm_compute)) ltac:(by vm_compute))
    as (r & Hr & Heq & Hframe).
  exists r. split; [|intros i Hi; exact (proj1 (Hframe i Hi))].
  rewrite Hr. clear Hr Hframe. subst r. reflexivity.
Defined.

Lemma combine_adjacent_ranges_witness :
  1 ≤ 1 + 1 ∧ 1 ≤ 3
  ∧ written_text (combine_text_files first_run_store 1 3)
    = written_text (combine_text_files first_run_store 1 1)
      +:+ written_text (combine_text_files first_run_store (1 + 1) 3)
  ∧ merged_count (combine_text_files first_run_store 1 3).2
    = merged_count (combine_text_files first_run_store 1 1).2
      + merged_count (combine_text_files first_run_store (1 + 1) 3).2.
Proof.
  split; [by vm_compute|]. split; [by vm_compute|].
  apply (combine_adjacent_ranges first_run_store 1 1 3); by vm_compute.
Defined.

Lemma combine_reads_range_texts_witness :
  (∀ i, 1 ≤ i ≤ 3 → text_artifact first_run_store i = text_artifact texts_only_store i)
  ∧ (combine_text_files first_run_store 1 3).2 = (combine_text_files texts_only_store 1 3).2
  ∧ written_text (combine_text_files first_run_store 1 3)
    = written_text (combine_text_files texts_only_store 1 3).
Proof.
  assert (∀ i, 1 ≤ i ≤ 3 →
            text_artifact first_run_store i = text_artifact texts_only_store i) as H
    by (intros i _; reflexivity).
  split; [exact H|].
  destruct (combine_reads_range_texts first_run_store texts_only_store 1 3 H)
    as (H1 & H2 & _).
  split; [exact H1|exact H2].
Defined.

Lemma suppress_stderr_uses_witness :
  streams_wf idle_streams
  ∧ (sys_stderr idle_streams ∉ closed idle_streams)
  ∧ sys_stderr (overlapping_suppress idle_streams) = next_object idle_streams
  ∧ sys_stderr (overlapping_suppress idle_streams) ≠ sys_stderr idle_streams
  ∧ (sys_stderr idle_streams ∈ closed (overlapping_suppress idle_streams))
  ∧ (next_object idle_streams ∉ closed (overlapping_suppress idle_streams)).
Proof.
  assert (streams_wf idle_streams) as Hwf.
  { split; [simpl; lia|]. intros o Ho. by apply not_elem_of_empty in Ho. }
  assert (sys_stderr idle_streams ∉ closed idle_streams) as Hopen
    by apply not_elem_of_empty.
  split; [exact Hwf|]. split; [exact Hopen|].
  exact (proj2 (suppress_stderr_uses (A := unit) (λ s, (s, inr tt)) idle_streams Hwf Hopen)).
Defined.

Lemma successful_page_artifacts_witness :
  has_dirs fresh_store
  ∧ page_complete fresh_store (0 + 1) = false
  ∧ (process_page_task sound_engines "book.pdf" 0 300 "eng" fresh_store).2
    = Returned true (0 + 1) None
  ∧ text_artifact (process_page_task sound_engines "book.pdf" 0 300 "eng" fresh_store).1.1
      (0 + 1)
    = Some (PyStr.strip "  text of image-0 ")
  ∧ no_edge_space (PyStr.strip "  text of image-0 ").
Proof.
  assert (has_dirs fresh_store) as Hd by (split; by eexists).
  split; [exact Hd|]. split; [reflexivity|].
  destruct (successful_page_artifacts sound_engines "book.pdf" 0 300 "eng" fresh_store
              3 "image-0" "  text of image-0 " Hd eq_refl eq_refl eq_refl eq_refl eq_refl)
    as (H1 & _ & H3 & H4).
  split; [exact H1|]. split; [exact H3|exact H4].
Defined.

Lemma run_page_artifacts_witness :
  tesseract_found demo_engines = true
  ∧ start_page demo_config ≤ 1 ≤ end_page demo_config
  ∧ page_complete mention_store 1 = true
  ∧ text_artifact (run_store (process_pdf demo_engines reversed demo_config mention_store)) 1
    = text_artifact mention_store 1
  ∧ render_artifact (run_store (process_pdf demo_engines reversed demo_config mention_store)) 1
    = render_artifact mention_store 1.
Proof.
  split; [reflexivity|]. split; [by vm_compute|]. split; [reflexivity|].
  apply (proj1 (run_page_artifacts demo_config demo_engines reversed mention_store 1
                  eq_refl ltac:(by vm_compute))).
  reflexivity.
Defined.

Lemma page_isolation_witness :
  tesseract_found sound_engines = true ∧ tesseract_found demo_engines = true
  ∧ start_page demo_config ≤ 1 ≤ end_page demo_config
  ∧ image_to_string sound_engines "image-1" "eng" ≠ image_to_string demo_engines "image-1" "eng"
  ∧ text_artifact (run_store (process_pdf sound_engines in_order demo_config empty_store)) 1
    = text_artifact (run_store (process_pdf demo_engines reversed demo_config empty_store)) 1
  ∧ render_artifact (run_store (process_pdf sound_engines in_order demo_config empty_store)) 1
    = render_artifact (run_store (process_pdf demo_engines reversed demo_config empty_store)) 1.
Proof.
  split; [reflexivity|]. split; [reflexivity|]. split; [by vm_compute|].
  split; [by vm_compute|].
  apply (page_isolation demo_config sound_engines demo_engines in_order reversed
           empty_store 1); try reflexivity; [by vm_compute|].
  intros img [= <-]. reflexivity.
Defined.

Lemma scanner_ignores_foreign_entries_witness :
  PyPath.suffix "notes.txt" ≠ ".png"
  ∧ get_last_processed_page
      (Store (Some (<["notes.txt" := "to do"]> {["0001.png" := "i1"]}))
             (Some {["0001.txt" := "t1"]}) None)
    = get_last_processed_page
        (Store (Some {["0001.png" := "i1"]}) (Some {["0001.txt" := "t1"]}) None).
Proof.
  assert (PyPath.suffix "notes.txt" ≠ ".png") as H by (by vm_compute).
  split; [exact H|].
  apply (scanner_ignores_foreign_entries {["0001.png" := "i1"]} {["0001.txt" := "t1"]}
           None "notes.txt" "to do").
  left. exact H.
Defined.

Lemma scanner_counts_unpadded_names_witness :
  PyStr.isdigit "5" = true ∧ PyStr.int "5" = Some 5 ∧ "5" ≠ PyStr.fmt04d 5
  ∧ get_last_processed_page
      (Store (Some {["5" +:+ ".png" := "i5"]}) (Some {["5" +:+ ".txt" := "t5"]}) None) = 5
  ∧ page_complete
      (Store (Some {["5" +:+ ".png" := "i5"]}) (Some {["5" +:+ ".txt" := "t5"]}) None) 5
    = false.
Proof.
  assert ("5" ≠ PyStr.fmt04d 5) as H by (by vm_compute).
  split; [reflexivity|]. split; [reflexivity|]. split; [exact H|].
  exact (scanner_counts_unpadded_names "5" 5 "i5" "t5" None eq_refl eq_refl H).
Defined.

Lemma process_pdf_frame_witness :
  (∀ i, start_page demo_config ≤ i ≤ end_page demo_config → png_name 5 ≠ png_name i)
  ∧ read_file (png_images (run_store (process_pdf demo_engines reversed demo_config gap_store)))
      (png_name 5)
    = read_file (png_images gap_store) (png_name 5)
  ∧ is_Some (read_file (png_images gap_store) (png_name 5)).
Proof.
  assert (∀ i, start_page demo_config ≤ i ≤ end_page demo_config →
               png_name 5 ≠ png_name i) as H.
  { intros i Hi Heq%png_name_inj. revert Hi. rewrite <- Heq. by vm_compute; intros [_ ?]. }
  split; [exact H|].
  split; [|by eexists].
  exact (proj1 (process_pdf_frame demo_engines reversed demo_config gap_store (png_name 5)) H).
Defined.

Lemma setup_exit_status_witness :
  (setup_and_run bad_tesseract_engines in_order demo_arguments true ["a"] fresh_store).1 = 1
  ∧ ∃ r e,
      (setup_and_run bad_tesseract_engines in_order demo_arguments true ["a"] fresh_store).2
      = Some r
      ∧ get_tesseract_version bad_tesseract_engines = TesseractRaises e
      ∧ run_raised r = Some e
      ∧ run_store r = make_dirs fresh_store
      ∧ run_calls r = [] ∧ run_outcomes r = []
      ∧ run_tally r = None ∧ run_combine r = None.
Proof.
  split; [reflexivity|].
  destruct (proj1 (proj2 (proj2 (setup_exit_status bad_tesseract_engines in_order
                                   demo_arguments true ["a"] fresh_store))) eq_refl)
    as [Hnone|Hraised]; [discriminate Hnone|exact Hraised].
Defined.

Lemma output_dir_name_shared_witness :
  sforall not_dot "pdf" = true ∧ sforall not_blank "my_book" = true
  ∧ output_dir_name ("my_book" +:+ "." +:+ "pdf") = "my_book" +:+ "_processed"
  ∧ output_dir_name (replace_char " " "_" "my book.pdf") = output_dir_name "my book.pdf".
Proof.
  split; [reflexivity|]. split; [reflexivity|].
  destruct output_dir_name_shared as (_ & H2 & H3 & _).
  split; [|exact (H3 "my book.pdf")].
  apply (H2 "my_book" "pdf"); [discriminate|discriminate|reflexivity|reflexivity].
Defined.

End extra_witnesses.

